(** * EchoSphere: the scheduled-publication engine

    A shallow embedding of the server-side JavaScript that publishes
    scheduled posts:

    - [services/socialMediaService.js]: platform limits, content
      validation (in both versions of the file) and the mock
      per-platform publisher;
    - [services/scheduler.js]: the [SchedulerService] class (timer
      life cycle, due-post discovery, the dispatcher [publishPost], the
      attempt logger);
    - [routes/posts.js]: the PUT and DELETE handlers of the post API.

    JavaScript objects mutated in place and the MongoDB collections are
    modelled by explicit state passing: a [World] holds the clock, the
    [posts] and [users] collections, the attempt log and the console; an
    [Env] fixes how the outside (publisher, store driver, elapsed time)
    answers.  Exceptions are values of [Outcome]. *)

From Stdlib Require Import ZArith Lia.
From stdpp Require Import gmap strings list fin_maps pretty.

Open Scope string_scope.
Open Scope list_scope.

(** ** JavaScript values shared by all modules *)

(** A thrown [Error]: its [message] and its optional [code]. *)
Record Error := mkError { message : string; code : option string }.

(** The completion of a call: it returns a value or throws. *)
Inductive Outcome (A : Type) : Type :=
| Returned (a : A)
| Thrown (e : Error).
Arguments Returned {A} a.
Arguments Thrown {A} e.

(** Truthiness of the values that the code tests with [&&], [||], [if]. *)
Definition truthy_num (n : option nat) : bool :=
  match n with
  | Some (S _) => true
  | _ => false
  end.

Definition truthy_str (s : option string) : bool :=
  match s with
  | Some (String _ _) => true
  | _ => false
  end.

Definition truthy_arr {A} (l : option (list A)) : bool :=
  match l with
  | Some _ => true
  | None => false
  end.

(** [e.code || 'UNKNOWN'] *)
Definition code_or_unknown (c : option string) : string :=
  match c with
  | Some (String a s) => String a s
  | _ => "UNKNOWN"
  end.

(** ** socialMediaService.js *)

Module SocialMedia.

(** The object returned by [getPlatformLimits]: a property that the
    object lacks reads as [undefined], here [None]. *)
Record Limits := mkLimits {
  textLimit : option nat;
  mediaLimit : option nat;
  hashtagLimit : option nat
}.

(** A content object as [validateContent] and the publisher read it:
    [text] (a sequence of code units, [String.length] their number),
    [hashtags], [mentions] and [media], each possibly absent. *)
Record Content := mkContent {
  text : option string;
  hashtags : option (list string);
  mentions : option (list string);
  media : option (list string)
}.

(** [{ text: t }] *)
Definition text_only (t : string) : Content :=
  mkContent (Some t) None None None.

Record Validation := mkValidation {
  isValid : bool;
  errors : list string
}.

(** [limits[platform] || {}] over the three-entry table.  A key that
    the table inherits from [Object.prototype] yields an object without
    any of the three properties, which reads like [{}]. *)
Definition getPlatformLimits (platform : string) : Limits :=
  if platform =? "twitter" then mkLimits (Some 280) (Some 4) (Some 2)
  else if platform =? "linkedin" then mkLimits (Some 3000) (Some 1) (Some 5)
  else if platform =? "instagram" then mkLimits (Some 2200) (Some 10) (Some 30)
  else mkLimits None None None.

(** [limits.l && content.f && content.f.length > limits.l], with
    [content] itself possibly [null] or [undefined] ([None]): reading a
    property of it throws a [TypeError], but only when the left operand
    [limits.l] is truthy. *)
Definition exceeds {A} (limit : option nat) (content : option Content)
    (field : Content -> option A) (truthy : option A -> bool)
    (len : A -> nat) : Outcome bool :=
  if truthy_num limit then
    match content with
    | None =>
        Thrown (mkError "Cannot read properties of undefined" None)
    | Some c =>
        Returned
          (truthy (field c) &&
           match field c, limit with
           | Some v, Some l => Nat.ltb l (len v)
           | _, _ => false
           end)
    end
  else Returned false.

Definition push_if (b : bool) (msg : string) (errs : list string) :=
  if b then errs ++ [msg] else errs.

Definition validateContent (platform : string) (content : option Content)
    : Outcome Validation :=
  let limits := getPlatformLimits platform in
  let errors := [] in
  match exceeds (textLimit limits) content text truthy_str String.length with
  | Thrown e => Thrown e
  | Returned b1 =>
    let errors :=
      push_if b1
        ("Text exceeds " +:+ platform +:+ " limit of " +:+
         from_option pretty "undefined" (textLimit limits) +:+ " characters")
        errors in
    match exceeds (hashtagLimit limits) content hashtags truthy_arr length with
    | Thrown e => Thrown e
    | Returned b2 =>
      let errors :=
        push_if b2
          ("Too many hashtags for " +:+ platform +:+ " (max: " +:+
           from_option pretty "undefined" (hashtagLimit limits) +:+ ")")
          errors in
      match exceeds (mediaLimit limits) content media truthy_arr length with
      | Thrown e => Thrown e
      | Returned b3 =>
        let errors :=
          push_if b3
            ("Too many media items for " +:+ platform +:+ " (max: " +:+
             from_option pretty "undefined" (mediaLimit limits) +:+ ")")
            errors in
        Returned (mkValidation (Nat.eqb (length errors) 0) errors)
      end
    end
  end.

(** What [publishPost(platform, accountInfo, content)] resolves to. *)
Record PublishResult := mkPublishResult {
  postId : string;
  url : string;
  platform : string
}.

(** A connected account of a user ([user.connectedAccounts[platform]]). *)
Record Account := mkAccount {
  accessToken : string;
  username : string
}.

(** The publisher of the repository's mock service, called at time [t]
    ([Date.now()]): the three known platforms succeed, any other
    platform is rejected. *)
Definition publishPost (platform : string) (accountInfo : Account)
    (content : Content) (t : Z) : Outcome PublishResult :=
  if platform =? "twitter" then
    Returned (mkPublishResult ("twitter_" +:+ pretty t)
      ("https://twitter.com/" +:+ username accountInfo +:+ "/status/123456789")
      "twitter")
  else if platform =? "linkedin" then
    Returned (mkPublishResult ("linkedin_" +:+ pretty t)
      "https://linkedin.com/posts/activity-123456789" "linkedin")
  else if platform =? "instagram" then
    Returned (mkPublishResult ("instagram_" +:+ pretty t)
      "https://instagram.com/p/ABC123DEF456/" "instagram")
  else Thrown (mkError ("Unsupported platform: " +:+ platform) None).

End SocialMedia.

(** ** socialMediaService.js, the version with the OAuth publishers

    Its limits table is the same; its checks read
    [limits.l && content.f?.length > limits.l]. *)

Module SocialMediaOAuth.

Definition getPlatformLimits (platform : string) : SocialMedia.Limits :=
  if platform =? "twitter"
  then SocialMedia.mkLimits (Some 280) (Some 4) (Some 2)
  else if platform =? "linkedin"
  then SocialMedia.mkLimits (Some 3000) (Some 1) (Some 5)
  else if platform =? "instagram"
  then SocialMedia.mkLimits (Some 2200) (Some 10) (Some 30)
  else SocialMedia.mkLimits None None None.

(** [limits.l && content.f?.length > limits.l]: an absent [f] gives
    [undefined > l], which is false. *)
Definition exceeds {A} (limit : option nat) (content : option SocialMedia.Content)
    (field : SocialMedia.Content -> option A) (len : A -> nat) : Outcome bool :=
  if truthy_num limit then
    match content with
    | None => Thrown (mkError "Cannot read properties of undefined" None)
    | Some c =>
        Returned
          match field c, limit with
          | Some v, Some l => Nat.ltb l (len v)
          | _, _ => false
          end
    end
  else Returned false.

Definition validateContent (platform : string)
    (content : option SocialMedia.Content) : Outcome SocialMedia.Validation :=
  let limits := getPlatformLimits platform in
  let errors := [] in
  match exceeds (SocialMedia.textLimit limits) content SocialMedia.text
          String.length with
  | Thrown e => Thrown e
  | Returned b1 =>
    let errors :=
      SocialMedia.push_if b1
        ("Text exceeds " +:+ platform +:+ " limit of " +:+
         from_option pretty "undefined" (SocialMedia.textLimit limits))
        errors in
    match exceeds (SocialMedia.hashtagLimit limits) content SocialMedia.hashtags
            length with
    | Thrown e => Thrown e
    | Returned b2 =>
      let errors :=
        SocialMedia.push_if b2
          ("Too many hashtags for " +:+ platform +:+ " (max: " +:+
           from_option pretty "undefined" (SocialMedia.hashtagLimit limits) +:+ ")")
          errors in
      match exceeds (SocialMedia.mediaLimit limits) content SocialMedia.media
              length with
      | Thrown e => Thrown e
      | Returned b3 =>
        let errors :=
          SocialMedia.push_if b3
            ("Too many media items for " +:+ platform +:+ " (max: " +:+
             from_option pretty "undefined" (SocialMedia.mediaLimit limits) +:+ ")")
            errors in
        Returned (SocialMedia.mkValidation (Nat.eqb (length errors) 0) errors)
      end
    end
  end.

End SocialMediaOAuth.

(** ** The documents of the three collections *)

(** An element of [post.results]. *)
Module PlatformResult.
Record t := mk {
  platform : string;
  postId : option string;
  url : option string;
  success : bool;
  error : option string;
  postedAt : Z
}.
End PlatformResult.

(** A [SchedulerLog] document, as [logPublishAttempt] builds it. *)
Module SchedulerLog.
Record t := mk {
  postId : string;
  platform : string;
  status : string;
  scheduledTime : Z;
  executedTime : Z;
  (** [{ statusCode: 200, body: response }] or [null] *)
  response : option (nat * SocialMedia.PublishResult);
  (** [{ message, code, details }] or [null] *)
  error : option (string * string * Error)
}.
End SchedulerLog.

(** A [User] document: its id and its [connectedAccounts] object.  The
    schema is not among the sources; [connectedAccounts] is taken to be
    an object on every user, as routes/accounts.js reads it without a
    guard, and a platform is absent from it when never connected or
    set to [undefined] on disconnect. *)
Module User.
Record t := mk {
  _id : string;
  connectedAccounts : gmap string SocialMedia.Account
}.
End User.

(** A [Post] document, with the paths that the scheduler and the routes
    read or write.  Times are milliseconds since the epoch; [status] is
    the string that the code assigns and compares. *)
Module Post.
Record t := mk {
  _id : string;
  userId : string;
  text : string;
  hashtags : list string;
  mentions : list string;
  media : list string;
  platforms : list string;
  scheduledAt : Z;
  status : string;
  retryCount : Z;
  lastAttempt : option Z;
  results : list PlatformResult.t
}.

Definition set_status (s : string) (p : t) : t :=
  mk (_id p) (userId p) (text p) (hashtags p) (mentions p) (media p)
     (platforms p) (scheduledAt p) s (retryCount p) (lastAttempt p)
     (results p).

Definition set_lastAttempt (d : Z) (p : t) : t :=
  mk (_id p) (userId p) (text p) (hashtags p) (mentions p) (media p)
     (platforms p) (scheduledAt p) (status p) (retryCount p) (Some d)
     (results p).

Definition set_scheduledAt (d : Z) (p : t) : t :=
  mk (_id p) (userId p) (text p) (hashtags p) (mentions p) (media p)
     (platforms p) d (status p) (retryCount p) (lastAttempt p)
     (results p).

Definition set_retryCount (n : Z) (p : t) : t :=
  mk (_id p) (userId p) (text p) (hashtags p) (mentions p) (media p)
     (platforms p) (scheduledAt p) (status p) n (lastAttempt p)
     (results p).

Definition set_text (s : string) (p : t) : t :=
  mk (_id p) (userId p) s (hashtags p) (mentions p) (media p)
     (platforms p) (scheduledAt p) (status p) (retryCount p) (lastAttempt p)
     (results p).

Definition set_platforms (l : list string) (p : t) : t :=
  mk (_id p) (userId p) (text p) (hashtags p) (mentions p) (media p)
     l (scheduledAt p) (status p) (retryCount p) (lastAttempt p)
     (results p).

(** [post.results.push(r)] *)
Definition push_result (r : PlatformResult.t) (p : t) : t :=
  mk (_id p) (userId p) (text p) (hashtags p) (mentions p) (media p)
     (platforms p) (scheduledAt p) (status p) (retryCount p) (lastAttempt p)
     (results p ++ [r]).
End Post.

(** ** The world outside the JavaScript heap *)

(** Lines written by [console.log] and [console.error]. *)
Inductive Line :=
| Publishing (id : string) (platforms : list string)
| PostedTo (platform : string)
| FailedToPost (platform msg : string)
| SchedulingRetry (retryCount : Z) (id : string)
| LogSaveFailed (e : Error)
| FoundPosts (n : nat)
| ProcessingFailed (e : Error)
| UpdatePostError (e : Error)
| DeletePostError (e : Error).

(** What the process does to the outside, in the order it does it. *)
Inductive Event :=
| Console (l : Line)
| PostSaved (p : Post.t)
| PublishCall (platform : string) (postId : string).

Record World := mkWorld {
  now : Z;                          (* the clock, [Date.now()] *)
  posts : gmap string Post.t;       (* the Post collection *)
  users : gmap string User.t;       (* the User collection *)
  logs : list SchedulerLog.t;       (* the SchedulerLog collection *)
  trace : list Event
}.

(** How the outside answers.  Every answer may depend on the instant of
    the call, so that two calls with equal arguments can differ. *)
Record Env := mkEnv {
  (** [socialMediaService.publishPost(platform, accountInfo, content)] *)
  publisher : string -> SocialMedia.Account -> SocialMedia.Content -> Z ->
              Outcome SocialMedia.PublishResult;
  (** rejection of [post.save()] by the store *)
  post_save_error : Post.t -> Z -> option Error;
  (** rejection of [log.save()] by the store *)
  log_save_error : SchedulerLog.t -> Z -> option Error;
  (** the answer to the due-post query, owners populated *)
  find_due : gmap string Post.t -> gmap string User.t -> Z ->
             Outcome (list (Post.t * option User.t));
  (** rejection of [findOne], [findByIdAndUpdate], [findByIdAndDelete] *)
  query_error : string -> Z -> option Error;
  (** milliseconds that an awaited call started at the instant takes *)
  elapsed : Z -> N
}.

(** ** Computations: state passing with exceptions *)

Definition M (A : Type) : Type := World -> Outcome A * World.

Definition ret {A} (a : A) : M A := fun w => (Returned a, w).

Definition throw {A} (e : Error) : M A := fun w => (Thrown e, w).

Definition bind {A B} (m : M A) (k : A -> M B) : M B :=
  fun w =>
    match m w with
    | (Returned a, w') => k a w'
    | (Thrown e, w') => (Thrown e, w')
    end.

(** [try { m } catch (e) { h e }] *)
Definition try_catch {A} (m : M A) (h : Error -> M A) : M A :=
  fun w =>
    match m w with
    | (Returned a, w') => (Returned a, w')
    | (Thrown e, w') => h e w'
    end.

Declare Scope js_scope.
Delimit Scope js_scope with js.
Notation "x <- c1 ;; c2" := (bind c1 (fun x => c2))
  (at level 20, c1 at level 99, c2 at level 200) : js_scope.
Notation "c1 ;; c2" := (bind c1 (fun _ => c2))
  (at level 100, c2 at level 200, right associativity) : js_scope.
Open Scope js_scope.

(** [for (const x of l) { s = await f(s, x) }] *)
Fixpoint forEach {A S} (f : S -> A -> M S) (l : list A) (s : S) : M S :=
  match l with
  | [] => ret s
  | x :: l' => s' <- f s x ;; forEach f l' s'
  end.

Definition emit (e : Event) : M unit :=
  fun w => (Returned tt,
            mkWorld (now w) (posts w) (users w) (logs w) (trace w ++ [e])).

Definition console_log (l : Line) : M unit := emit (Console l).

(** [new Date()] and [Date.now()] *)
Definition newDate : M Z := fun w => (Returned (now w), w).

Section Outside.

Variable env : Env.

(** An awaited call to the outside lets time pass. *)
Definition await_io : M Z :=
  fun w => (Returned (now w),
            mkWorld (now w + Z.of_N (elapsed env (now w)))
                    (posts w) (users w) (logs w) (trace w)).

(** [await post.save()]: the store is asked at the instant of the call;
    an accepted document replaces the one stored under its id (the
    dispatcher is the only writer of a post while it runs). *)
Definition Post_save (p : Post.t) : M unit :=
  t <- await_io ;;
  match post_save_error env p t with
  | Some e => throw e
  | None =>
      fun w => (Returned tt,
                mkWorld (now w) (<[Post._id p := p]> (posts w)) (users w)
                        (logs w) (trace w ++ [PostSaved p]))
  end.

(** [await log.save()] *)
Definition SchedulerLog_save (l : SchedulerLog.t) : M unit :=
  t <- await_io ;;
  match log_save_error env l t with
  | Some e => throw e
  | None =>
      fun w => (Returned tt,
                mkWorld (now w) (posts w) (users w) (logs w ++ [l]) (trace w))
  end.

(** [await socialMediaService.publishPost(platform, accountInfo, content)] *)
Definition call_publisher (postId platform : string)
    (accountInfo : SocialMedia.Account) (content : SocialMedia.Content)
    : M SocialMedia.PublishResult :=
  emit (PublishCall platform postId) ;;
  t <- await_io ;;
  match publisher env platform accountInfo content t with
  | Returned r => ret r
  | Thrown e => throw e
  end.

(** [await Post.find({ scheduledAt: { $lte: now }, status: { $in:
    ['scheduled'] }, retryCount: { $lt: 3 } }).populate('userId')] *)
Definition Post_find_due (d : Z) : M (list (Post.t * option User.t)) :=
  fun w =>
    match await_io w with
    | (_, w') =>
        match find_due env (posts w) (users w) d with
        | Returned l => (Returned l, w')
        | Thrown e => (Thrown e, w')
        end
    end.

End Outside.

(** The filter document of the due-post query, as a predicate. *)
Definition due (d : Z) (p : Post.t) : bool :=
  (Post.scheduledAt p <=? d)%Z && (Post.status p =? "scheduled")
  && (Post.retryCount p <? 3)%Z.

(** The store's own answer to the query: every stored post that matches
    the filter, once, with its owner looked up ([null] when the user is
    gone). *)
Definition mongo_find_due (ps : gmap string Post.t) (us : gmap string User.t)
    (d : Z) : Outcome (list (Post.t * option User.t)) :=
  Returned
    (map (fun p => (p, us !! Post.userId p))
         (filter (fun p => due d p = true) (map snd (map_to_list ps)))).

(** The value that [schedulePost] resolves to: [{ success, message }] or
    [{ success, error }]. *)
Module ManualResult.
Record t := mk {
  success : bool;
  message : option string;
  error : option string
}.
End ManualResult.

(** ** services/scheduler.js: class SchedulerService *)

Module Scheduler.

(** *** Life cycle: [constructor], [start], [stop], [getStatus] *)

(** The node-cron side: the tasks created so far are numbered; [live]
    holds those that still fire. *)
Record Cron := mkCron {
  created : nat;
  live : gset nat
}.

Inductive Notice := AlreadyRunning | Started | Stopped.

(** The fields of the service object, the timers and the console. *)
Record Service := mkService {
  isRunning : bool;
  cronJob : option nat;
  cron : Cron;
  notices : list Notice
}.

(** [new SchedulerService()] in a process without timers. *)
Definition constructor : Service :=
  mkService false None (mkCron 0 ∅) [].

(** [cron.schedule('* * * * *', ...)]: a new task that fires. *)
Definition cron_schedule (c : Cron) : nat * Cron :=
  (created c, mkCron (S (created c)) ({[created c]} ∪ live c)).

(** [task.destroy()] *)
Definition cron_destroy (job : nat) (c : Cron) : Cron :=
  mkCron (created c) (live c ∖ {[job]}).

Definition start (s : Service) : Service :=
  if isRunning s then
    mkService (isRunning s) (cronJob s) (cron s) (notices s ++ [AlreadyRunning])
  else
    let '(job, c) := cron_schedule (cron s) in
    mkService true (Some job) c (notices s ++ [Started]).

Definition stop (s : Service) : Service :=
  let '(job, c) :=
    match cronJob s with
    | Some job => (None, cron_destroy job (cron s))
    | None => (cronJob s, cron s)
    end in
  mkService false job c (notices s ++ [Stopped]).

(** [getStatus()]: the flag and, while a task is held, the task whose
    next date is reported. *)
Definition getStatus (s : Service) : bool * option nat :=
  (isRunning s, cronJob s).

(** What an observer of the running state sees: the status and the
    timers that fire. *)
Definition running_state (s : Service) : bool * option nat * gset nat :=
  (isRunning s, cronJob s, live (cron s)).

(** *** The dispatcher and the attempt logger *)

Section Dispatch.

Variable env : Env.

(** [logPublishAttempt(postId, platform, status, response = null,
    error = null)] *)
Definition logPublishAttempt (postId platform status : string)
    (response : option SocialMedia.PublishResult) (error : option Error)
    : M unit :=
  try_catch
    (t <- newDate ;;
     let log :=
       SchedulerLog.mk postId platform status t t
         (match response with
          | Some r => Some (200, r)
          | None => None
          end)
         (match error with
          | Some e => Some (message e, code_or_unknown (code e), e)
          | None => None
          end) in
     SchedulerLog_save env log)
    (fun logError => console_log (LogSaveFailed logError)).

(** [publishToPlatform(post, platform)]; [user] is the populated
    [post.userId], [None] when the reference is dangling. *)
Definition publishToPlatform (post : Post.t) (user : option User.t)
    (platform : string) : M SocialMedia.PublishResult :=
  match user with
  | None =>
      throw (mkError
        "Cannot read properties of null (reading 'connectedAccounts')" None)
  | Some u =>
      match User.connectedAccounts u !! platform with
      | None =>
          throw (mkError (platform +:+ " account not connected for user") None)
      | Some accountInfo =>
          call_publisher env (Post._id post) platform accountInfo
            (SocialMedia.mkContent (Some (Post.text post))
               (Some (Post.hashtags post)) (Some (Post.mentions post))
               (Some (Post.media post)))
      end
  end.

(** The state of the loop of [publishPost]: the document and the two
    counters. *)
Definition Loop : Type := Post.t * nat * nat.

(** One iteration of [for (const platform of post.platforms)]. *)
Definition attempt (user : option User.t) (st : Loop) (platform : string)
    : M Loop :=
  let '(post, successCount, failureCount) := st in
  try_catch
    (result <- publishToPlatform post user platform ;;
     logPublishAttempt (Post._id post) platform "success" (Some result) None ;;
     t <- newDate ;;
     let post :=
       Post.push_result
         (PlatformResult.mk platform (Some (SocialMedia.postId result))
            (Some (SocialMedia.url result)) true None t) post in
     console_log (PostedTo platform) ;;
     ret (post, S successCount, failureCount))
    (fun error =>
     console_log (FailedToPost platform (message error)) ;;
     logPublishAttempt (Post._id post) platform "failed" None (Some error) ;;
     t <- newDate ;;
     let post :=
       Post.push_result
         (PlatformResult.mk platform None None false
            (Some (message error)) t) post in
     ret (post, successCount, S failureCount)).

(** The status and retry policy that follows the loop. *)
Definition settle (st : Loop) : M Post.t :=
  let '(post, successCount, failureCount) := st in
  if (0 <? successCount)%nat && (failureCount =? 0)%nat then
    ret (Post.set_status "posted" post)
  else if (0 <? successCount)%nat && (0 <? failureCount)%nat then
    ret (Post.set_status "posted" post)
  else
    let post := Post.set_status "failed" post in
    let post := Post.set_retryCount (Post.retryCount post + 1) post in
    if (Post.retryCount post <? 3)%Z then
      let post := Post.set_status "scheduled" post in
      t <- newDate ;;
      let post := Post.set_scheduledAt (t + 15 * 60 * 1000) post in
      console_log (SchedulingRetry (Post.retryCount post) (Post._id post)) ;;
      ret post
    else ret post.

(** [publishPost(post)].  The JavaScript mutates [post] in place; the
    model returns the document as the caller finds it afterwards. *)
Definition publishPost (post : Post.t) (user : option User.t) : M Post.t :=
  console_log (Publishing (Post._id post) (Post.platforms post)) ;;
  t <- newDate ;;
  let post := Post.set_lastAttempt t (Post.set_status "posting" post) in
  Post_save env post ;;
  st <- forEach (attempt user) (Post.platforms post) (post, 0, 0)%nat ;;
  post <- settle st ;;
  Post_save env post ;;
  ret post.

(** [processScheduledPosts()] *)
Definition processScheduledPosts : M unit :=
  try_catch
    (d <- newDate ;;
     postsToPublish <- Post_find_due env d ;;
     console_log (FoundPosts (length postsToPublish)) ;;
     forEach (fun _ '(post, user) => publishPost post user ;; ret tt)
             postsToPublish tt)
    (fun error => console_log (ProcessingFailed error)).

(** [await Post.findById(postId).populate('userId')] *)
Definition Post_findById_populated (postId : string)
    : M (option (Post.t * option User.t)) :=
  t <- await_io env ;;
  match query_error env postId t with
  | Some e => throw e
  | None =>
      fun w =>
        (Returned ((fun p => (p, users w !! Post.userId p)) <$> posts w !! postId),
         w)
  end.

(** [schedulePost(postId)]: the manual trigger. *)
Definition schedulePost (postId : string) : M ManualResult.t :=
  try_catch
    (found <- Post_findById_populated postId ;;
     match found with
     | None => throw (mkError "Post not found" None)
     | Some (post, user) =>
         if negb (Post.status post =? "scheduled") then
           throw (mkError "Post is not in scheduled status" None)
         else
           publishPost post user ;;
           ret (ManualResult.mk true (Some "Post published successfully") None)
     end)
    (fun error => ret (ManualResult.mk false None (Some (message error)))).

End Dispatch.

End Scheduler.

(** ** routes/posts.js: [PUT /:id] and [DELETE /:id] *)

Module Routes.

(** [req.body] of an update request; an absent key is [None]. *)
Record Body := mkBody {
  content : option string;
  platforms : option (list string);
  scheduledAt : option string;
  status : option string
}.

(** A request that passed [authenticateToken]: [req.params.id],
    [req.userId] and [req.body]. *)
Record Request := mkRequest {
  id : string;
  userId : string;
  body : Body
}.

Inductive Json :=
| ErrorJson (error : string) (details : list string)
| PostJson (message : string) (post : Post.t)
| MessageJson (message : string).

(** [res.status(code).json(payload)] *)
Record Response := mkResponse {
  statusCode : nat;
  json : Json
}.

(** The [updates] object of the PUT handler. *)
Record Updates := mkUpdates {
  u_text : option string;          (* updates['content.text'] *)
  u_platforms : option (list string);
  u_scheduledAt : option Z;
  u_status : option string
}.

Definition is_in (l : list string) (s : string) : bool :=
  existsb (String.eqb s) l.

Section Handlers.

Variable env : Env.
(** validator.js [isISO8601] and the [Date] constructor on a string *)
Variable isISO8601 : string -> bool.
Variable parseDate : string -> Z.

(** The validation chain of [PUT /:id]: the messages of the failed
    checks ([validationResult(req).array()]). *)
Definition validate_put (b : Body) : list string :=
  (match content b with
   | Some "" => ["Post content cannot be empty"]
   | _ => []
   end) ++
  (match platforms b with
   | Some [] => ["At least one platform required"]
   | _ => []
   end) ++
  (match platforms b with
   | Some l =>
       map (fun _ => "Invalid platform")
         (filter (fun p => is_in ["twitter"; "linkedin"; "instagram"] p = false) l)
   | None => []
   end) ++
  (match scheduledAt b with
   | Some s => if isISO8601 s then [] else ["Valid scheduled date required"]
   | None => []
   end) ++
  (match status b with
   | Some s =>
       if is_in ["draft"; "scheduled"; "published"] s then []
       else ["Invalid status"]
   | None => []
   end).

(** [await Post.findOne({ _id: id, userId: uid })] *)
Definition Post_findOne (id uid : string) : M (option Post.t) :=
  t <- await_io env ;;
  match query_error env id t with
  | Some e => throw e
  | None =>
      fun w =>
        (Returned
           (match posts w !! id with
            | Some p => if Post.userId p =? uid then Some p else None
            | None => None
            end), w)
  end.

Definition apply_updates (u : Updates) (p : Post.t) : Post.t :=
  let p := match u_text u with Some s => Post.set_text s p | None => p end in
  let p := match u_platforms u with
           | Some l => Post.set_platforms l p
           | None => p
           end in
  let p := match u_scheduledAt u with
           | Some d => Post.set_scheduledAt d p
           | None => p
           end in
  match u_status u with Some s => Post.set_status s p | None => p end.

(** [await Post.findByIdAndUpdate(id, updates, { new: true })] *)
Definition Post_findByIdAndUpdate (id : string) (u : Updates)
    : M (option Post.t) :=
  t <- await_io env ;;
  match query_error env id t with
  | Some e => throw e
  | None =>
      fun w =>
        (Returned (apply_updates u <$> posts w !! id),
         mkWorld (now w) (alter (apply_updates u) id (posts w)) (users w)
                 (logs w) (trace w))
  end.

(** [await Post.findByIdAndDelete(id)] *)
Definition Post_findByIdAndDelete (id : string) : M unit :=
  t <- await_io env ;;
  match query_error env id t with
  | Some e => throw e
  | None =>
      fun w =>
        (Returned tt,
         mkWorld (now w) (delete id (posts w)) (users w) (logs w) (trace w))
  end.

(** The loop over [platformsToValidate]: the first platform whose
    validation fails ends the request. *)
Fixpoint validate_all (text : string) (l : list string)
    : M (option Response) :=
  match l with
  | [] => ret None
  | platform :: l' =>
      match SocialMedia.validateContent platform
              (Some (SocialMedia.text_only text)) with
      | Thrown e => throw e
      | Returned validation =>
          if negb (SocialMedia.isValid validation) then
            ret (Some (mkResponse 400
                   (ErrorJson ("Content validation failed for " +:+ platform)
                              (SocialMedia.errors validation))))
          else validate_all text l'
      end
  end.

(** [router.put('/:id', ...)] *)
Definition put_id (req : Request) : M Response :=
  try_catch
    (let errors := validate_put (body req) in
     if negb (Nat.eqb (length errors) 0) then
       ret (mkResponse 400 (ErrorJson "Validation failed" errors))
     else
       found <- Post_findOne (id req) (userId req) ;;
       match found with
       | None => ret (mkResponse 404 (ErrorJson "Post not found" []))
       | Some post =>
         if Post.status post =? "posted" then
           ret (mkResponse 400 (ErrorJson "Cannot edit published posts" []))
         else
           let updates :=
             mkUpdates
               (if truthy_str (content (body req)) then content (body req)
                else None)
               (platforms (body req))
               (if truthy_str (scheduledAt (body req))
                then parseDate <$> scheduledAt (body req) else None)
               (if truthy_str (status (body req)) then status (body req)
                else None) in
           rejected <-
             (if truthy_str (u_text updates) || truthy_arr (u_platforms updates)
              then
                validate_all
                  (from_option (fun s => s) (Post.text post) (u_text updates))
                  (from_option (fun l => l) (Post.platforms post)
                               (u_platforms updates))
              else ret None) ;;
           match rejected with
           | Some response => ret response
           | None =>
               updated <- Post_findByIdAndUpdate (id req) updates ;;
               match updated with
               | None =>
                   throw (mkError
                     "Cannot read properties of null (reading '_id')" None)
               | Some updatedPost =>
                   ret (mkResponse 200
                          (PostJson "Post updated successfully" updatedPost))
               end
           end
       end)
    (fun error =>
       console_log (UpdatePostError error) ;;
       ret (mkResponse 500 (ErrorJson "Failed to update post" []))).

(** [router.delete('/:id', ...)] *)
Definition delete_id (req : Request) : M Response :=
  try_catch
    (found <- Post_findOne (id req) (userId req) ;;
     match found with
     | None => ret (mkResponse 404 (ErrorJson "Post not found" []))
     | Some post =>
       if Post.status post =? "posted" then
         ret (mkResponse 400 (ErrorJson "Cannot delete published posts" []))
       else
         Post_findByIdAndDelete (id req) ;;
         ret (mkResponse 200 (MessageJson "Post deleted successfully"))
     end)
    (fun error =>
       console_log (DeletePostError error) ;;
       ret (mkResponse 500 (ErrorJson "Failed to delete post" []))).

End Handlers.

End Routes.

(** * The other handlers of the API *)

(** The body of [GET /:id/analytics]. *)
Module Analytics.
Record t := mk {
  postId : string;
  status : string;
  platforms : list string;
  scheduledAt : Z;
  results : list PlatformResult.t;
  retryCount : Z;
  lastAttempt : option Z;
  totalPlatforms : nat;
  successfulPosts : nat;
  failedPosts : nat
}.
End Analytics.

(** The body that answers a disconnection. *)
Module Disconnected.
Record t := mk {
  message : string;
  platform : string
}.
End Disconnected.

(** [req.body] of [POST /]: [content] is the string sent and [platforms]
    the array sent; the empty string and the empty array also stand for
    an absent key, which the validation chain answers alike. *)
Module NewPost.
Record t := mk {
  content : string;
  platforms : list string;
  scheduledAt : option string;
  status : option string
}.
End NewPost.

Module Api.

(** The server around a handler: the stores and the clock, and what the
    handlers' [catch] blocks wrote with [console.error(label, error)]. *)
Record Server := mkServer {
  world : World;
  stderr : list (string * Error)
}.

Inductive Payload (A : Type) : Type :=
| Data (a : A)
| Failure (error : string).
Arguments Data {A} a.
Arguments Failure {A} error.

(** [res.status(code).json(payload)] *)
Record Reply (A : Type) := mkReply {
  statusCode : nat;
  json : Payload A
}.
Arguments mkReply {A} statusCode json.
Arguments statusCode {A} r.
Arguments json {A} r.

(** [try { body } catch (error) { console.error(label, error);
    res.status(500).json(failure) }] *)
Definition guarded {A} (body : M A) (label : string) (failure : A)
    : Server -> A * Server :=
  fun s =>
    match body (world s) with
    | (Returned r, w') => (r, mkServer w' (stderr s))
    | (Thrown e, w') => (failure, mkServer w' (stderr s ++ [(label, e)]))
    end.

Section Handlers.

Variable env : Env.
Variable isISO8601 : string -> bool.
Variable parseDate : string -> Z.
(** [new Post({})]: a document with a generated [_id] and the defaults
    of the Post schema, for the paths that the handler does not give. *)
Variable blank : Post.t.
(** The driver's error for an insert under an [_id] that is taken. *)
Variable duplicate_key : string -> Error.
(** The failures of the User collection: of a query by id, of a save. *)
Variable user_query_error : string -> Z -> option Error.
Variable user_save_error : User.t -> Z -> option Error.

(** The validation chain of [POST /]. *)
Definition validate_post (b : NewPost.t) : list string :=
  (match NewPost.content b with
   | "" => ["Post content is required"]
   | _ => []
   end) ++
  (match NewPost.platforms b with
   | [] => ["At least one platform required"]
   | _ => []
   end) ++
  map (fun _ => "Invalid platform")
    (filter (fun p => Routes.is_in ["twitter"; "linkedin"; "instagram"] p = false)
            (NewPost.platforms b)) ++
  (match NewPost.scheduledAt b with
   | Some s => if isISO8601 s then [] else ["Valid scheduled date required"]
   | None => []
   end) ++
  (match NewPost.status b with
   | Some s =>
       if Routes.is_in ["draft"; "scheduled"; "published"] s then []
       else ["Invalid status"]
   | None => []
   end).

(** [await post.save()] on a new document: an insert. *)
Definition Post_insert (p : Post.t) : M unit :=
  t <- await_io env ;;
  match post_save_error env p t with
  | Some e => throw e
  | None =>
      fun w =>
        match posts w !! Post._id p with
        | Some _ => (Thrown (duplicate_key (Post._id p)), w)
        | None =>
            (Returned tt,
             mkWorld (now w) (<[Post._id p := p]> (posts w)) (users w)
                     (logs w) (trace w ++ [PostSaved p]))
        end
  end.

(** [router.post('/', ...)] of the posts *)
Definition post_root (userId : string) (b : NewPost.t)
    : Server -> Routes.Response * Server :=
  guarded
    (let errors := validate_post b in
     if negb (Nat.eqb (length errors) 0) then
       ret (Routes.mkResponse 400 (Routes.ErrorJson "Validation failed" errors))
     else
       let status := from_option (fun s => s) "draft" (NewPost.status b) in
       rejected <- Routes.validate_all (NewPost.content b) (NewPost.platforms b) ;;
       match rejected with
       | Some response => ret response
       | None =>
           d <- match NewPost.scheduledAt b with
                | Some (String _ _ as scheduledAt) => ret (parseDate scheduledAt)
                | _ => newDate
                end ;;
           let post :=
             Post.mk (Post._id blank) userId (NewPost.content b) [] []
               (Post.media blank) (NewPost.platforms b) d status
               (Post.retryCount blank) (Post.lastAttempt blank)
               (Post.results blank) in
           Post_insert post ;;
           ret (Routes.mkResponse 201
                  (Routes.PostJson "Post created successfully" post))
       end)
    "Create post error:"
    (Routes.mkResponse 500 (Routes.ErrorJson "Failed to create post" [])).

(** [router.get('/:id/analytics', ...)] *)
Definition get_analytics (req : Routes.Request)
    : Server -> Reply Analytics.t * Server :=
  guarded
    (found <- Routes.Post_findOne env (Routes.id req) (Routes.userId req) ;;
     match found with
     | None => ret (mkReply 404 (Failure "Post not found"))
     | Some post =>
         ret (mkReply 200
                (Data (Analytics.mk (Post._id post) (Post.status post)
                         (Post.platforms post) (Post.scheduledAt post)
                         (Post.results post) (Post.retryCount post)
                         (Post.lastAttempt post)
                         (length (Post.platforms post))
                         (length (filter (fun r => PlatformResult.success r = true)
                                         (Post.results post)))
                         (length (filter (fun r => negb (PlatformResult.success r) = true)
                                         (Post.results post))))))
     end)
    "Get analytics error:"
    (mkReply 500 (Failure "Failed to get post analytics")).

(** [await User.findById(id)] *)
Definition User_findById (id : string) : M (option User.t) :=
  t <- await_io env ;;
  match user_query_error id t with
  | Some e => throw e
  | None => fun w => (Returned (users w !! id), w)
  end.

(** [await user.save()] *)
Definition User_save (u : User.t) : M unit :=
  t <- await_io env ;;
  match user_save_error u t with
  | Some e => throw e
  | None =>
      fun w =>
        (Returned tt,
         mkWorld (now w) (posts w) (<[User._id u := u]> (users w)) (logs w)
                 (trace w))
  end.

(** [router.delete('/:platform', ...)] of the accounts *)
Definition delete_platform (userId platform : string)
    : Server -> Reply Disconnected.t * Server :=
  guarded
    (if negb (Routes.is_in ["twitter"; "linkedin"; "instagram"] platform) then
       ret (mkReply 400 (Failure "Invalid platform"))
     else
       found <- User_findById userId ;;
       match found with
       | None => ret (mkReply 404 (Failure "User not found"))
       | Some user =>
           match User.connectedAccounts user !! platform with
           | None =>
               ret (mkReply 404 (Failure (platform +:+ " account not connected")))
           | Some _ =>
               User_save (User.mk (User._id user)
                            (delete platform (User.connectedAccounts user))) ;;
               ret (mkReply 200
                      (Data (Disconnected.mk
                               (platform +:+ " account disconnected successfully")
                               platform)))
           end
       end)
    "Disconnect account error:"
    (mkReply 500 (Failure "Failed to disconnect account")).

(** [app.post('/api/scheduler/publish/:postId', ...)] *)
Definition publish_now (postId : string) : M (nat * ManualResult.t) :=
  try_catch
    (result <- Scheduler.schedulePost env postId ;;
     ret (200%nat, result))
    (fun error =>
       ret (500%nat, ManualResult.mk false None (Some (message error)))).

End Handlers.

End Api.

(** * The post editor of the client *)

Module PostEditor.

Section Form.

(** The white space and the line terminators that [trim] removes. *)
Variable isSpace : Ascii.ascii -> bool.

Fixpoint trimStart (s : string) : string :=
  match s with
  | String c s' => if isSpace c then trimStart s' else s
  | EmptyString => EmptyString
  end.

Fixpoint trimEnd (s : string) : string :=
  match s with
  | String c s' =>
      match trimEnd s' with
      | EmptyString => if isSpace c then EmptyString else String c EmptyString
      | t => String c t
      end
  | EmptyString => EmptyString
  end.

(** [s.trim()] *)
Definition trim (s : string) : string := trimEnd (trimStart s).

(** [validateContent()] of the editor, on [formData.content] and
    [formData.platforms]. *)
Definition validateContent (content : string) (platforms : list string)
    : list string :=
  (if negb (truthy_str (Some (trim content)))
   then ["Post content is required"] else []) ++
  (if Nat.eqb (length platforms) 0
   then ["Select at least one platform"] else []) ++
  flat_map
    (fun platform =>
       (if (platform =? "twitter") && (280 <? String.length content)%nat
        then ["Twitter posts must be 280 characters or less"] else []) ++
       (if (platform =? "linkedin") && (3000 <? String.length content)%nat
        then ["LinkedIn posts must be 3000 characters or less"] else []) ++
       (if (platform =? "instagram") && (2200 <? String.length content)%nat
        then ["Instagram posts must be 2200 characters or less"] else []))
    platforms.

End Form.

End PostEditor.

(** * Vocabulary of the properties *)

(** The document [p] with [rs] as its results. *)
Definition with_results (rs : list PlatformResult.t) (p : Post.t) : Post.t :=
  Post.mk (Post._id p) (Post.userId p) (Post.text p) (Post.hashtags p)
    (Post.mentions p) (Post.media p) (Post.platforms p) (Post.scheduledAt p)
    (Post.status p) (Post.retryCount p) (Post.lastAttempt p) rs.

Definition successes (l : list PlatformResult.t) : nat :=
  length (filter (fun r => PlatformResult.success r = true) l).

Definition failures (l : list PlatformResult.t) : nat :=
  length (filter (fun r => PlatformResult.success r = false) l).

(** The results that a dispatch of [p] added to reach [p']. *)
Definition appended (p p' : Post.t) : list PlatformResult.t :=
  drop (length (Post.results p)) (Post.results p').

(** Events of a platform attempt: no save of a post, no new dispatch. *)
Definition quiet (e : Event) : Prop :=
  match e with
  | PostSaved _ => False
  | Console (Publishing _ _) => False
  | _ => True
  end.

(** [w'] follows [w] by steps that leave the Post and User collections
    alone, let time pass and emit quiet events only. *)
Definition quietly (w w' : World) : Prop :=
  posts w' = posts w /\ users w' = users w /\ (now w <= now w')%Z /\
  exists evs, trace w' = trace w ++ evs /\ Forall quiet evs.

(** The content object that [publishToPlatform] hands to the publisher. *)
Definition content_of (p : Post.t) : SocialMedia.Content :=
  SocialMedia.mkContent (Some (Post.text p)) (Some (Post.hashtags p))
    (Some (Post.mentions p)) (Some (Post.media p)).

(** What the result [r] recorded for [platform] says.  It names the
    platform.  A success carries the remote id and no error, a failure
    an error and no remote id.  Without a connected account for the
    platform it is a failure whose error says so; with one, it is what
    the publisher, called at some instant, answered. *)
Definition recorded (env : Env) (content : SocialMedia.Content)
    (user : option User.t) (platform : string) (r : PlatformResult.t) : Prop :=
  PlatformResult.platform r = platform
  /\ (if PlatformResult.success r
      then is_Some (PlatformResult.postId r) /\ PlatformResult.error r = None
      else is_Some (PlatformResult.error r) /\ PlatformResult.postId r = None)
  /\ match user with
     | None => PlatformResult.success r = false
     | Some u =>
         match User.connectedAccounts u !! platform with
         | None =>
             PlatformResult.success r = false
             /\ PlatformResult.error r
                = Some (platform +:+ " account not connected for user")
         | Some accountInfo =>
             exists t,
               match publisher env platform accountInfo content t with
               | Returned res =>
                   PlatformResult.success r = true
                   /\ PlatformResult.postId r = Some (SocialMedia.postId res)
                   /\ PlatformResult.url r = Some (SocialMedia.url res)
               | Thrown e =>
                   PlatformResult.success r = false
                   /\ PlatformResult.error r = Some (message e)
               end
         end
     end.

(** The document that the status and retry policy produces from the
    document [p] after the loop, the count of successes and the instant
    [t] of the decision. *)
Definition final_post (p : Post.t) (successCount : nat) (t : Z) : Post.t :=
  if (0 <? successCount)%nat then Post.set_status "posted" p
  else
    let p := Post.set_retryCount (Post.retryCount p + 1) (Post.set_status "failed" p) in
    if (Post.retryCount p <? 3)%Z
    then Post.set_scheduledAt (t + 15 * 60 * 1000) (Post.set_status "scheduled" p)
    else p.

(** The document as first saved: [posting], attempted at [t]. *)
Definition posting (t : Z) (p : Post.t) : Post.t :=
  Post.set_lastAttempt t (Post.set_status "posting" p).

(** The dispatches among the events: the ids that [publishPost] was
    entered with, in order. *)
Definition dispatch_of (e : Event) : option string :=
  match e with
  | Console (Publishing id _) => Some id
  | _ => None
  end.

Definition dispatched (evs : list Event) : list string := omap dispatch_of evs.

(** The publisher calls among the events: platform and post id. *)
Definition publish_calls (evs : list Event) : list (string * string) :=
  omap (fun e => match e with
                 | PublishCall platform id => Some (platform, id)
                 | _ => None
                 end) evs.

(** [hay] contains [needle]. *)
Definition mentions (needle hay : string) : Prop :=
  exists pre suf, hay = pre +:+ needle +:+ suf.

(** What the post state machine can see of a world: the clock and the
    Post and User collections, not the attempt log nor the console. *)
Definition core (w : World) : Z * gmap string Post.t * gmap string User.t :=
  (now w, posts w, users w).

(** The same outside, with a store that accepts every [log.save()]. *)
Definition with_sound_logger (env : Env) : Env :=
  mkEnv (publisher env) (post_save_error env) (fun _ _ => None)
        (find_due env) (query_error env) (elapsed env).

(** Two computations agree when, from worlds with the same core, they
    complete alike and reach worlds with the same core. *)
Definition agree {A} (m1 m2 : M A) : Prop :=
  forall w1 w2, core w1 = core w2 ->
    fst (m1 w1) = fst (m2 w2) /\ core (snd (m1 w1)) = core (snd (m2 w2)).

(** [publishPost] cut after the first [k] iterations of its loop. *)
Definition dispatch_prefix (env : Env) (post : Post.t) (user : option User.t)
    (k : nat) : M Scheduler.Loop :=
  console_log (Publishing (Post._id post) (Post.platforms post)) ;;
  t <- newDate ;;
  let post := Post.set_lastAttempt t (Post.set_status "posting" post) in
  Post_save env post ;;
  forEach (Scheduler.attempt env user) (take k (Post.platforms post))
          (post, 0, 0)%nat.

(** Every document of the collection is stored under its own id. *)
Definition keyed_by_id (ps : gmap string Post.t) : Prop :=
  forall k p, ps !! k = Some p -> Post._id p = k.

(** The ids of the documents that the due-post query returned. *)
Definition returned_ids (l : list (Post.t * option User.t)) : list string :=
  map (fun d => Post._id (fst d)) l.

(** A response that reports an error. *)
Definition is_error (r : Routes.Response) : Prop :=
  (400 <= Routes.statusCode r)%nat
  /\ exists e details, Routes.json r = Routes.ErrorJson e details.

(** ** Vocabulary of the further properties *)

(** A call on the scheduler's control surface. *)
Inductive Command := Start | Stop.

Definition perform (s : Scheduler.Service) (c : Command) : Scheduler.Service :=
  match c with
  | Start => Scheduler.start s
  | Stop => Scheduler.stop s
  end.

(** The service after the calls [cs], made from left to right. *)
Definition perform_all (cs : list Command) (s : Scheduler.Service)
    : Scheduler.Service :=
  fold_left perform cs s.

(** The flag tells whether a task is held, and the held task is the
    only timer that fires. *)
Definition one_timer (s : Scheduler.Service) : Prop :=
  (Scheduler.isRunning s = true <-> is_Some (Scheduler.cronJob s))
  /\ Scheduler.live (Scheduler.cron s)
     = match Scheduler.cronJob s with
       | Some job => {[job]}
       | None => ∅
       end.

(** The owner has a connected account for the platform. *)
Definition connected (user : option User.t) (platform : string) : bool :=
  match user with
  | Some u =>
      match User.connectedAccounts u !! platform with
      | Some _ => true
      | None => false
      end
  | None => false
  end.

(** The publisher calls that a dispatch of the post [id] owes to the
    platforms [pls]: one for each platform with a connected account. *)
Definition owed_calls (user : option User.t) (id : string) (pls : list string)
    : list (string * string) :=
  map (fun platform => (platform, id))
      (filter (fun platform => connected user platform = true) pls).

(** The log document [l] is the record of the attempt that gave the
    result [r] for the post [id]. *)
Definition logged (id : string) (r : PlatformResult.t) (l : SchedulerLog.t)
    : Prop :=
  SchedulerLog.postId l = id
  /\ SchedulerLog.platform l = PlatformResult.platform r
  /\ SchedulerLog.status l
     = (if PlatformResult.success r then "success" else "failed")
  /\ (if PlatformResult.success r
      then (exists res, SchedulerLog.response l = Some (200%nat, res)
                        /\ PlatformResult.postId r = Some (SocialMedia.postId res))
           /\ SchedulerLog.error l = None
      else SchedulerLog.response l = None
           /\ (exists e, SchedulerLog.error l
                         = Some (message e, code_or_unknown (code e), e)
                         /\ PlatformResult.error r = Some (message e)))
  /\ SchedulerLog.scheduledTime l = SchedulerLog.executedTime l
  /\ (SchedulerLog.executedTime l <= PlatformResult.postedAt r)%Z.

(** One of the three platforms of the service. *)
Definition known_platform (platform : string) : bool :=
  (platform =? "twitter") || (platform =? "linkedin") || (platform =? "instagram").

(** The publisher of the outside is the repository's mock service,
    whatever the instant at which it stamps its answer. *)
Definition mock_publisher (env : Env) : Prop :=
  forall platform accountInfo content t,
    exists t', publisher env platform accountInfo content t
               = SocialMedia.publishPost platform accountInfo content t'.

(** [n] does not exceed the limit, if there is one. *)
Definition within (limit : option nat) (n : nat) : Prop :=
  match limit with
  | Some l => (n <= l)%nat
  | None => True
  end.

(** The content respects the three limits of the platform; an absent
    field counts as empty. *)
Definition within_limits (platform : string) (c : SocialMedia.Content) : Prop :=
  within (SocialMedia.textLimit (SocialMedia.getPlatformLimits platform))
         (from_option String.length 0%nat (SocialMedia.text c))
  /\ within (SocialMedia.hashtagLimit (SocialMedia.getPlatformLimits platform))
            (from_option length 0%nat (SocialMedia.hashtags c))
  /\ within (SocialMedia.mediaLimit (SocialMedia.getPlatformLimits platform))
            (from_option length 0%nat (SocialMedia.media c)).

(** Two validations say the same: both throw, or both return with the
    same verdict and as many errors. *)
Definition same_verdict (v1 v2 : Outcome SocialMedia.Validation) : Prop :=
  match v1, v2 with
  | Returned a, Returned b =>
      SocialMedia.isValid a = SocialMedia.isValid b
      /\ length (SocialMedia.errors a) = length (SocialMedia.errors b)
  | Thrown _, Thrown _ => True
  | _, _ => False
  end.

(** The text of the post is within the text limit of each of its
    target platforms. *)
Definition text_fits (p : Post.t) : Prop :=
  Forall (fun platform =>
            within (SocialMedia.textLimit (SocialMedia.getPlatformLimits platform))
                   (String.length (Post.text p)))
         (Post.platforms p).

(** The paths of a post that the post API never writes. *)
Definition scheduler_paths (p : Post.t) :=
  (Post._id p, Post.userId p, Post.hashtags p, Post.mentions p, Post.media p,
   Post.retryCount p, Post.lastAttempt p, Post.results p).

(** One request to a writing endpoint of the post API, sent by the user
    [uid], takes the stores from [w] to [w']. *)
Inductive api_write (env : Env) (isISO8601 : string -> bool)
    (parseDate : string -> Z) (duplicate_key : string -> Error) (uid : string)
    : World -> World -> Prop :=
| write_put req w o w' :
    Routes.userId req = uid ->
    Routes.put_id env isISO8601 parseDate req w = (o, w') ->
    api_write env isISO8601 parseDate duplicate_key uid w w'
| write_delete req w o w' :
    Routes.userId req = uid ->
    Routes.delete_id env req w = (o, w') ->
    api_write env isISO8601 parseDate duplicate_key uid w w'
| write_post blank b s r s' :
    Api.post_root env isISO8601 parseDate blank duplicate_key uid b s = (r, s') ->
    api_write env isISO8601 parseDate duplicate_key uid (Api.world s) (Api.world s').

(** A sequence of such requests, sent by the users [uids] in this
    order. *)
Inductive api_session (env : Env) (isISO8601 : string -> bool)
    (parseDate : string -> Z) (duplicate_key : string -> Error)
    : list string -> World -> World -> Prop :=
| session_nil w : api_session env isISO8601 parseDate duplicate_key [] w w
| session_cons uid uids w w1 w2 :
    api_write env isISO8601 parseDate duplicate_key uid w w1 ->
    api_session env isISO8601 parseDate duplicate_key uids w1 w2 ->
    api_session env isISO8601 parseDate duplicate_key (uid :: uids) w w2.

(** The statuses that a request to the post API may give a post. *)
Definition api_status (s : string) : Prop :=
  s = "draft" \/ s = "scheduled" \/ s = "published".

(** The paths of a new post that come from the schema, not from the
    request. *)
Definition schema_paths (p : Post.t) :=
  (Post._id p, Post.media p, Post.retryCount p, Post.lastAttempt p,
   Post.results p).

(** A post as the post API accepts it: some text, at least one
    platform, only platforms of the service, and the text within the
    limit of each of them. *)
Definition well_formed (p : Post.t) : Prop :=
  Post.text p <> ""
  /\ Post.platforms p <> []
  /\ Forall (fun platform => known_platform platform = true) (Post.platforms p)
  /\ text_fits p.

(** What identifies a post and what it says: the paths that no dispatch
    writes. *)
Definition identity (p : Post.t) :=
  (Post._id p, Post.userId p, Post.text p, Post.hashtags p, Post.mentions p,
   Post.media p, Post.platforms p).



(** Every user is stored under its own id. *)
Definition users_keyed_by_id (us : gmap string User.t) : Prop :=
  forall k u, us !! k = Some u -> User._id u = k.

(** ** Concrete inputs *)

Module Scenario.

(** A user with a Twitter account only. *)
Definition alice : User.t :=
  User.mk "u1" {[ "twitter" := SocialMedia.mkAccount "tok" "alice" ]}.

(** The repository's mock publisher (it waits a second), a store that
    accepts every write and answers the due-post query itself. *)
Definition env0 : Env :=
  mkEnv (fun platform accountInfo content t =>
           SocialMedia.publishPost platform accountInfo content (t + 1000))
        (fun _ _ => None) (fun _ _ => None) mongo_find_due (fun _ _ => None)
        (fun _ => 1000%N).

(** The same outside with a store that rejects every [log.save()]. *)
Definition env_no_log : Env :=
  mkEnv (publisher env0) (post_save_error env0)
        (fun _ _ => Some (mkError "logs unavailable" None))
        (find_due env0) (query_error env0) (elapsed env0).

Definition post_at (id : string) (platforms : list string) (status : string)
    (retryCount : Z) : Post.t :=
  Post.mk id "u1" "hello" [] [] [] platforms 0 status retryCount None [].

(** Twitter will succeed, LinkedIn has no account. *)
Definition two_platforms : Post.t :=
  post_at "p1" ["twitter"; "linkedin"] "scheduled" 0.

(** Only LinkedIn, two failed dispatches behind it. *)
Definition last_chance : Post.t :=
  post_at "p2" ["linkedin"] "scheduled" 2.

Definition no_platform : Post.t :=
  post_at "p3" [] "scheduled" 0.

Definition published : Post.t :=
  post_at "p4" ["twitter"] "posted" 0.

Definition world0 : World :=
  mkWorld 5000
    (<["p1" := two_platforms]> (<["p4" := published]> ∅))
    {[ "u1" := alice ]} [] [].

(** A store driver that answers the due-post query with the same
    document twice. *)
Definition env_twice : Env :=
  mkEnv (publisher env0) (post_save_error env0) (log_save_error env0)
        (fun _ _ _ => Returned [(two_platforms, Some alice);
                                (two_platforms, Some alice)])
        (query_error env0) (elapsed env0).

(** A user with an account on each platform, and a publisher that
    answers as in the two scenarios of the specification: Twitter
    publishes as "t1", LinkedIn is rate limited, Instagram refuses the
    token. *)
Definition carol : User.t :=
  User.mk "u1"
    (<["twitter" := SocialMedia.mkAccount "tok1" "carol"]>
       (<["linkedin" := SocialMedia.mkAccount "tok2" "carol"]>
          (<["instagram" := SocialMedia.mkAccount "tok3" "carol"]> ∅))).

Definition env_spec : Env :=
  mkEnv (fun platform _ _ _ =>
           if platform =? "twitter"
           then Returned (SocialMedia.mkPublishResult "t1" "https://t/1" "twitter")
           else if platform =? "linkedin"
           then Thrown (mkError "rate limited" (Some "429"))
           else Thrown (mkError "invalid token" None))
        (fun _ _ => None) (fun _ _ => None) mongo_find_due (fun _ _ => None)
        (fun _ => 1000%N).

Definition instagram_only : Post.t :=
  post_at "p5" ["instagram"] "scheduled" 0.

(** The document that a run returned ([p] itself had it thrown). *)
Definition returned_post (p : Post.t) (run : Outcome Post.t * World) : Post.t :=
  match fst run with
  | Returned p' => p'
  | Thrown _ => p
  end.

Definition edit_request : Routes.Request :=
  Routes.mkRequest "p4" "u1"
    (Routes.mkBody (Some "edited") None None (Some "draft")).

End Scenario.

(** ** Further concrete inputs *)

Module Cases.

(** A store that accepts the [posting] mark and rejects every other
    save of a post. *)
Definition env_final_save_fails : Env :=
  mkEnv (publisher Scenario.env0)
        (fun p _ => if Post.status p =? "posting" then None
                    else Some (mkError "write conflict" None))
        (log_save_error Scenario.env0) (find_due Scenario.env0)
        (query_error Scenario.env0) (elapsed Scenario.env0).

(** A store whose due-post query fails. *)
Definition env_query_fails : Env :=
  mkEnv (publisher Scenario.env0) (post_save_error Scenario.env0)
        (log_save_error Scenario.env0)
        (fun _ _ _ => Thrown (mkError "store unavailable" None))
        (query_error Scenario.env0) (elapsed Scenario.env0).

(** A draft of the owner "u1", and requests on it. *)
Definition draft : Post.t :=
  Scenario.post_at "p6" ["twitter"] "draft" 0.

Definition world_draft : World :=
  mkWorld 5000 (<["p6" := draft]> (<["p4" := Scenario.published]> ∅))
    {[ "u1" := Scenario.alice ]} [] [].

Definition schedule_request : Routes.Request :=
  Routes.mkRequest "p6" "u1"
    (Routes.mkBody (Some "launch day") None None (Some "scheduled")).

Definition stranger_request : Routes.Request :=
  Routes.mkRequest "p6" "u2"
    (Routes.mkBody (Some "hijacked") None None None).

(** The draft after [schedule_request]. *)
Definition scheduled_draft : Post.t :=
  Post.set_status "scheduled" (Post.set_text "launch day" draft).

(** A new document of the Post model, the driver's error for a taken
    id, and a request to create a post that is due at once. *)
Definition blank : Post.t :=
  Post.mk "p7" "" "" [] [] [] [] 0 "" 0 None [].

Definition duplicate_key (id : string) : Error :=
  mkError ("E11000 duplicate key error, _id: " +:+ id) (Some "11000").

Definition new_post : NewPost.t :=
  NewPost.mk "hello world" ["twitter"] None (Some "scheduled").

Definition server_draft : Api.Server := Api.mkServer world_draft [].

(** What [new_post] becomes, created by "u1" on [server_draft]. *)
Definition created : Post.t :=
  Post.mk "p7" "u1" "hello world" [] [] [] ["twitter"] 5000 "scheduled" 0
          None [].

(** The stores after the creation, and after the tick that follows. *)
Definition world_created : World :=
  Api.world (snd (Api.post_root Scenario.env0 (fun _ => true) (fun _ => 0%Z)
                    blank duplicate_key "u1" new_post server_draft)).

Definition world_ticked : World :=
  snd (Scheduler.processScheduledPosts Scenario.env0 world_created).

(** A User collection that answers and accepts the saves. *)
Definition users_answer : string -> Z -> option Error := fun _ _ => None.
Definition users_accept : User.t -> Z -> option Error := fun _ _ => None.


End Cases.

(** * Properties *)

(** ** Content validation *)

Lemma getPlatformLimits_unknown platform :
  platform <> "twitter" -> platform <> "linkedin" -> platform <> "instagram" ->
  SocialMedia.getPlatformLimits platform = SocialMedia.mkLimits None None None.
Proof.
  intros Ht Hl Hi. unfold SocialMedia.getPlatformLimits.
  apply String.eqb_neq in Ht, Hl, Hi. by rewrite Ht, Hl, Hi.
Qed.

(** C9: for a platform identifier other than twitter, linkedin and
    instagram, [validateContent] accepts any content, even a missing
    one: it returns [{ isValid: true, errors: [] }].  Both versions of
    the service agree on this. *)
Theorem validateContent_unknown_platform platform content :
  platform <> "twitter" -> platform <> "linkedin" -> platform <> "instagram" ->
  SocialMedia.validateContent platform content
  = Returned (SocialMedia.mkValidation true [])
  /\ SocialMediaOAuth.validateContent platform content
     = Returned (SocialMedia.mkValidation true []).
Proof.
  intros Ht Hl Hi. split.
  - unfold SocialMedia.validateContent.
    by rewrite getPlatformLimits_unknown.
  - unfold SocialMediaOAuth.validateContent, SocialMediaOAuth.getPlatformLimits.
    apply String.eqb_neq in Ht, Hl, Hi. by rewrite Ht, Hl, Hi.
Qed.

Lemma validateContent_unknown_platform_witness :
  SocialMedia.validateContent "facebook"
    (Some (SocialMedia.mkContent (Some "hello") (Some ["a"; "b"; "c"]) None
             (Some ["m1"; "m2"])))
  = Returned (SocialMedia.mkValidation true [])
  /\ SocialMediaOAuth.validateContent "facebook"
       (Some (SocialMedia.mkContent (Some "hello") (Some ["a"; "b"; "c"]) None
                (Some ["m1"; "m2"])))
     = Returned (SocialMedia.mkValidation true []).
Proof. apply validateContent_unknown_platform; discriminate. Defined.

(** A known platform does reject: three hashtags are one too many for
    Twitter. *)
Example validateContent_twitter_hashtags :
  SocialMedia.validateContent "twitter"
    (Some (SocialMedia.mkContent (Some "hello") (Some ["a"; "b"; "c"]) None None))
  = Returned (SocialMedia.mkValidation false
                ["Too many hashtags for twitter (max: 2)"]).
Proof. reflexivity. Qed.

(** ** Life cycle of the scheduling loop *)

Lemma start_while_running j c n :
  Scheduler.start (Scheduler.mkService true j c n)
  = Scheduler.mkService true j c (n ++ [Scheduler.AlreadyRunning]).
Proof. reflexivity. Qed.

(** C7: from every state of the service, a second [start] leaves the
    running flag, the held task and the live timers as the first one
    made them, and so does a second [stop]; [start] on a running
    service changes nothing but the console, where it reports that the
    scheduler is already running. *)
Theorem start_stop_idempotent (s : Scheduler.Service) :
  Scheduler.running_state (Scheduler.start (Scheduler.start s))
  = Scheduler.running_state (Scheduler.start s)
  /\ Scheduler.running_state (Scheduler.stop (Scheduler.stop s))
     = Scheduler.running_state (Scheduler.stop s)
  /\ Scheduler.getStatus (Scheduler.start (Scheduler.start s))
     = Scheduler.getStatus (Scheduler.start s)
  /\ Scheduler.getStatus (Scheduler.stop (Scheduler.stop s))
     = Scheduler.getStatus (Scheduler.stop s)
  /\ Scheduler.notices (Scheduler.start (Scheduler.start s))
     = Scheduler.notices (Scheduler.start s) ++ [Scheduler.AlreadyRunning]
  /\ Scheduler.start
       (Scheduler.mkService true (Scheduler.cronJob s) (Scheduler.cron s)
          (Scheduler.notices s))
     = Scheduler.mkService true (Scheduler.cronJob s) (Scheduler.cron s)
         (Scheduler.notices s ++ [Scheduler.AlreadyRunning]).
Proof.
  destruct s as [r j c n]. repeat split.
  - destruct r; reflexivity.
  - destruct j; reflexivity.
  - destruct r; reflexivity.
  - destruct j; reflexivity.
  - destruct r; reflexivity.
Qed.

(** ** The dispatcher: what one pass over the platforms does *)

Lemma quietly_refl w : quietly w w.
Proof.
  repeat split; [lia|]. exists []. by rewrite app_nil_r.
Qed.

Lemma quietly_trans w1 w2 w3 : quietly w1 w2 -> quietly w2 w3 -> quietly w1 w3.
Proof.
  intros (Hp & Hu & Hn & evs & Ht & Hq) (Hp' & Hu' & Hn' & evs' & Ht' & Hq').
  repeat split; [congruence | congruence | lia |].
  exists (evs ++ evs'). split.
  - by rewrite Ht', Ht, app_assoc.
  - by apply Forall_app.
Qed.

Lemma with_results_id p : with_results (Post.results p) p = p.
Proof. by destruct p. Qed.

Lemma push_result_with_results r rs p :
  Post.push_result r (with_results rs p) = with_results (rs ++ [r]) p.
Proof. reflexivity. Qed.

Section DispatchFacts.

Variable env : Env.

Lemma await_io_quietly w :
  quietly w (snd (await_io env w)) /\ fst (await_io env w) = Returned (now w).
Proof.
  split; [|reflexivity]. repeat split; simpl; [lia|].
  exists []. by rewrite app_nil_r.
Qed.

Lemma emit_quietly e w :
  quiet e -> emit e w = (Returned tt, snd (emit e w)) /\ quietly w (snd (emit e w)).
Proof.
  intros He. split; [reflexivity|]. repeat split; simpl; [lia|].
  exists [e]. split; [reflexivity|]. by constructor.
Qed.

(** The attempt logger never throws and touches neither collection of
    the post state machine. *)
Lemma logPublishAttempt_returns postId platform status response error w :
  exists w',
    Scheduler.logPublishAttempt env postId platform status response error w
    = (Returned tt, w') /\ quietly w w'.
Proof.
  unfold Scheduler.logPublishAttempt, try_catch, bind, newDate,
    SchedulerLog_save, bind, await_io, throw, console_log, emit. simpl.
  destruct (log_save_error env _ _) as [e|]; simpl; eexists; (split; [reflexivity|]).
  - repeat split; simpl; [lia|]. eexists [_]. split; [reflexivity|].
    by constructor.
  - repeat split; simpl; [lia|]. exists []. by rewrite app_nil_r.
Qed.

(** The publisher call, or the missing account, moves the world
    quietly whether it returns or throws. *)
Lemma publishToPlatform_quietly post user platform w :
  quietly w (snd (Scheduler.publishToPlatform env post user platform w)).
Proof.
  unfold Scheduler.publishToPlatform.
  destruct user as [u|]; [|apply quietly_refl].
  destruct (User.connectedAccounts u !! platform) as [a|]; [|apply quietly_refl].
  unfold call_publisher, bind, emit, await_io, ret, throw. simpl.
  destruct (publisher env _ _ _ _); simpl;
    (repeat split; simpl; [lia|]; eexists [_]; split; [reflexivity|];
     by constructor).
Qed.

(** What [publishToPlatform] does in each of its three cases. *)
Lemma publishToPlatform_cases post user platform w :
  Scheduler.publishToPlatform env post user platform w =
  match user with
  | None =>
      (Thrown (mkError
         "Cannot read properties of null (reading 'connectedAccounts')" None), w)
  | Some u =>
      match User.connectedAccounts u !! platform with
      | None =>
          (Thrown (mkError (platform +:+ " account not connected for user") None), w)
      | Some accountInfo =>
          (publisher env platform accountInfo (content_of post) (now w),
           mkWorld (now w + Z.of_N (elapsed env (now w))) (posts w) (users w)
                   (logs w) (trace w ++ [PublishCall platform (Post._id post)]))
      end
  end.
Proof.
  unfold Scheduler.publishToPlatform.
  destruct user as [u|]; [|reflexivity].
  destruct (User.connectedAccounts u !! platform) as [a|]; [|reflexivity].
  unfold call_publisher, bind, emit, await_io, ret, throw. simpl.
  fold (content_of post). by destruct (publisher env _ _ _ _).
Qed.

(** One iteration always completes; it appends one result, for the
    platform at hand, and counts it on the side of its [success]
    flag. *)
Lemma attempt_spec user post sc fc platform w :
  exists r w',
    Scheduler.attempt env user (post, sc, fc) platform w
    = (Returned (Post.push_result r post,
                 if PlatformResult.success r then S sc else sc,
                 if PlatformResult.success r then fc else S fc), w')
    /\ recorded env (content_of post) user platform r
    /\ quietly w w'.
Proof.
  unfold Scheduler.attempt, try_catch, bind at 1.
  pose proof (publishToPlatform_quietly post user platform w) as Hq.
  pose proof (publishToPlatform_cases post user platform w) as Hcases.
  destruct (Scheduler.publishToPlatform env post user platform w)
    as [[result|error] w1] eqn:Hpub; simpl in Hq.
  - unfold bind at 1.
    destruct (logPublishAttempt_returns (Post._id post) platform "success"
                (Some result) None w1) as (w2 & -> & Hq2).
    unfold bind, newDate, console_log, emit, ret. simpl.
    eexists (PlatformResult.mk _ _ _ true _ _), _.
    split; [reflexivity|]. split.
    + split; [reflexivity|]. split; [by split|]. simpl.
      destruct user as [u|]; [|discriminate].
      destruct (User.connectedAccounts u !! platform) as [a|]; [|discriminate].
      exists (now w). injection Hcases as <- _. by repeat split.
    + eapply quietly_trans; [exact Hq|]. eapply quietly_trans; [exact Hq2|].
      repeat split; simpl; [lia|]. eexists [_]. split; [reflexivity|].
      by constructor.
  - unfold bind at 1, console_log, emit. simpl. unfold bind at 1.
    match goal with
    | |- context [Scheduler.logPublishAttempt env ?a ?b ?c ?d ?e ?w] =>
        destruct (logPublishAttempt_returns a b c d e w) as (w2 & -> & Hq2)
    end.
    unfold bind, newDate, ret. simpl.
    eexists (PlatformResult.mk _ _ _ false _ _), _.
    split; [reflexivity|]. split.
    + split; [reflexivity|]. split; [by split|]. simpl.
      destruct user as [u|]; [|reflexivity].
      destruct (User.connectedAccounts u !! platform) as [a|].
      * exists (now w). injection Hcases as <- _. by split.
      * injection Hcases as -> _. by split.
    + eapply quietly_trans; [exact Hq|]. eapply quietly_trans; [|exact Hq2].
      repeat split; simpl; [lia|]. eexists [_]. split; [reflexivity|].
      by constructor.
Qed.

End DispatchFacts.

Lemma successes_app l1 l2 : successes (l1 ++ l2) = (successes l1 + successes l2)%nat.
Proof. unfold successes. by rewrite filter_app, length_app. Qed.

Lemma failures_app l1 l2 : failures (l1 ++ l2) = (failures l1 + failures l2)%nat.
Proof. unfold failures. by rewrite filter_app, length_app. Qed.

Lemma successes_cons r l :
  successes (r :: l)
  = ((if PlatformResult.success r then 1 else 0) + successes l)%nat.
Proof.
  unfold successes. destruct (PlatformResult.success r) eqn:E.
  - by rewrite filter_cons_True.
  - rewrite filter_cons_False; [reflexivity|]. by rewrite E.
Qed.

Lemma failures_cons r l :
  failures (r :: l)
  = ((if PlatformResult.success r then 0 else 1) + failures l)%nat.
Proof.
  unfold failures. destruct (PlatformResult.success r) eqn:E.
  - rewrite filter_cons_False; [reflexivity|]. by rewrite E.
  - by rewrite filter_cons_True.
Qed.

Lemma successes_failures l : (successes l + failures l)%nat = length l.
Proof.
  induction l as [|r l IH]; [reflexivity|].
  rewrite successes_cons, failures_cons. simpl length.
  destruct (PlatformResult.success r); lia.
Qed.

Section DispatchLoop.

Variable env : Env.

(** The loop over the platforms always completes.  It appends one
    result per platform, in order, counts successes and failures among
    them, and moves the world quietly. *)
Lemma attempts_spec user pls :
  forall post sc fc w,
  exists new w',
    forEach (Scheduler.attempt env user) pls (post, sc, fc) w
    = (Returned (with_results (Post.results post ++ new) post,
                 (sc + successes new)%nat, (fc + failures new)%nat), w')
    /\ Forall2 (recorded env (content_of post) user) pls new
    /\ quietly w w'.
Proof.
  induction pls as [|pf pls IH]; intros post sc fc w.
  - exists [], w. simpl. unfold ret.
    rewrite app_nil_r, with_results_id, !Nat.add_0_r.
    split; [reflexivity|]. split; [constructor|apply quietly_refl].
  - cbn [forEach]. unfold bind at 1.
    destruct (attempt_spec env user post sc fc pf w) as (r & w1 & -> & Hpf & Hq1).
    destruct (IH (Post.push_result r post)
                (if PlatformResult.success r then S sc else sc)
                (if PlatformResult.success r then fc else S fc) w1)
      as (new & w2 & -> & Hpls & Hq2).
    exists (r :: new), w2. split; [|split].
    + do 2 f_equal. f_equal; [f_equal|].
      * simpl. unfold with_results. simpl. by rewrite <- app_assoc.
      * rewrite successes_cons. destruct (PlatformResult.success r); lia.
      * rewrite failures_cons. destruct (PlatformResult.success r); lia.
    + by constructor.
    + eapply quietly_trans; eassumption.
Qed.

(** The policy after the loop is [final_post] at the current instant;
    it only writes to the console. *)
Lemma settle_spec post sc fc w :
  exists w',
    Scheduler.settle (post, sc, fc) w = (Returned (final_post post sc (now w)), w')
    /\ quietly w w' /\ now w' = now w.
Proof.
  unfold Scheduler.settle, final_post.
  destruct sc as [|sc]; simpl.
  - destruct (Post.retryCount post + 1 <? 3)%Z eqn:E.
    + unfold bind, newDate, console_log, emit, ret. simpl.
      eexists. split; [reflexivity|]. split; [|reflexivity].
      repeat split; simpl; [lia|]. eexists [_]. split; [reflexivity|].
      by constructor.
    + exists w. split; [reflexivity|]. split; [apply quietly_refl|reflexivity].
  - destruct fc; simpl; exists w;
      (split; [reflexivity|]; split; [apply quietly_refl|reflexivity]).
Qed.

End DispatchLoop.

Section DispatchRun.

Variable env : Env.

(** [post.save()] asks the store at the instant of the call; time
    passes; an accepted document replaces the stored one. *)
Lemma Post_save_spec p w :
  Post_save env p w =
  match post_save_error env p (now w) with
  | Some e =>
      (Thrown e,
       mkWorld (now w + Z.of_N (elapsed env (now w))) (posts w) (users w)
               (logs w) (trace w))
  | None =>
      (Returned tt,
       mkWorld (now w + Z.of_N (elapsed env (now w)))
               (<[Post._id p := p]> (posts w)) (users w) (logs w)
               (trace w ++ [PostSaved p]))
  end.
Proof.
  unfold Post_save, bind, await_io, throw. simpl.
  by destruct (post_save_error env p (now w)).
Qed.

(** The shape of every dispatch.  Either the first save is rejected
    and nothing else happens, or the loop runs to its end from the
    world [w1] that holds the [posting] document, the policy yields
    [final_post], and the dispatch ends with the save of that
    document from a world [w2] reached quietly. *)
Lemma publishPost_run post user w :
  let p1 := posting (now w) post in
  let w0 := mkWorld (now w) (posts w) (users w) (logs w)
              (trace w ++ [Console (Publishing (Post._id post) (Post.platforms post))]) in
  match post_save_error env p1 (now w) with
  | Some e => Scheduler.publishPost env post user w = (Thrown e, snd (Post_save env p1 w0))
  | None =>
      exists new w2,
        Forall2 (recorded env (content_of post) user) (Post.platforms post) new
        /\ quietly (snd (Post_save env p1 w0)) w2
        /\ Scheduler.publishPost env post user w
           = bind (Post_save env
                     (final_post (with_results (Post.results post ++ new) p1)
                                 (successes new) (now w2)))
                  (fun _ => ret (final_post (with_results (Post.results post ++ new) p1)
                                            (successes new) (now w2))) w2
  end.
Proof.
  intros p1 w0.
  unfold Scheduler.publishPost, bind, console_log, emit, newDate.
  cbn beta iota. cbn [now]. fold w0. fold (posting (now w) post). fold p1.
  rewrite (Post_save_spec p1 w0). cbn [now w0].
  destruct (post_save_error env p1 (now w)) as [e|] eqn:E; [reflexivity|].
  match goal with
  | |- context [forEach _ _ _ ?w1] =>
      destruct (attempts_spec env user (Post.platforms p1) p1 0%nat 0%nat w1)
        as (new & w2 & Hloop & Hpls & Hq)
  end.
  rewrite Hloop. cbn [Nat.add].
  destruct (settle_spec (with_results (Post.results p1 ++ new) p1)
              (successes new) (failures new) w2) as (w3 & -> & Hq3 & Hnow).
  exists new, w3. split; [exact Hpls|]. split.
  - eapply quietly_trans; eassumption.
  - by rewrite Hnow.
Qed.

End DispatchRun.

Lemma final_post_id p sc t : Post._id (final_post p sc t) = Post._id p.
Proof.
  unfold final_post. destruct (0 <? sc)%nat; [reflexivity|]. simpl.
  by destruct (Post.retryCount p + 1 <? 3)%Z.
Qed.

Lemma final_post_results p sc t : Post.results (final_post p sc t) = Post.results p.
Proof.
  unfold final_post. destruct (0 <? sc)%nat; [reflexivity|]. simpl.
  by destruct (Post.retryCount p + 1 <? 3)%Z.
Qed.

Lemma dispatched_quiet evs : Forall quiet evs -> dispatched evs = [].
Proof.
  induction 1 as [|e evs He _ IH]; [reflexivity|].
  change (dispatched (e :: evs))
    with (match dispatch_of e with
          | Some id => id :: dispatched evs
          | None => dispatched evs
          end).
  rewrite IH. destruct e as [[]| |]; simpl in *; try reflexivity; contradiction.
Qed.

Lemma dispatched_app l1 l2 : dispatched (l1 ++ l2) = dispatched l1 ++ dispatched l2.
Proof. apply omap_app. Qed.

Section DispatchOutcome.

Variable env : Env.

(** A dispatch that returns: both saves were accepted; the document
    returned is [final_post] of the [posting] document extended with
    one result per platform, decided at an instant [t] not before the
    dispatch began; the store holds it; the events are the dispatch
    line, the first save, quiet events, the last save. *)
Lemma publishPost_returned post user w post' w' :
  Scheduler.publishPost env post user w = (Returned post', w') ->
  exists new t evs,
    Forall2 (recorded env (content_of post) user) (Post.platforms post) new
    /\ post' = final_post (with_results (Post.results post ++ new)
                             (posting (now w) post)) (successes new) t
    /\ (now w <= t)%Z
    /\ now w' = (t + Z.of_N (elapsed env t))%Z
    /\ posts w' = <[Post._id post := post']>
                    (<[Post._id post := posting (now w) post]> (posts w))
    /\ users w' = users w
    /\ trace w' = trace w
                  ++ [Console (Publishing (Post._id post) (Post.platforms post));
                      PostSaved (posting (now w) post)]
                  ++ evs ++ [PostSaved post']
    /\ Forall quiet evs
    /\ post_save_error env (posting (now w) post) (now w) = None
    /\ post_save_error env post' t = None.
Proof.
  intros Hrun. pose proof (publishPost_run env post user w) as H.
  cbv zeta in H.
  destruct (post_save_error env (posting (now w) post) (now w)) as [e|] eqn:E1.
  { rewrite H in Hrun. discriminate. }
  destruct H as (new & w2 & Hpls & Hq & Heq).
  rewrite Heq in Hrun. unfold bind in Hrun. rewrite Post_save_spec in Hrun.
  set (p2 := final_post _ _ _) in *.
  destruct (post_save_error env p2 (now w2)) as [e|] eqn:E2; [discriminate|].
  unfold ret in Hrun. injection Hrun as <- <-.
  rewrite Post_save_spec in Hq. cbn [now] in Hq. rewrite E1 in Hq.
  unfold quietly in Hq. cbn [snd now posts users logs trace] in Hq.
  destruct Hq as (Hp & Hu & Hn & evs & Ht & Hqs).
  exists new, (now w2), evs. simpl.
  assert (Hid : Post._id p2 = Post._id post) by (unfold p2; by rewrite final_post_id).
  repeat split; try done.
  - lia.
  - by rewrite Hid, Hp.
  - rewrite Ht. by rewrite <- !app_assoc.
Qed.

(** A dispatch throws only what a rejected [post.save()] threw. *)
Lemma publishPost_thrown post user w e w' :
  Scheduler.publishPost env post user w = (Thrown e, w') ->
  exists p t, post_save_error env p t = Some e.
Proof.
  intros Hrun. pose proof (publishPost_run env post user w) as H.
  cbv zeta in H.
  destruct (post_save_error env (posting (now w) post) (now w)) as [e1|] eqn:E1.
  { rewrite H in Hrun. rewrite Post_save_spec in Hrun. simpl in Hrun.
    rewrite E1 in Hrun. injection Hrun as <- _. eauto. }
  destruct H as (new & w2 & Hpls & Hq & Heq).
  rewrite Heq in Hrun. unfold bind in Hrun. rewrite Post_save_spec in Hrun.
  set (p2 := final_post _ _ _) in *.
  destruct (post_save_error env p2 (now w2)) as [e2|] eqn:E2; [|discriminate].
  injection Hrun as <- _. eauto.
Qed.

(** With a store that accepts every save, the dispatch returns. *)
Lemma publishPost_total post user w :
  (forall p t, post_save_error env p t = None) ->
  exists post' w', Scheduler.publishPost env post user w = (Returned post', w').
Proof.
  intros Hup.
  destruct (Scheduler.publishPost env post user w) as [[post'|e] w'] eqn:E.
  - eauto.
  - apply publishPost_thrown in E as (p & t & Hpt). by rewrite Hup in Hpt.
Qed.

(** Whatever its outcome, a dispatch of [post] shows as exactly one
    dispatch, of the id of [post], among the events it adds. *)
Lemma publishPost_dispatched post user w r w' :
  Scheduler.publishPost env post user w = (r, w') ->
  exists evs, trace w' = trace w ++ evs /\ dispatched evs = [Post._id post].
Proof.
  intros Hrun. pose proof (publishPost_run env post user w) as H.
  cbv zeta in H.
  destruct (post_save_error env (posting (now w) post) (now w)) as [e1|] eqn:E1.
  { rewrite H in Hrun. rewrite Post_save_spec in Hrun. simpl in Hrun.
    rewrite E1 in Hrun. injection Hrun as _ <-. simpl. eauto. }
  destruct H as (new & w2 & Hpls & Hq & Heq).
  rewrite Post_save_spec in Hq. cbn [now] in Hq. rewrite E1 in Hq.
  unfold quietly in Hq. cbn [snd now posts users logs trace] in Hq.
  destruct Hq as (Hp & Hu & Hn & evs & Ht & Hqs).
  rewrite Heq in Hrun. unfold bind in Hrun. rewrite Post_save_spec in Hrun.
  set (p2 := final_post _ _ _) in *.
  destruct (post_save_error env p2 (now w2)) as [e2|] eqn:E2;
    injection Hrun as _ <-; simpl; rewrite Ht, <- !app_assoc;
    eexists; (split; [reflexivity|]);
    rewrite !dispatched_app, (dispatched_quiet evs Hqs); reflexivity.
Qed.

End DispatchOutcome.

Lemma recorded_platforms env content user pls new :
  Forall2 (recorded env content user) pls new ->
  map PlatformResult.platform new = pls.
Proof.
  induction 1 as [|pf r pls new (Hpf & _) _ IH]; [reflexivity|].
  simpl. by rewrite Hpf, IH.
Qed.

Lemma appended_final p new p1 sc t :
  appended p (final_post (with_results (Post.results p ++ new) p1) sc t) = new.
Proof.
  unfold appended. rewrite final_post_results. simpl.
  by rewrite drop_app_length.
Qed.

(** ** The status and retry policy of a dispatch *)

(** C1: a dispatch that returns and recorded at least one success ends
    with the status [posted] and the retry count it started with; the
    results it appended are one per target platform, in order, whatever
    their success; and the store holds that final document. *)
Theorem partial_success_is_posted env post user w post' w' :
  Scheduler.publishPost env post user w = (Returned post', w') ->
  (0 < successes (appended post post'))%nat ->
  Post.status post' = "posted"
  /\ Post.retryCount post' = Post.retryCount post
  /\ Post.results post' = Post.results post ++ appended post post'
  /\ map PlatformResult.platform (appended post post') = Post.platforms post
  /\ length (appended post post') = length (Post.platforms post)
  /\ posts w' !! Post._id post = Some post'.
Proof.
  intros Hrun Hsucc.
  destruct (publishPost_returned env post user w post' w' Hrun)
    as (new & t & evs & Hrec & -> & Ht & Hnow & Hposts & _).
  rewrite appended_final in *. rewrite final_post_results. simpl.
  split; [|split; [|repeat split]].
  - unfold final_post. by apply Nat.ltb_lt in Hsucc as ->.
  - unfold final_post. by apply Nat.ltb_lt in Hsucc as ->.
  - apply (recorded_platforms _ _ _ _ _ Hrec).
  - by rewrite <- (recorded_platforms _ _ _ _ _ Hrec), length_map.
  - rewrite Hposts. apply lookup_insert_eq.
Qed.

Lemma due_retry_exhausted d p : (3 <= Post.retryCount p)%Z -> due d p = false.
Proof.
  intros H. unfold due. apply andb_false_iff. right. by apply Z.ltb_ge.
Qed.

Lemma apply_updates_retryCount u p :
  Post.retryCount (Routes.apply_updates u p) = Post.retryCount p.
Proof.
  unfold Routes.apply_updates.
  by destruct (Routes.u_text u), (Routes.u_platforms u),
    (Routes.u_scheduledAt u), (Routes.u_status u).
Qed.

Lemma edits_retryCount us p :
  Post.retryCount (foldr Routes.apply_updates p us) = Post.retryCount p.
Proof.
  induction us as [|u us IH]; [reflexivity|].
  simpl. by rewrite apply_updates_retryCount.
Qed.

(** The store's query answers with due posts only. *)
Lemma mongo_find_due_sound ps us d l q o :
  mongo_find_due ps us d = Returned l -> (q, o) ∈ l -> due d q = true.
Proof.
  unfold mongo_find_due. intros [= <-] Hin.
  apply list_elem_of_fmap in Hin as (p & [= -> ->] & Hp).
  by apply list_elem_of_filter in Hp as [Hd _].
Qed.

(** C2: a dispatch that returns without a single success adds one to
    the retry count.  If the new count is below 3 the post is
    [scheduled] again, 15 minutes after the instant [t] at which the
    dispatch took this decision ([t] is not before the start of the
    dispatch, and the last save is issued at [t]).  Otherwise the post
    is [failed], and the due-post query selects it at no instant, from
    no store, not even after any sequence of edits through the API. *)
Theorem all_failed_retry_or_fail env post user w post' w' :
  Scheduler.publishPost env post user w = (Returned post', w') ->
  successes (appended post post') = 0%nat ->
  Post.retryCount post' = (Post.retryCount post + 1)%Z
  /\ posts w' !! Post._id post = Some post'
  /\ if (Post.retryCount post' <? 3)%Z
     then Post.status post' = "scheduled"
          /\ exists t,
               Post.scheduledAt post' = (t + 15 * 60 * 1000)%Z
               /\ (now w <= t)%Z
               /\ now w' = (t + Z.of_N (elapsed env t))%Z
               /\ Post.lastAttempt post' = Some (now w)
     else Post.status post' = "failed"
          /\ (forall d, due d post' = false)
          /\ (forall d edits, due d (foldr Routes.apply_updates post' edits) = false)
          /\ (forall ps us d l o,
                mongo_find_due ps us d = Returned l -> (post', o) ∉ l).
Proof.
  intros Hrun Hnone.
  destruct (publishPost_returned env post user w post' w' Hrun)
    as (new & t & evs & Hrec & -> & Ht & Hnow & Hposts & _).
  rewrite appended_final in Hnone.
  split; [|split].
  - unfold final_post. rewrite Hnone. simpl.
    by destruct (Post.retryCount post + 1 <? 3)%Z.
  - rewrite Hposts. apply lookup_insert_eq.
  - unfold final_post. rewrite Hnone. simpl.
    destruct (Post.retryCount post + 1 <? 3)%Z eqn:E; simpl; rewrite E.
    + split; [reflexivity|]. exists t. by repeat split.
    + apply Z.ltb_ge in E. split; [reflexivity|].
      assert (Hdue : forall d q, Post.retryCount q = (Post.retryCount post + 1)%Z ->
                                 due d q = false).
      { intros d q Hq. apply due_retry_exhausted. lia. }
      split; [|split].
      * intros d. by apply Hdue.
      * intros d edits. apply Hdue. by rewrite edits_retryCount.
      * intros ps us d l o Hl Hin.
        apply (mongo_find_due_sound _ _ _ _ _ _ Hl) in Hin.
        by rewrite Hdue in Hin.
Qed.

(** C10: dispatched with an empty platform list, [publishPost] calls no
    publisher, writes no attempt log and appends no result, and still
    takes the zero-success branch: the retry count grows by one and the
    post is rescheduled 15 minutes after the decision (taken when the
    first save has completed), or marked [failed] once the count
    reaches 3. *)
Theorem empty_platforms_count_as_failure env post user w post' w' :
  Post.platforms post = [] ->
  Scheduler.publishPost env post user w = (Returned post', w') ->
  Post.results post' = Post.results post
  /\ logs w' = logs w
  /\ (exists evs, trace w' = trace w ++ evs
                  /\ forall pf id, PublishCall pf id ∉ evs)
  /\ Post.retryCount post' = (Post.retryCount post + 1)%Z
  /\ posts w' !! Post._id post = Some post'
  /\ if (Post.retryCount post + 1 <? 3)%Z
     then Post.status post' = "scheduled"
          /\ Post.scheduledAt post'
             = (now w + Z.of_N (elapsed env (now w)) + 15 * 60 * 1000)%Z
     else Post.status post' = "failed".
Proof.
  intros Hpl.
  unfold Scheduler.publishPost, bind, console_log, emit, newDate.
  cbn beta iota. cbn [now]. rewrite !Post_save_spec. cbn [now Post.platforms
    Post.set_lastAttempt Post.set_status]. rewrite Hpl. cbn [forEach].
  destruct (post_save_error env _ (now w)) as [e|]; [discriminate|].
  unfold ret at 1. cbn beta iota.
  unfold Scheduler.settle. cbn [Nat.ltb Nat.leb Nat.eqb andb].
  cbn [Post.set_status Post.set_retryCount Post.set_lastAttempt Post.retryCount
       now posts users logs trace].
  destruct (Post.retryCount post + 1 <? 3)%Z eqn:E.
  - unfold bind, newDate, console_log, emit, ret. cbn beta iota.
    rewrite Post_save_spec. cbn [now].
    destruct (post_save_error env _ _) as [e|]; [discriminate|].
    intros [= <- <-]. cbn. repeat split.
    + eexists. split; [by rewrite <- !app_assoc|].
      intros pf id Hin.
      repeat (apply elem_of_cons in Hin as [Hin|Hin]; [discriminate|]).
      by apply elem_of_nil in Hin.
    + apply lookup_insert_eq.
  - unfold ret at 1. rewrite Post_save_spec. cbn [now].
    destruct (post_save_error env _ _) as [e|]; [discriminate|].
    unfold ret. intros [= <- <-]. cbn. repeat split.
    + eexists. split; [by rewrite <- !app_assoc|].
      intros pf id Hin.
      repeat (apply elem_of_cons in Hin as [Hin|Hin]; [discriminate|]).
      by apply elem_of_nil in Hin.
    + apply lookup_insert_eq.
Qed.

(** ** Missing accounts *)

Lemma not_connected_mentions platform :
  mentions "account not connected" (platform +:+ " account not connected for user").
Proof.
  exists (platform +:+ " "), " for user".
  induction platform as [|c s IH]; [reflexivity|].
  change (String c (s +:+ " account not connected for user")
          = String c ((s +:+ " ") +:+ "account not connected" +:+ " for user")).
  by rewrite <- IH.
Qed.

(** C4: when the owner [u] of the post has no connected account for a
    target platform, the iteration for that platform completes without
    calling the publisher and appends a failure whose error is
    "<platform> account not connected for user"; the loop goes on.  A
    dispatch that returns has appended one result per target platform,
    in order: that failure at the place of each platform without an
    account, and for every platform with an account what the publisher
    answered.  A dispatch throws only an error thrown by a rejected
    [post.save()]. *)
Theorem missing_account_is_recorded env post u w :
  (forall platform sc fc w0,
     User.connectedAccounts u !! platform = None ->
     exists r w1,
       Scheduler.attempt env (Some u) (post, sc, fc) platform w0
       = (Returned (Post.push_result r post, sc, S fc), w1)
       /\ PlatformResult.platform r = platform
       /\ PlatformResult.success r = false
       /\ PlatformResult.error r
          = Some (platform +:+ " account not connected for user")
       /\ (exists evs, trace w1 = trace w0 ++ evs
                       /\ forall pf id, PublishCall pf id ∉ evs)
       /\ posts w1 = posts w0)
  /\ (forall post' w',
        Scheduler.publishPost env post (Some u) w = (Returned post', w') ->
        Post.results post' = Post.results post ++ appended post post'
        /\ Forall2 (recorded env (content_of post) (Some u))
                   (Post.platforms post) (appended post post')
        /\ forall i platform,
             Post.platforms post !! i = Some platform ->
             User.connectedAccounts u !! platform = None ->
             exists r,
               appended post post' !! i = Some r
               /\ PlatformResult.platform r = platform
               /\ PlatformResult.success r = false
               /\ PlatformResult.error r
                  = Some (platform +:+ " account not connected for user")
               /\ mentions "account not connected"
                    (default "" (PlatformResult.error r)))
  /\ (forall e w',
        Scheduler.publishPost env post (Some u) w = (Thrown e, w') ->
        exists p t, post_save_error env p t = Some e).
Proof.
  split; [|split].
  - intros platform sc fc w0 Hnone.
    unfold Scheduler.attempt, try_catch, bind at 1.
    rewrite publishToPlatform_cases, Hnone.
    unfold bind at 1, console_log, emit. cbn beta iota. unfold bind at 1.
    match goal with
    | |- context [Scheduler.logPublishAttempt env ?a ?b ?c ?d ?e ?w] =>
        pose proof (logPublishAttempt_returns env a b c d e w) as (w2 & Hlog & Hq)
    end.
    rewrite Hlog. unfold bind, newDate, ret. cbn beta iota.
    eexists (PlatformResult.mk _ _ _ false _ _), _.
    split; [reflexivity|]. repeat split.
    + revert Hlog. unfold Scheduler.logPublishAttempt, try_catch, bind, newDate,
        SchedulerLog_save, bind, await_io, throw, console_log, emit.
      cbn beta iota.
      destruct (log_save_error env _ _); intros [= <-]; cbn;
        rewrite <- ?app_assoc; (eexists; split; [reflexivity|]);
        intros pf id Hin;
        repeat (apply elem_of_cons in Hin as [Hin|Hin]; [discriminate|]);
        by apply elem_of_nil in Hin.
    + by destruct Hq as (-> & _).
  - intros post' w' Hrun.
    destruct (publishPost_returned env post (Some u) w post' w' Hrun)
      as (new & t & evs & Hrec & -> & _).
    rewrite appended_final, final_post_results. simpl.
    split; [reflexivity|]. split; [exact Hrec|].
    intros i platform Hi Hnone.
    destruct (Forall2_lookup_l _ _ _ _ _ Hrec Hi) as (r & Hr & Hpf & _ & Hacc).
    rewrite Hnone in Hacc. destruct Hacc as [Hs He].
    exists r. repeat split; try done.
    rewrite He. apply not_connected_mentions.
  - intros e w'. apply publishPost_thrown.
Qed.

(** ** The attempt logger is best effort *)

Lemma agree_ret {A} (a : A) : agree (ret a) (ret a).
Proof. by intros w1 w2 Hc. Qed.

Lemma agree_throw {A} e : agree (@throw A e) (throw e).
Proof. by intros w1 w2 Hc. Qed.

Lemma agree_bind {A B} (m1 m2 : M A) (k1 k2 : A -> M B) :
  agree m1 m2 -> (forall a, agree (k1 a) (k2 a)) ->
  agree (bind m1 k1) (bind m2 k2).
Proof.
  intros Hm Hk w1 w2 Hc. unfold bind.
  destruct (Hm w1 w2 Hc) as [Hf Hcore].
  destruct (m1 w1) as [[a|e] w1'], (m2 w2) as [[a'|e'] w2'];
    simpl in *; try discriminate.
  - injection Hf as ->. by apply Hk.
  - by injection Hf as ->.
Qed.

Lemma agree_try_catch {A} (m1 m2 : M A) (h1 h2 : Error -> M A) :
  agree m1 m2 -> (forall e, agree (h1 e) (h2 e)) ->
  agree (try_catch m1 h1) (try_catch m2 h2).
Proof.
  intros Hm Hh w1 w2 Hc. unfold try_catch.
  destruct (Hm w1 w2 Hc) as [Hf Hcore].
  destruct (m1 w1) as [[a|e] w1'], (m2 w2) as [[a'|e'] w2'];
    simpl in *; try discriminate.
  - by injection Hf as ->.
  - injection Hf as ->. by apply Hh.
Qed.

Lemma agree_forEach {A S} (f1 f2 : S -> A -> M S) l :
  (forall s x, agree (f1 s x) (f2 s x)) ->
  forall s, agree (forEach f1 l s) (forEach f2 l s).
Proof.
  intros Hf. induction l as [|x l IH]; intros s; simpl.
  - apply agree_ret.
  - apply agree_bind; [apply Hf|apply IH].
Qed.

Lemma agree_emit e1 e2 : agree (emit e1) (emit e2).
Proof.
  intros w1 w2 Hc. split; [reflexivity|].
  unfold core in *. simpl. congruence.
Qed.

Lemma agree_newDate : agree newDate newDate.
Proof.
  intros w1 w2 Hc. unfold newDate, core in *. simpl. split; congruence.
Qed.

Lemma agree_await_io env1 env2 :
  elapsed env1 = elapsed env2 -> agree (await_io env1) (await_io env2).
Proof.
  intros He w1 w2 Hc. unfold await_io, core in *. simpl.
  injection Hc as Hn Hp Hu. rewrite He, Hn, Hp, Hu. by split.
Qed.

Lemma agree_Post_save env1 env2 p :
  elapsed env1 = elapsed env2 -> post_save_error env1 = post_save_error env2 ->
  agree (Post_save env1 p) (Post_save env2 p).
Proof.
  intros He Hs. unfold Post_save. apply agree_bind; [by apply agree_await_io|].
  intros t. rewrite Hs. destruct (post_save_error env2 p t); [apply agree_throw|].
  intros w1 w2 Hc. unfold core in *. simpl. injection Hc as Hn Hp Hu.
  rewrite Hn, Hp, Hu. by split.
Qed.

(** [logPublishAttempt] in full: it returns; the log document joins
    the collection when the store accepts it; otherwise the error goes
    to the console and nothing else changes but the clock. *)
Lemma logPublishAttempt_spec env postId platform status response error w :
  Scheduler.logPublishAttempt env postId platform status response error w =
  let log :=
    SchedulerLog.mk postId platform status (now w) (now w)
      (match response with Some r => Some (200%nat, r) | None => None end)
      (match error with
       | Some e => Some (message e, code_or_unknown (code e), e)
       | None => None
       end) in
  match log_save_error env log (now w) with
  | Some logError =>
      (Returned tt,
       mkWorld (now w + Z.of_N (elapsed env (now w))) (posts w) (users w) (logs w)
               (trace w ++ [Console (LogSaveFailed logError)]))
  | None =>
      (Returned tt,
       mkWorld (now w + Z.of_N (elapsed env (now w))) (posts w) (users w)
               (logs w ++ [log]) (trace w))
  end.
Proof.
  unfold Scheduler.logPublishAttempt, try_catch, bind, newDate,
    SchedulerLog_save, bind, await_io, throw, console_log, emit. simpl.
  by destruct (log_save_error env _ _).
Qed.

Lemma agree_logPublishAttempt env1 env2 postId platform status response error :
  elapsed env1 = elapsed env2 ->
  agree (Scheduler.logPublishAttempt env1 postId platform status response error)
        (Scheduler.logPublishAttempt env2 postId platform status response error).
Proof.
  intros He w1 w2 Hc. rewrite !logPublishAttempt_spec. cbv zeta.
  unfold core in *. injection Hc as Hn Hp Hu.
  destruct (log_save_error env1 _ _), (log_save_error env2 _ _); simpl;
    rewrite He, Hn, Hp, Hu; by split.
Qed.

Lemma agree_publishToPlatform env1 env2 post user platform :
  elapsed env1 = elapsed env2 -> publisher env1 = publisher env2 ->
  agree (Scheduler.publishToPlatform env1 post user platform)
        (Scheduler.publishToPlatform env2 post user platform).
Proof.
  intros He Hp w1 w2 Hc. rewrite !publishToPlatform_cases.
  unfold core in *. injection Hc as Hn Hps Hu.
  destruct user as [u|]; [|simpl; split; congruence].
  destruct (User.connectedAccounts u !! platform); simpl;
    rewrite ?He, ?Hp, Hn, Hps, Hu; by split.
Qed.

Lemma agree_attempt env1 env2 user st platform :
  elapsed env1 = elapsed env2 -> publisher env1 = publisher env2 ->
  agree (Scheduler.attempt env1 user st platform)
        (Scheduler.attempt env2 user st platform).
Proof.
  intros He Hp. destruct st as [[post sc] fc]. unfold Scheduler.attempt.
  apply agree_try_catch.
  - apply agree_bind; [by apply agree_publishToPlatform|]. intros result.
    apply agree_bind; [by apply agree_logPublishAttempt|]. intros _.
    apply agree_bind; [apply agree_newDate|]. intros t.
    apply agree_bind; [apply agree_emit|]. intros _. apply agree_ret.
  - intros error.
    apply agree_bind; [apply agree_emit|]. intros _.
    apply agree_bind; [by apply agree_logPublishAttempt|]. intros _.
    apply agree_bind; [apply agree_newDate|]. intros t. apply agree_ret.
Qed.

Lemma agree_settle st : agree (Scheduler.settle st) (Scheduler.settle st).
Proof.
  destruct st as [[post sc] fc]. unfold Scheduler.settle.
  destruct (_ && _); [apply agree_ret|].
  destruct (_ && _); [apply agree_ret|]. cbv zeta.
  destruct (_ <? _)%Z; [|apply agree_ret].
  apply agree_bind; [apply agree_newDate|]. intros t.
  apply agree_bind; [apply agree_emit|]. intros _. apply agree_ret.
Qed.

Lemma agree_publishPost env1 env2 post user :
  elapsed env1 = elapsed env2 -> publisher env1 = publisher env2 ->
  post_save_error env1 = post_save_error env2 ->
  agree (Scheduler.publishPost env1 post user)
        (Scheduler.publishPost env2 post user).
Proof.
  intros He Hp Hs. unfold Scheduler.publishPost.
  apply agree_bind; [apply agree_emit|]. intros _.
  apply agree_bind; [apply agree_newDate|]. intros t.
  apply agree_bind; [by apply agree_Post_save|]. intros _.
  apply agree_bind; [apply agree_forEach; intros; by apply agree_attempt|].
  intros st.
  apply agree_bind; [apply agree_settle|]. intros p.
  apply agree_bind; [by apply agree_Post_save|]. intros _. apply agree_ret.
Qed.

(** C5: [logPublishAttempt] always returns: a rejected [log.save()] is
    written to the console and leaves the log, the posts and the users
    as they were.  Hence a dispatch completes in the same way (the same
    document returned, results included, or the same error of a
    rejected [post.save()]), at the same instant and with the same Post
    collection, as under a logger that accepts every write; and a
    dispatch that returns has appended one result per platform. *)
Theorem logger_failure_is_swallowed env post user w :
  (forall postId platform status response error w0,
     Scheduler.logPublishAttempt env postId platform status response error w0 =
     let log :=
       SchedulerLog.mk postId platform status (now w0) (now w0)
         (match response with Some r => Some (200%nat, r) | None => None end)
         (match error with
          | Some e => Some (message e, code_or_unknown (code e), e)
          | None => None
          end) in
     match log_save_error env log (now w0) with
     | Some logError =>
         (Returned tt,
          mkWorld (now w0 + Z.of_N (elapsed env (now w0))) (posts w0) (users w0)
                  (logs w0) (trace w0 ++ [Console (LogSaveFailed logError)]))
     | None =>
         (Returned tt,
          mkWorld (now w0 + Z.of_N (elapsed env (now w0))) (posts w0) (users w0)
                  (logs w0 ++ [log]) (trace w0))
     end)
  /\ fst (Scheduler.publishPost env post user w)
     = fst (Scheduler.publishPost (with_sound_logger env) post user w)
  /\ core (snd (Scheduler.publishPost env post user w))
     = core (snd (Scheduler.publishPost (with_sound_logger env) post user w))
  /\ match fst (Scheduler.publishPost env post user w) with
     | Returned post' =>
         Post.results post' = Post.results post ++ appended post post'
         /\ Forall2 (recorded env (content_of post) user) (Post.platforms post)
                    (appended post post')
     | Thrown e => exists p t, post_save_error env p t = Some e
     end.
Proof.
  split; [|split; [|split]].
  - intros. apply logPublishAttempt_spec.
  - by apply (agree_publishPost env (with_sound_logger env) post user).
  - by apply (agree_publishPost env (with_sound_logger env) post user).
  - destruct (Scheduler.publishPost env post user w) as [[post'|e] w'] eqn:Hrun;
      cbn [fst].
    + destruct (publishPost_returned env post user w post' w' Hrun)
        as (new & t & evs & Hrec & -> & _).
      rewrite appended_final, final_post_results. by split.
    + by apply publishPost_thrown in Hrun.
Qed.

(** With a store that rejects every log write, the partial success is
    still a [posted] post with its two results, and no log is kept. *)
Example logger_down :
  let run := Scheduler.publishPost Scenario.env_no_log Scenario.two_platforms
               (Some Scenario.alice) Scenario.world0 in
  Post.status (Scenario.returned_post Scenario.two_platforms run) = "posted"
  /\ map PlatformResult.success
         (Post.results (Scenario.returned_post Scenario.two_platforms run))
     = [true; false]
  /\ logs (snd run) = [].
Proof. vm_compute. by repeat split. Qed.

(** ** The [posting] mark comes first *)

(** The whole dispatch is its cut after all iterations, followed by the
    policy and the last save. *)
Lemma publishPost_prefix env post user w :
  Scheduler.publishPost env post user w
  = (st <- dispatch_prefix env post user (length (Post.platforms post)) ;;
     post <- Scheduler.settle st ;;
     Post_save env post ;;
     ret post) w.
Proof.
  unfold Scheduler.publishPost, dispatch_prefix, bind, console_log, emit, newDate.
  cbn beta iota. cbn [Post.platforms Post.set_lastAttempt Post.set_status].
  rewrite firstn_all.
  destruct (Post_save env _ _) as [[[]|e] w1]; [|reflexivity].
  by destruct (forEach _ _ _ w1) as [[st|e] w2].
Qed.

Lemma dispatch_prefix_returned env post user k w st wk :
  dispatch_prefix env post user k w = (Returned st, wk) ->
  posts wk = <[Post._id post := posting (now w) post]> (posts w)
  /\ exists evs,
       trace wk = trace w
                  ++ [Console (Publishing (Post._id post) (Post.platforms post));
                      PostSaved (posting (now w) post)] ++ evs
       /\ Forall quiet evs.
Proof.
  unfold dispatch_prefix, bind, console_log, emit, newDate.
  cbn beta iota. cbn [now]. fold (posting (now w) post).
  rewrite Post_save_spec. cbn [now].
  destruct (post_save_error env _ (now w)) as [e|]; [discriminate|].
  match goal with
  | |- context [forEach _ ?l ?s ?w1] =>
      destruct (attempts_spec env user l (posting (now w) post) 0%nat 0%nat w1)
        as (new & w2 & Hloop & _ & Hq)
  end.
  rewrite Hloop. intros [= <- <-].
  destruct Hq as (Hp & _ & _ & evs & Ht & Hqs). cbn in Hp, Ht.
  split; [exact Hp|]. exists evs. split; [|exact Hqs].
  by rewrite Ht, <- !app_assoc.
Qed.

Section DispatchTrace.

Variable env : Env.

(** The events of a dispatch, whatever its outcome: the dispatch line
    alone when the first save is rejected; otherwise the dispatch line,
    the save of the [posting] document, quiet events, and the last save
    unless it is rejected. *)
Lemma publishPost_trace post user w r w' :
  Scheduler.publishPost env post user w = (r, w') ->
  (trace w' = trace w ++ [Console (Publishing (Post._id post) (Post.platforms post))]
   /\ posts w' = posts w /\ exists e, r = Thrown e)
  \/ exists evs last,
       trace w' = trace w
                  ++ [Console (Publishing (Post._id post) (Post.platforms post));
                      PostSaved (posting (now w) post)] ++ evs ++ last
       /\ Forall quiet evs
       /\ ((last = [] /\ exists e, r = Thrown e)
           \/ exists p2, last = [PostSaved p2] /\ r = Returned p2).
Proof.
  intros Hrun. pose proof (publishPost_run env post user w) as H.
  cbv zeta in H.
  destruct (post_save_error env (posting (now w) post) (now w)) as [e1|] eqn:E1.
  { left. rewrite H in Hrun. rewrite Post_save_spec in Hrun. cbn [now] in Hrun.
    rewrite E1 in Hrun. injection Hrun as <- <-. simpl. eauto. }
  right. destruct H as (new & w2 & Hpls & Hq & Heq).
  rewrite Post_save_spec in Hq. cbn [now] in Hq. rewrite E1 in Hq.
  unfold quietly in Hq. cbn [snd now posts users logs trace] in Hq.
  destruct Hq as (Hp & Hu & Hn & evs & Ht & Hqs).
  rewrite Heq in Hrun. unfold bind in Hrun. rewrite Post_save_spec in Hrun.
  set (p2 := final_post _ _ _) in *.
  destruct (post_save_error env p2 (now w2)) as [e2|] eqn:E2;
    injection Hrun as <- <-; simpl; rewrite Ht, <- !app_assoc.
  - exists evs, []. rewrite app_nil_r. split; [reflexivity|]. split; [exact Hqs|].
    left. eauto.
  - exists evs, [PostSaved p2]. split; [reflexivity|]. split; [exact Hqs|].
    right. eauto.
Qed.

End DispatchTrace.

(** C6: in every dispatch the first save stores the document with
    status [posting] and [lastAttempt] the current time.  After any
    number of iterations of the platform loop the store still holds
    exactly that document for the post, so never one with status
    [scheduled]; every call to a publisher comes after the event of
    that save, the only save before the loop ends.  When that first
    save is rejected, no publisher is ever called. *)
Theorem posting_precedes_attempts env post user w :
  Post.status (posting (now w) post) = "posting"
  /\ Post.lastAttempt (posting (now w) post) = Some (now w)
  /\ (forall k st wk,
        dispatch_prefix env post user k w = (Returned st, wk) ->
        posts wk !! Post._id post = Some (posting (now w) post)
        /\ exists evs,
             trace wk = trace w
                        ++ [Console (Publishing (Post._id post) (Post.platforms post));
                            PostSaved (posting (now w) post)] ++ evs
             /\ Forall quiet evs)
  /\ (forall k e wk,
        dispatch_prefix env post user k w = (Thrown e, wk) ->
        trace wk = trace w
                   ++ [Console (Publishing (Post._id post) (Post.platforms post))]
        /\ posts wk = posts w)
  /\ (forall r w',
        Scheduler.publishPost env post user w = (r, w') ->
        (trace w' = trace w
                    ++ [Console (Publishing (Post._id post) (Post.platforms post))]
         /\ posts w' = posts w /\ exists e, r = Thrown e)
        \/ exists evs last,
             trace w' = trace w
                        ++ [Console (Publishing (Post._id post) (Post.platforms post));
                            PostSaved (posting (now w) post)] ++ evs ++ last
             /\ Forall quiet evs
             /\ ((last = [] /\ exists e, r = Thrown e)
                 \/ exists p2, last = [PostSaved p2] /\ r = Returned p2)).
Proof.
  split; [reflexivity|]. split; [reflexivity|]. split; [|split].
  - intros k st wk Hk.
    destruct (dispatch_prefix_returned env post user k w st wk Hk) as (Hp & Ht).
    split; [|exact Ht]. rewrite Hp. apply lookup_insert_eq.
  - intros k e wk. unfold dispatch_prefix, bind, console_log, emit, newDate.
    cbn beta iota. cbn [now]. fold (posting (now w) post).
    rewrite Post_save_spec. cbn [now].
    destruct (post_save_error env _ (now w)) as [e1|].
    + by intros [= <- <-].
    + match goal with
      | |- context [forEach _ ?l ?s ?w1] =>
          destruct (attempts_spec env user l (posting (now w) post) 0%nat 0%nat w1)
            as (new & w2 & Hloop & _)
      end.
      rewrite Hloop. discriminate.
  - intros r w'. apply publishPost_trace.
Qed.

(** ** One tick of the scheduling loop *)

Section Tick.

Variable env : Env.

(** The loop of the tick dispatches the elements of the list from the
    left, one dispatch per element, until one throws. *)
Lemma tick_loop_dispatched l :
  forall w r w',
    forEach (fun _ '(post, user) => Scheduler.publishPost env post user ;; ret tt)
            l tt w = (r, w') ->
    exists evs,
      trace w' = trace w ++ evs
      /\ dispatched evs `prefix_of` returned_ids l
      /\ (r = Returned tt -> dispatched evs = returned_ids l).
Proof.
  induction l as [|[post user] l IH]; intros w r w'.
  - intros [= <- <-]. exists []. rewrite app_nil_r. by repeat split.
  - cbn [forEach]. unfold bind at 1. unfold bind at 1.
    destruct (Scheduler.publishPost env post user w) as [[p|e] w1] eqn:Hrun;
      destruct (publishPost_dispatched env post user w _ w1 Hrun) as (evs1 & Ht1 & Hd1).
    + unfold ret at 1. intros Hrest.
      destruct (IH w1 r w' Hrest) as (evs2 & Ht2 & Hpre & Hall).
      exists (evs1 ++ evs2). rewrite Ht2, Ht1, app_assoc, dispatched_app, Hd1.
      split; [reflexivity|]. split.
      * by apply prefix_cons.
      * intros Hr. simpl. by rewrite (Hall Hr).
    + intros [= <- <-]. exists evs1. rewrite Hd1. split; [exact Ht1|].
      split; [|discriminate].
      exists (returned_ids l). reflexivity.
Qed.

(** With a store that accepts every save the loop reaches its end. *)
Lemma tick_loop_total l :
  (forall p t, post_save_error env p t = None) ->
  forall w, exists w',
    forEach (fun _ '(post, user) => Scheduler.publishPost env post user ;; ret tt)
            l tt w = (Returned tt, w').
Proof.
  intros Hup. induction l as [|[post user] l IH]; intros w.
  - by exists w.
  - cbn [forEach]. unfold bind at 1. unfold bind at 1.
    destruct (publishPost_total env post user w Hup) as (p & w1 & ->).
    unfold ret at 1. apply IH.
Qed.

(** A tick whose query is answered runs the loop over the answer and
    swallows what the loop throws. *)
Lemma processScheduledPosts_run w l :
  find_due env (posts w) (users w) (now w) = Returned l ->
  Scheduler.processScheduledPosts env w =
  match forEach (fun _ '(post, user) => Scheduler.publishPost env post user ;; ret tt)
          l tt
          (mkWorld (now w + Z.of_N (elapsed env (now w))) (posts w) (users w)
             (logs w) (trace w ++ [Console (FoundPosts (length l))])) with
  | (Returned a, w') => (Returned a, w')
  | (Thrown e, w') =>
      (Returned tt,
       mkWorld (now w') (posts w') (users w') (logs w')
               (trace w' ++ [Console (ProcessingFailed e)]))
  end.
Proof.
  intros Hfind.
  unfold Scheduler.processScheduledPosts, try_catch, bind at 1, newDate.
  cbn beta iota. unfold bind at 1, Post_find_due, await_io. cbn beta iota.
  rewrite Hfind. cbn beta iota.
  unfold bind at 1, console_log, emit. cbn beta iota.
  cbn [now posts users logs trace]. reflexivity.
Qed.

End Tick.

Lemma prefix_NoDup {A} (l1 l2 : list A) : l1 `prefix_of` l2 -> NoDup l2 -> NoDup l1.
Proof. intros [k ->] H. by apply NoDup_app in H as [H _]. Qed.

(** C3, as the code has it: the tick never throws; it dispatches the
    documents that the due-post query returned one by one, in the order
    returned, once per element of the list and without looking at their
    ids, and stops at the first dispatch that throws.  With a store that
    accepts every save, the dispatched ids are exactly the returned ids;
    no id is dispatched twice when the query returned no id twice. *)
Theorem tick_dispatches_returned_list env w l :
  find_due env (posts w) (users w) (now w) = Returned l ->
  fst (Scheduler.processScheduledPosts env w) = Returned tt
  /\ exists evs,
       trace (snd (Scheduler.processScheduledPosts env w)) = trace w ++ evs
       /\ dispatched evs `prefix_of` returned_ids l
       /\ ((forall p t, post_save_error env p t = None) ->
           dispatched evs = returned_ids l)
       /\ (NoDup (returned_ids l) -> NoDup (dispatched evs)).
Proof.
  intros Hfind. rewrite (processScheduledPosts_run env w l Hfind).
  match goal with
  | |- context [forEach ?f l tt ?w1] =>
      destruct (forEach f l tt w1) as [r w'] eqn:Hloop
  end.
  destruct (tick_loop_dispatched env l _ _ _ Hloop) as (evs & Ht & Hpre & Hall).
  cbn [now posts users logs trace] in Ht.
  assert (Hup : (forall p t, post_save_error env p t = None) -> r = Returned tt).
  { intros Hup.
    match type of Hloop with
    | forEach _ _ _ ?w1 = _ =>
        destruct (tick_loop_total env l Hup w1) as (w'' & Heq)
    end.
    rewrite Heq in Hloop. by injection Hloop as <- _. }
  destruct r as [[]|e]; cbn [fst snd trace].
  - split; [reflexivity|]. exists (Console (FoundPosts (length l)) :: evs).
    split; [by rewrite Ht, <- app_assoc|].
    change (dispatched (Console (FoundPosts (length l)) :: evs)) with (dispatched evs).
    split; [exact Hpre|]. split; [by intros _; apply Hall|].
    by apply prefix_NoDup.
  - split; [reflexivity|].
    exists (Console (FoundPosts (length l)) :: evs ++ [Console (ProcessingFailed e)]).
    split; [cbn; by rewrite Ht, <- !app_assoc|].
    change (dispatched (Console (FoundPosts (length l))
                        :: evs ++ [Console (ProcessingFailed e)]))
      with (dispatched (evs ++ [Console (ProcessingFailed e)])).
    rewrite dispatched_app. cbn. rewrite app_nil_r.
    split; [exact Hpre|]. split; [|by apply prefix_NoDup].
    intros Hs. by specialize (Hup Hs).
Qed.

(** The store's own answer lists no id twice. *)
Lemma mongo_find_due_NoDup ps us d l :
  keyed_by_id ps -> mongo_find_due ps us d = Returned l -> NoDup (returned_ids l).
Proof.
  intros Hkey [= <-]. unfold returned_ids.
  rewrite <- list_fmap_compose.
  apply (sublist_NoDup _ (Post._id <$> (map snd (map_to_list ps)))).
  - assert (Heq : Post._id <$> map snd (map_to_list ps) = (map_to_list ps).*1).
    { rewrite <- list_fmap_compose. apply Forall_fmap_ext_1.
      apply Forall_forall. intros [k p] Hin. simpl.
      apply elem_of_map_to_list in Hin. by apply Hkey. }
    rewrite Heq. apply NoDup_fst_map_to_list.
  - apply fmap_sublist, sublist_filter.
Qed.

(** So a tick over a store that answers the query itself dispatches no
    id twice. *)
Lemma tick_on_mongo_no_duplicates env w :
  find_due env = mongo_find_due -> keyed_by_id (posts w) ->
  exists evs,
    trace (snd (Scheduler.processScheduledPosts env w)) = trace w ++ evs
    /\ NoDup (dispatched evs).
Proof.
  intros Hfind Hkey.
  destruct (mongo_find_due (posts w) (users w) (now w)) as [l|e] eqn:Hl;
    [|discriminate].
  pose proof (mongo_find_due_NoDup _ _ _ _ Hkey Hl) as Hnodup.
  rewrite <- Hfind in Hl.
  pose proof (processScheduledPosts_run env w l Hl) as Hrun.
  match type of Hrun with
  | _ = match ?run with _ => _ end =>
      destruct run as [r w'] eqn:Hloop
  end.
  destruct (tick_loop_dispatched env l _ _ _ Hloop) as (evs & Ht & Hpre & _).
  cbn [now posts users logs trace] in Ht.
  pose proof (prefix_NoDup _ _ Hpre Hnodup) as Hnd.
  rewrite Hrun. destruct r as [[]|e]; cbn [snd trace].
  - exists (Console (FoundPosts (length l)) :: evs).
    split; [by rewrite Ht, <- app_assoc|exact Hnd].
  - exists (Console (FoundPosts (length l)) :: evs ++ [Console (ProcessingFailed e)]).
    split; [by rewrite Ht, <- !app_assoc|].
    change (dispatched (Console (FoundPosts (length l))
                        :: evs ++ [Console (ProcessingFailed e)]))
      with (dispatched (evs ++ [Console (ProcessingFailed e)])).
    rewrite dispatched_app. cbn. by rewrite app_nil_r.
Qed.

(** ** Published posts and the post API *)

(** C8: whoever sends it and whatever its body, a PUT or a DELETE for
    the id of a stored post with status [posted] is answered with an
    error (400, 404 when the requester is not the owner, 500 when the
    store fails), and the Post collection stays as it was. *)
Theorem posted_is_immutable env isISO8601 parseDate req w p :
  posts w !! Routes.id req = Some p ->
  Post.status p = "posted" ->
  (exists resp w',
     Routes.put_id env isISO8601 parseDate req w = (Returned resp, w')
     /\ is_error resp /\ posts w' = posts w)
  /\ (exists resp w',
       Routes.delete_id env req w = (Returned resp, w')
       /\ is_error resp /\ posts w' = posts w).
Proof.
  intros Hp Hposted. split.
  - unfold Routes.put_id, try_catch.
    destruct (negb _).
    { eexists _, _. split; [reflexivity|]. split; [|reflexivity].
      split; [simpl; lia|eauto]. }
    unfold bind at 1, Routes.Post_findOne, bind, await_io, throw. cbn beta iota.
    destruct (query_error env _ _) as [e|].
    { unfold console_log, emit, ret. cbn.
      eexists _, _. split; [reflexivity|]. split; [|reflexivity].
      split; [simpl; lia|eauto]. }
    cbn [posts]. rewrite Hp.
    destruct (Post.userId p =? Routes.userId req).
    + rewrite Hposted. cbn.
      eexists _, _. split; [reflexivity|]. split; [|reflexivity].
      split; [simpl; lia|eauto].
    + cbn. eexists _, _. split; [reflexivity|]. split; [|reflexivity].
      split; [simpl; lia|eauto].
  - unfold Routes.delete_id, try_catch.
    unfold bind at 1, Routes.Post_findOne, bind, await_io, throw. cbn beta iota.
    destruct (query_error env _ _) as [e|].
    { unfold console_log, emit, ret. cbn.
      eexists _, _. split; [reflexivity|]. split; [|reflexivity].
      split; [simpl; lia|eauto]. }
    cbn [posts]. rewrite Hp.
    destruct (Post.userId p =? Routes.userId req).
    + rewrite Hposted. cbn.
      eexists _, _. split; [reflexivity|]. split; [|reflexivity].
      split; [simpl; lia|eauto].
    + cbn. eexists _, _. split; [reflexivity|]. split; [|reflexivity].
      split; [simpl; lia|eauto].
Qed.

(** ** Concrete runs *)

Example scenario_two_platforms :
  let run := Scheduler.publishPost Scenario.env0 Scenario.two_platforms
               (Some Scenario.alice) Scenario.world0 in
  Post.status (Scenario.returned_post Scenario.two_platforms run) = "posted"
  /\ map (fun r => (PlatformResult.platform r, PlatformResult.success r,
                    PlatformResult.error r))
         (Post.results (Scenario.returned_post Scenario.two_platforms run))
     = [("twitter", true, None);
        ("linkedin", false, Some "linkedin account not connected for user")].
Proof. vm_compute. by split. Qed.

(** The scenario of the specification with Twitter publishing "t1" and
    LinkedIn rate limited. *)
Example scenario_rate_limited :
  let run := Scheduler.publishPost Scenario.env_spec Scenario.two_platforms
               (Some Scenario.carol) Scenario.world0 in
  let post' := Scenario.returned_post Scenario.two_platforms run in
  Post.status post' = "posted"
  /\ Post.retryCount post' = 0%Z
  /\ map (fun r => (PlatformResult.platform r, PlatformResult.success r,
                    PlatformResult.postId r, PlatformResult.error r))
         (Post.results post')
     = [("twitter", true, Some "t1", None);
        ("linkedin", false, None, Some "rate limited")]
  /\ map (fun l => (SchedulerLog.platform l, SchedulerLog.status l,
                    fst <$> (fst <$> SchedulerLog.error l),
                    snd <$> (fst <$> SchedulerLog.error l)))
         (logs (snd run))
     = [("twitter", "success", None, None);
        ("linkedin", "failed", Some "rate limited", Some "429")].
Proof. vm_compute. by repeat split. Qed.

(** The scenario with Instagram refusing the token: retry in 15 minutes
    from the instant of the decision, three seconds into the dispatch
    that began at 5000. *)
Example scenario_invalid_token :
  let run := Scheduler.publishPost Scenario.env_spec Scenario.instagram_only
               (Some Scenario.carol) Scenario.world0 in
  let post' := Scenario.returned_post Scenario.instagram_only run in
  Post.status post' = "scheduled"
  /\ Post.retryCount post' = 1%Z
  /\ Post.lastAttempt post' = Some 5000%Z
  /\ Post.scheduledAt post' = (8000 + 15 * 60 * 1000)%Z
  /\ map PlatformResult.error (Post.results post') = [Some "invalid token"].
Proof. vm_compute. by repeat split. Qed.

Lemma partial_success_is_posted_witness :
  let run := Scheduler.publishPost Scenario.env0 Scenario.two_platforms
               (Some Scenario.alice) Scenario.world0 in
  let post' := Scenario.returned_post Scenario.two_platforms run in
  Post.status post' = "posted"
  /\ Post.retryCount post' = Post.retryCount Scenario.two_platforms
  /\ Post.results post'
     = Post.results Scenario.two_platforms ++ appended Scenario.two_platforms post'
  /\ map PlatformResult.platform (appended Scenario.two_platforms post')
     = Post.platforms Scenario.two_platforms
  /\ length (appended Scenario.two_platforms post')
     = length (Post.platforms Scenario.two_platforms)
  /\ posts (snd run) !! Post._id Scenario.two_platforms = Some post'.
Proof.
  intros run post'.
  apply (partial_success_is_posted Scenario.env0 Scenario.two_platforms
           (Some Scenario.alice) Scenario.world0 post' (snd run)).
  - vm_compute. reflexivity.
  - vm_compute. lia.
Defined.

Lemma all_failed_retry_or_fail_witness :
  let run := Scheduler.publishPost Scenario.env0 Scenario.last_chance
               (Some Scenario.alice) Scenario.world0 in
  let post' := Scenario.returned_post Scenario.last_chance run in
  Post.retryCount post' = 3%Z
  /\ Post.status post' = "failed"
  /\ forall d, due d post' = false.
Proof.
  intros run post'.
  destruct (all_failed_retry_or_fail Scenario.env0 Scenario.last_chance
              (Some Scenario.alice) Scenario.world0 post' (snd run))
    as (Hrc & _ & Hbranch).
  - vm_compute. reflexivity.
  - vm_compute. reflexivity.
  - split; [exact Hrc|]. rewrite Hrc in Hbranch.
    destruct Hbranch as (Hst & Hdue & _). by split.
Defined.

Lemma empty_platforms_count_as_failure_witness :
  let run := Scheduler.publishPost Scenario.env0 Scenario.no_platform
               (Some Scenario.alice) Scenario.world0 in
  let post' := Scenario.returned_post Scenario.no_platform run in
  Post.results post' = [] /\ Post.retryCount post' = 1%Z
  /\ Post.status post' = "scheduled"
  /\ Post.scheduledAt post' = (6000 + 15 * 60 * 1000)%Z.
Proof.
  intros run post'.
  destruct (empty_platforms_count_as_failure Scenario.env0 Scenario.no_platform
              (Some Scenario.alice) Scenario.world0 post' (snd run))
    as (Hres & _ & _ & Hrc & _ & Hbranch).
  - reflexivity.
  - vm_compute. reflexivity.
  - destruct Hbranch as [Hst Hat]. by repeat split.
Defined.

Lemma missing_account_is_recorded_witness :
  let run := Scheduler.publishPost Scenario.env0 Scenario.two_platforms
               (Some Scenario.alice) Scenario.world0 in
  let post' := Scenario.returned_post Scenario.two_platforms run in
  exists r,
    appended Scenario.two_platforms post' !! 1%nat = Some r
    /\ PlatformResult.platform r = "linkedin"
    /\ PlatformResult.success r = false
    /\ PlatformResult.error r = Some "linkedin account not connected for user".
Proof.
  intros run post'.
  destruct (missing_account_is_recorded Scenario.env0 Scenario.two_platforms
              Scenario.alice Scenario.world0) as (_ & Hrun & _).
  destruct (Hrun post' (snd run)) as (_ & _ & Hmiss).
  - vm_compute. reflexivity.
  - destruct (Hmiss 1%nat "linkedin") as (r & Hr & Hpf & Hs & He & _).
    + reflexivity.
    + vm_compute. reflexivity.
    + exists r. by repeat split.
Defined.

Lemma posting_precedes_attempts_witness :
  let run := dispatch_prefix Scenario.env0 Scenario.two_platforms
               (Some Scenario.alice) 1 Scenario.world0 in
  (Post.status <$> posts (snd run) !! "p1") = Some "posting"
  /\ (Post.lastAttempt <$> posts (snd run) !! "p1") = Some (Some 5000%Z).
Proof.
  intros run.
  destruct (posting_precedes_attempts Scenario.env0 Scenario.two_platforms
              (Some Scenario.alice) Scenario.world0) as (Hst & Hla & Hk & _).
  destruct (Hk 1%nat
              (match fst run with
               | Returned st => st
               | Thrown _ => (Scenario.two_platforms, 0, 0)%nat
               end) (snd run)) as (Hstore & _).
  - vm_compute. reflexivity.
  - change (Post._id Scenario.two_platforms) with "p1" in Hstore.
    rewrite Hstore. simpl. by split.
Defined.

Lemma tick_dispatches_returned_list_witness :
  exists evs,
    trace (snd (Scheduler.processScheduledPosts Scenario.env0 Scenario.world0))
    = trace Scenario.world0 ++ evs
    /\ dispatched evs = ["p1"] /\ NoDup (dispatched evs).
Proof.
  destruct (tick_dispatches_returned_list Scenario.env0 Scenario.world0
              [(Scenario.two_platforms, Some Scenario.alice)])
    as (_ & evs & Ht & _ & Hall & Hnodup).
  - vm_compute. reflexivity.
  - exists evs. split; [exact Ht|]. split.
    + apply Hall. reflexivity.
    + apply Hnodup. apply NoDup_singleton.
Defined.

(** C3 as stated fails: when the query answers with the same document
    twice, the tick dispatches its id twice, and the publisher is called
    twice for it. *)
Lemma tick_dispatches_duplicates :
  let tr := trace (snd (Scheduler.processScheduledPosts Scenario.env_twice
                          Scenario.world0)) in
  dispatched tr = ["p1"; "p1"]
  /\ ~ NoDup (dispatched tr)
  /\ publish_calls tr = [("twitter", "p1"); ("twitter", "p1")].
Proof.
  intros tr.
  assert (Hd : dispatched tr = ["p1"; "p1"]) by (vm_compute; reflexivity).
  split; [exact Hd|]. split.
  - rewrite Hd. intros Hn. apply NoDup_cons in Hn as [Hn _].
    apply Hn. by left.
  - vm_compute. reflexivity.
Qed.

Lemma posted_is_immutable_witness :
  (exists resp w',
     Routes.put_id Scenario.env0 (fun _ => true) (fun _ => 0%Z)
       Scenario.edit_request Scenario.world0 = (Returned resp, w')
     /\ is_error resp /\ posts w' = posts Scenario.world0)
  /\ (exists resp w',
       Routes.delete_id Scenario.env0 Scenario.edit_request Scenario.world0
       = (Returned resp, w')
       /\ is_error resp /\ posts w' = posts Scenario.world0).
Proof.
  apply (posted_is_immutable Scenario.env0 (fun _ => true) (fun _ => 0%Z)
           Scenario.edit_request Scenario.world0 Scenario.published).
  - vm_compute. reflexivity.
  - reflexivity.
Defined.

(** * Further properties *)

(** ** The timers of the scheduling loop *)

Lemma start_one_timer s : one_timer s -> one_timer (Scheduler.start s).
Proof.
  destruct s as [r j c n]. intros [Hflag Hlive]. simpl in *.
  unfold Scheduler.start. simpl. destruct r.
  - by split.
  - destruct j as [j|]; [destruct Hflag as [_ H]; by discriminate H|].
    split; simpl; [by split|]. rewrite Hlive. apply (right_id_L ∅ (∪)).
Qed.

Lemma stop_one_timer s : one_timer s -> one_timer (Scheduler.stop s).
Proof.
  destruct s as [r j c n]. intros [Hflag Hlive]. simpl in *.
  unfold Scheduler.stop. simpl. destruct j as [j|]; simpl.
  - split; [split; [discriminate|by intros []]|].
    unfold Scheduler.cron_destroy. simpl. rewrite Hlive. apply difference_diag_L.
  - split; [split; [discriminate|by intros []]|exact Hlive].
Qed.

(** X1: from a new service, after any sequence of [start()] and
    [stop()] calls the running flag is set exactly when a cron task is
    held, and the timers that fire are that task alone: never two
    timers, and none once stopped. *)
Theorem lifecycle_keeps_one_timer (cs : list Command) :
  one_timer (perform_all cs Scheduler.constructor)
  /\ (Scheduler.isRunning (perform_all cs Scheduler.constructor) = false ->
      Scheduler.live (Scheduler.cron (perform_all cs Scheduler.constructor)) = ∅).
Proof.
  assert (H : one_timer (perform_all cs Scheduler.constructor)).
  { unfold perform_all.
    assert (H0 : one_timer Scheduler.constructor).
    { split; [split; [discriminate|by intros []]|reflexivity]. }
    revert H0. generalize Scheduler.constructor.
    induction cs as [|c cs IH]; intros s Hs; [exact Hs|].
    simpl. apply IH. destruct c; [by apply start_one_timer|by apply stop_one_timer]. }
  split; [exact H|]. intros Hoff. destruct H as [Hflag Hlive].
  destruct (Scheduler.cronJob _) as [j|]; [|exact Hlive].
  destruct Hflag as [_ Hflag]. rewrite Hflag in Hoff; [discriminate|done].
Qed.

Lemma lifecycle_keeps_one_timer_witness :
  Scheduler.isRunning (perform_all [Start; Start; Stop; Stop] Scheduler.constructor)
  = false
  /\ Scheduler.live (Scheduler.cron
       (perform_all [Start; Start; Stop; Stop] Scheduler.constructor)) = ∅.
Proof.
  split; [reflexivity|].
  apply (lifecycle_keeps_one_timer [Start; Start; Stop; Stop]). reflexivity.
Defined.

(** ** What a dispatch does to the store, the log and the publishers *)

Lemma publish_calls_app l1 l2 :
  publish_calls (l1 ++ l2) = publish_calls l1 ++ publish_calls l2.
Proof. apply omap_app. Qed.

Section DispatchEffects.

Variable env : Env.

(** One iteration in full: the result it appends, the log it writes
    (at most one document, exactly one when the store accepts it) and
    the publisher call it makes (one if the owner is connected). *)
(** The tail of an iteration once the outcome of the publish step is
    known: [b] is the [success] flag of the result to show. *)
Ltac after_publish b Hle :=
  rewrite logPublishAttempt_spec; cbv zeta; cbn [now];
  destruct (log_save_error _ _ _) as [?le|] eqn:Hle;
  unfold bind, newDate, console_log, emit, ret;
  cbn [now posts users logs trace];
  eexists (PlatformResult.mk _ _ _ b _ _), _, _, _;
  (split; [reflexivity|]);
  cbn [PlatformResult.platform PlatformResult.success PlatformResult.postedAt
       now posts users logs trace];
  rewrite <- ?app_assoc;
  (split; [reflexivity|]); (split; [lia|]); (split; [lia|]).

Ltac show_logged :=
  unfold logged;
  cbn [SchedulerLog.postId SchedulerLog.platform SchedulerLog.status
       SchedulerLog.response SchedulerLog.error
       SchedulerLog.scheduledTime SchedulerLog.executedTime
       PlatformResult.platform PlatformResult.success
       PlatformResult.postId PlatformResult.error PlatformResult.postedAt];
  repeat split; try reflexivity; try lia;
  eexists; split; reflexivity.

Lemma attempt_effects user post sc fc platform w :
  exists r w' new_logs evs,
    Scheduler.attempt env user (post, sc, fc) platform w
    = (Returned (Post.push_result r post,
                 if PlatformResult.success r then S sc else sc,
                 if PlatformResult.success r then fc else S fc), w')
    /\ PlatformResult.platform r = platform
    /\ (now w <= PlatformResult.postedAt r)%Z
    /\ (PlatformResult.postedAt r <= now w')%Z
    /\ logs w' = logs w ++ new_logs
    /\ (new_logs = [] \/ exists l, new_logs = [l] /\ logged (Post._id post) r l)
    /\ ((forall l t, log_save_error env l t = None) ->
        exists l, new_logs = [l] /\ logged (Post._id post) r l)
    /\ trace w' = trace w ++ evs
    /\ publish_calls evs
       = (if connected user platform then [(platform, Post._id post)] else []).
Proof.
  unfold Scheduler.attempt, try_catch, bind at 1.
  rewrite publishToPlatform_cases. unfold connected.
  destruct user as [u|];
    [destruct (User.connectedAccounts u !! platform) as [a|];
     [destruct (publisher env platform a (content_of post) (now w)) as [res|e]|]|].
  1: unfold bind at 1; after_publish true Hle.
  3-5: unfold bind at 1, console_log, emit; cbn beta iota; unfold bind at 1;
       after_publish false Hle.
  all: first
    [ split; [instantiate (1 := []); by rewrite app_nil_r|];
      split; [by left|];
      split; [intros Hs; by rewrite Hs in Hle|];
      split; reflexivity
    | split; [reflexivity|];
      split; [right; eexists; split; [reflexivity|show_logged]|];
      split; [intros _; eexists; split; [reflexivity|show_logged]|];
      split; reflexivity ].
Qed.

End DispatchEffects.

Lemma owed_calls_cons user id platform pls :
  owed_calls user id (platform :: pls)
  = (if connected user platform then [(platform, id)] else [])
    ++ owed_calls user id pls.
Proof.
  unfold owed_calls. destruct (connected user platform) eqn:E.
  - by rewrite filter_cons_True.
  - rewrite filter_cons_False; [reflexivity|]. by rewrite E.
Qed.

Section DispatchLoopEffects.

Variable env : Env.

(** The loop in full: besides the results, the log grows by at most
    one document per platform, each the record of one of the results
    (exactly one per result when the store accepts every log write),
    and the publishers called are those owed to the connected
    platforms, in order. *)
Lemma attempts_effects user pls :
  forall post sc fc w,
  exists new w' new_logs evs,
    forEach (Scheduler.attempt env user) pls (post, sc, fc) w
    = (Returned (with_results (Post.results post ++ new) post,
                 (sc + successes new)%nat, (fc + failures new)%nat), w')
    /\ map PlatformResult.platform new = pls
    /\ Forall (fun r => (now w <= PlatformResult.postedAt r)%Z
                        /\ (PlatformResult.postedAt r <= now w')%Z) new
    /\ (now w <= now w')%Z
    /\ logs w' = logs w ++ new_logs
    /\ (length new_logs <= length pls)%nat
    /\ Forall (fun l => exists r, r ∈ new /\ logged (Post._id post) r l) new_logs
    /\ ((forall l t, log_save_error env l t = None) ->
        Forall2 (logged (Post._id post)) new new_logs)
    /\ trace w' = trace w ++ evs
    /\ publish_calls evs = owed_calls user (Post._id post) pls.
Proof.
  induction pls as [|pf pls IH]; intros post sc fc w.
  - exists [], w, [], []. simpl. unfold ret.
    rewrite !app_nil_r, with_results_id, !Nat.add_0_r.
    repeat split; try constructor; try lia.
  - cbn [forEach]. unfold bind at 1.
    destruct (attempt_effects env user post sc fc pf w)
      as (r & w1 & logs1 & evs1 & -> & Hpf & Ht1 & Ht1' & Hlogs1 & Hcase1 & Hsound1
          & Htr1 & Hcalls1).
    destruct (IH (Post.push_result r post)
                (if PlatformResult.success r then S sc else sc)
                (if PlatformResult.success r then fc else S fc) w1)
      as (new & w2 & logs2 & evs2 & -> & Hpls & Hwin & Hmono & Hlogs2 & Hlen2
          & Hall2 & Hsound2 & Htr2 & Hcalls2).
    change (Post._id (Post.push_result r post)) with (Post._id post) in *.
    exists (r :: new), w2, (logs1 ++ logs2), (evs1 ++ evs2).
    split; [|split; [|split; [|split; [|split; [|split; [|split; [|split; [|split]]]]]]]].
    + do 2 f_equal. f_equal; [f_equal|].
      * simpl. unfold with_results. simpl. by rewrite <- app_assoc.
      * rewrite successes_cons. destruct (PlatformResult.success r); lia.
      * rewrite failures_cons. destruct (PlatformResult.success r); lia.
    + simpl. by rewrite Hpf, Hpls.
    + constructor; [lia|].
      eapply Forall_impl; [exact Hwin|]. intros x [? ?]. lia.
    + lia.
    + by rewrite Hlogs2, Hlogs1, app_assoc.
    + rewrite length_app. simpl.
      destruct Hcase1 as [->|(l & -> & _)]; simpl; lia.
    + apply Forall_app. split.
      * destruct Hcase1 as [->|(l & -> & Hl)]; constructor; [|constructor].
        exists r. split; [by left|exact Hl].
      * eapply Forall_impl; [exact Hall2|].
        intros l (r' & Hin & Hl). exists r'. split; [by right|exact Hl].
    + intros Hs. destruct (Hsound1 Hs) as (l & -> & Hl).
      simpl. constructor; [exact Hl|by apply Hsound2].
    + by rewrite Htr2, Htr1, app_assoc.
    + by rewrite publish_calls_app, Hcalls1, Hcalls2, owed_calls_cons.
Qed.

(** The policy after the loop writes at most one console line. *)
Lemma settle_effects post sc fc w :
  exists w' evs,
    Scheduler.settle (post, sc, fc) w = (Returned (final_post post sc (now w)), w')
    /\ now w' = now w /\ posts w' = posts w /\ users w' = users w
    /\ logs w' = logs w
    /\ trace w' = trace w ++ evs /\ publish_calls evs = [] /\ dispatched evs = [].
Proof.
  unfold Scheduler.settle, final_post.
  destruct sc as [|sc]; simpl.
  - destruct (Post.retryCount post + 1 <? 3)%Z eqn:E.
    + unfold bind, newDate, console_log, emit, ret. simpl.
      eexists _, [_]. by repeat split.
    + exists w, []. rewrite app_nil_r. by repeat split.
  - destruct fc; simpl; exists w, []; rewrite app_nil_r; by repeat split.
Qed.

(** A dispatch that returns, in full. *)
Lemma publishPost_effects post user w post' w' :
  Scheduler.publishPost env post user w = (Returned post', w') ->
  exists new_logs evs,
    Forall (fun r => (now w <= PlatformResult.postedAt r)%Z
                     /\ (PlatformResult.postedAt r <= now w')%Z)
           (appended post post')
    /\ logs w' = logs w ++ new_logs
    /\ (length new_logs <= length (Post.platforms post))%nat
    /\ Forall (fun l => exists r, r ∈ appended post post'
                                  /\ logged (Post._id post) r l) new_logs
    /\ ((forall l t, log_save_error env l t = None) ->
        Forall2 (logged (Post._id post)) (appended post post') new_logs)
    /\ trace w' = trace w
                  ++ [Console (Publishing (Post._id post) (Post.platforms post));
                      PostSaved (posting (now w) post)]
                  ++ evs ++ [PostSaved post']
    /\ publish_calls evs = owed_calls user (Post._id post) (Post.platforms post).
Proof.
  unfold Scheduler.publishPost, bind, console_log, emit, newDate.
  cbn beta iota. cbn [now]. fold (posting (now w) post).
  rewrite Post_save_spec. cbn [now].
  destruct (post_save_error env _ (now w)) as [e|]; [discriminate|].
  match goal with
  | |- context [forEach _ ?l ?s ?w1] =>
      destruct (attempts_effects user l (posting (now w) post) 0%nat 0%nat w1)
        as (new & w2 & new_logs & evs & Hloop & Hpls & Hwin & Hmono & Hlogs & Hlen
            & Hall & Hsound & Htr & Hcalls)
  end.
  rewrite Hloop. cbn [Nat.add].
  destruct (settle_effects (with_results (Post.results (posting (now w) post) ++ new)
                              (posting (now w) post))
              (successes new) (failures new) w2)
    as (w3 & evs3 & -> & Hnow3 & Hposts3 & Husers3 & Hlogs3 & Htr3 & Hcalls3 & Hd3).
  rewrite Post_save_spec.
  destruct (post_save_error env _ (now w3)) as [e|]; [discriminate|].
  unfold ret. intros [= <- <-].
  cbn [now posts users logs trace Post.platforms Post._id posting
       Post.set_lastAttempt Post.set_status Post.results] in *.
  rewrite appended_final.
  exists new_logs, (evs ++ evs3).
  split; [|split; [|split; [|split; [|split; [|split]]]]].
  - eapply Forall_impl; [exact Hwin|]. intros x [? ?]. lia.
  - by rewrite Hlogs3, Hlogs.
  - by rewrite <- Hpls, length_map in Hlen |- *.
  - exact Hall.
  - exact Hsound.
  - rewrite Htr3, Htr. by rewrite <- !app_assoc.
  - by rewrite publish_calls_app, Hcalls, Hcalls3, app_nil_r.
Qed.

(** What every dispatch leaves alone, whatever its outcome: the users,
    the other posts, what the log and the trace already held; and what
    the store holds for the post afterwards. *)
Lemma publishPost_frame post user w r w' :
  Scheduler.publishPost env post user w = (r, w') ->
  users w' = users w
  /\ (now w <= now w')%Z
  /\ logs w `prefix_of` logs w'
  /\ trace w `prefix_of` trace w'
  /\ (forall k, k <> Post._id post -> posts w' !! k = posts w !! k)
  /\ match r with
     | Returned post' => posts w' !! Post._id post = Some post'
     | Thrown e =>
         (exists p t, post_save_error env p t = Some e)
         /\ (posts w' = posts w
             \/ posts w' !! Post._id post = Some (posting (now w) post))
     end.
Proof.
  unfold Scheduler.publishPost, bind, console_log, emit, newDate.
  cbn beta iota. cbn [now]. fold (posting (now w) post).
  rewrite Post_save_spec. cbn [now].
  destruct (post_save_error env _ (now w)) as [e|] eqn:E1.
  { intros [= <- <-]. cbn. repeat split; try done; try lia.
    - by eexists.
    - eauto.
    - by left. }
  match goal with
  | |- context [forEach _ ?l ?s ?w1] =>
      destruct (attempts_effects user l (posting (now w) post) 0%nat 0%nat w1)
        as (new & w2 & new_logs & evs & Hloop & Hpls & Hwin & Hmono & Hlogs & Hlen
            & Hall & Hsound & Htr & Hcalls);
      pose proof (attempts_spec env user l (posting (now w) post) 0%nat 0%nat w1)
        as (new0 & w20 & Hloop0 & _ & Hq)
  end.
  assert (Hw : w20 = w2) by (rewrite Hloop in Hloop0; congruence).
  subst w20. clear Hloop0.
  destruct Hq as (Hposts & Husers & _).
  rewrite Hloop. cbn [Nat.add].
  destruct (settle_effects (with_results (Post.results (posting (now w) post) ++ new)
                              (posting (now w) post))
              (successes new) (failures new) w2)
    as (w3 & evs3 & -> & Hnow3 & Hposts3 & Husers3 & Hlogs3 & Htr3 & Hcalls3 & Hd3).
  rewrite Post_save_spec.
  set (p2 := final_post _ _ _).
  assert (Hid : Post._id p2 = Post._id post) by (unfold p2; by rewrite final_post_id).
  cbn [now posts users logs trace] in *.
  destruct (post_save_error env p2 (now w3)) as [e|] eqn:E2; unfold ret;
    intros [= <- <-]; cbn [now posts users logs trace].
  - split; [congruence|]. split; [lia|].
    split; [exists new_logs; congruence|].
    split; [rewrite Htr3, Htr, <- !app_assoc; by eexists|].
    split.
    + intros k Hk. rewrite Hposts3, Hposts. by apply lookup_insert_ne.
    + split; [eauto|]. right. rewrite Hposts3, Hposts. apply lookup_insert_eq.
  - split; [congruence|]. split; [lia|].
    split; [exists new_logs; congruence|].
    split; [rewrite Htr3, Htr, <- !app_assoc; by eexists|].
    split.
    + intros k Hk. rewrite Hid, Hposts3, Hposts.
      rewrite lookup_insert_ne by done. by apply lookup_insert_ne.
    + rewrite Hid. apply lookup_insert_eq.
Qed.

End DispatchLoopEffects.

(** X2: a dispatch that returns changes nothing of the post but its
    status, retry count, schedule, last attempt and results: identity,
    owner, content and target platforms are as before; the old results
    are kept in front of the new ones, which number as many as the
    platforms, successes and failures together; the retry count grows
    by one at most; the status is [posted], [scheduled] or [failed];
    and only a reschedule moves [scheduledAt]. *)
Theorem dispatch_keeps_the_post env post user w post' w' :
  Scheduler.publishPost env post user w = (Returned post', w') ->
  (Post._id post', Post.userId post', Post.text post', Post.hashtags post',
   Post.mentions post', Post.media post', Post.platforms post')
  = (Post._id post, Post.userId post, Post.text post, Post.hashtags post,
     Post.mentions post, Post.media post, Post.platforms post)
  /\ Post.results post `prefix_of` Post.results post'
  /\ (successes (appended post post') + failures (appended post post'))%nat
     = length (Post.platforms post)
  /\ (Post.retryCount post <= Post.retryCount post'
      <= Post.retryCount post + 1)%Z
  /\ Post.lastAttempt post' = Some (now w)
  /\ (Post.status post' = "posted" \/ Post.status post' = "scheduled"
      \/ Post.status post' = "failed")
  /\ (Post.status post' = "scheduled"
      \/ Post.scheduledAt post' = Post.scheduledAt post).
Proof.
  intros Hrun.
  destruct (publishPost_returned env post user w post' w' Hrun)
    as (new & t & evs & Hrec & -> & _).
  assert (Hlen : length new = length (Post.platforms post))
    by (by rewrite <- (recorded_platforms _ _ _ _ _ Hrec), length_map).
  rewrite appended_final, successes_failures, Hlen.
  unfold final_post.
  destruct (0 <? successes new)%nat; cbn.
  - repeat split; try lia; try (by exists new); auto.
  - destruct (Post.retryCount post + 1 <? 3)%Z; cbn;
      repeat split; try lia; try (by exists new); auto.
Qed.

Lemma dispatch_keeps_the_post_witness :
  let run := Scheduler.publishPost Scenario.env_spec Scenario.instagram_only
               (Some Scenario.carol) Scenario.world0 in
  let post' := Scenario.returned_post Scenario.instagram_only run in
  Post.platforms post' = ["instagram"]
  /\ (Post.retryCount post' <= 1)%Z
  /\ Post.lastAttempt post' = Some 5000%Z.
Proof.
  intros run post'.
  destruct (dispatch_keeps_the_post Scenario.env_spec Scenario.instagram_only
              (Some Scenario.carol) Scenario.world0 post' (snd run))
    as (Hsame & _ & _ & Hrc & Hla & _).
  - vm_compute. reflexivity.
  - split; [exact (f_equal snd Hsame)|]. split; [|exact Hla].
    change (Post.retryCount Scenario.instagram_only) with 0%Z in Hrc. lia.
Defined.

(** X3: whatever its outcome, a dispatch leaves the users and every
    other post of the store as they were, only adds to the attempt log
    (at most it keeps what was there) and never sets the clock back; a
    dispatch that returns has stored the document it returns. *)
Theorem dispatch_touches_one_post env post user w r w' :
  Scheduler.publishPost env post user w = (r, w') ->
  users w' = users w
  /\ (forall k, k <> Post._id post -> posts w' !! k = posts w !! k)
  /\ logs w `prefix_of` logs w'
  /\ (now w <= now w')%Z
  /\ match r with
     | Returned post' => posts w' !! Post._id post = Some post'
     | Thrown _ => True
     end.
Proof.
  intros Hrun.
  destruct (publishPost_frame env post user w r w' Hrun)
    as (Hu & Hn & Hl & _ & Hk & Hr).
  repeat split; try done. destruct r; [exact Hr|exact I].
Qed.

Lemma dispatch_touches_one_post_witness :
  let run := Scheduler.publishPost Scenario.env0 Scenario.two_platforms
               (Some Scenario.alice) Scenario.world0 in
  users (snd run) = users Scenario.world0
  /\ posts (snd run) !! "p4" = Some Scenario.published.
Proof.
  intros run.
  destruct (dispatch_touches_one_post Scenario.env0 Scenario.two_platforms
              (Some Scenario.alice) Scenario.world0 (fst run) (snd run))
    as (Hu & Hk & _).
  - apply surjective_pairing.
  - split; [exact Hu|]. rewrite Hk; [vm_compute; reflexivity|discriminate].
Defined.

(** X4: a dispatch throws only when the store rejects one of its two
    saves.  Then the store is as before (first save), or it holds the
    post with status [posting] (last save): a document that the
    due-post query selects at no instant, so that no later tick
    dispatches it again. *)
Theorem failed_dispatch_leaves_posting env post user w e w' :
  Scheduler.publishPost env post user w = (Thrown e, w') ->
  (exists p t, post_save_error env p t = Some e)
  /\ (posts w' = posts w
      \/ (posts w' !! Post._id post = Some (posting (now w) post)
          /\ Post.status (posting (now w) post) = "posting"
          /\ (forall d, due d (posting (now w) post) = false)
          /\ forall ps us d l o,
               mongo_find_due ps us d = Returned l ->
               (posting (now w) post, o) ∉ l)).
Proof.
  intros Hrun.
  destruct (publishPost_frame env post user w _ w' Hrun)
    as (_ & _ & _ & _ & _ & Hsave & Hstore).
  split; [exact Hsave|]. destruct Hstore as [Hsame|Hposting]; [by left|right].
  assert (Hdue : forall d, due d (posting (now w) post) = false).
  { intros d. unfold due. cbn. by rewrite andb_false_r. }
  repeat split; try done.
  intros ps us d l o Hl Hin.
  apply (mongo_find_due_sound _ _ _ _ _ _ Hl) in Hin. by rewrite Hdue in Hin.
Qed.

Lemma failed_dispatch_leaves_posting_witness :
  let run := Scheduler.publishPost Cases.env_final_save_fails
               Scenario.two_platforms (Some Scenario.alice) Scenario.world0 in
  (Post.status <$> posts (snd run) !! "p1") = Some "posting".
Proof.
  intros run.
  destruct (failed_dispatch_leaves_posting Cases.env_final_save_fails
              Scenario.two_platforms (Some Scenario.alice) Scenario.world0
              (mkError "write conflict" None) (snd run))
    as (_ & [Hsame|(Hstore & _)]).
  - vm_compute. reflexivity.
  - exfalso. assert (H : posts (snd run) !! "p1" = posts Scenario.world0 !! "p1")
      by (by rewrite Hsame).
    vm_compute in H. discriminate.
  - change (Post._id Scenario.two_platforms) with "p1" in Hstore.
    by rewrite Hstore.
Defined.



(** X6: a dispatch that returns has called the publisher once for each
    target platform on which the owner has a connected account, in the
    order of the target list, and for no other platform; without an
    owner it calls none. *)
Theorem publisher_called_for_connected_only env post user w post' w' :
  Scheduler.publishPost env post user w = (Returned post', w') ->
  exists evs,
    trace w' = trace w ++ evs
    /\ publish_calls evs
       = owed_calls user (Post._id post) (Post.platforms post)
    /\ (user = None -> publish_calls evs = []).
Proof.
  intros Hrun.
  destruct (publishPost_effects env post user w post' w' Hrun)
    as (new_logs & evs & _ & _ & _ & _ & _ & Htr & Hcalls).
  eexists. split; [exact Htr|].
  assert (Hc : publish_calls
                 ([Console (Publishing (Post._id post) (Post.platforms post));
                   PostSaved (posting (now w) post)] ++ evs ++ [PostSaved post'])
               = owed_calls user (Post._id post) (Post.platforms post)).
  { rewrite !publish_calls_app, Hcalls. cbn. by rewrite app_nil_r. }
  split; [exact Hc|]. intros ->. rewrite Hc. unfold owed_calls.
  clear. induction (Post.platforms post) as [|pf pls IH]; [reflexivity|].
  rewrite filter_cons_False; [exact IH|]. cbn. discriminate.
Qed.

Lemma publisher_called_for_connected_only_witness :
  let run := Scheduler.publishPost Scenario.env0 Scenario.two_platforms
               (Some Scenario.alice) Scenario.world0 in
  publish_calls (trace (snd run)) = [("twitter", "p1")].
Proof.
  intros run.
  destruct (publisher_called_for_connected_only Scenario.env0
              Scenario.two_platforms (Some Scenario.alice) Scenario.world0
              (Scenario.returned_post Scenario.two_platforms run) (snd run))
    as (evs & Htr & Hcalls & _).
  - vm_compute. reflexivity.
  - rewrite Htr, publish_calls_app, Hcalls. vm_compute. reflexivity.
Defined.

(** ** Ticks *)

(** X7: when the due-post query throws, the tick returns all the same:
    the error goes to the console, no post is dispatched, and posts,
    users and attempt log are as before. *)
Theorem tick_survives_query_failure env w e :
  find_due env (posts w) (users w) (now w) = Thrown e ->
  exists w',
    Scheduler.processScheduledPosts env w = (Returned tt, w')
    /\ posts w' = posts w /\ users w' = users w /\ logs w' = logs w
    /\ trace w' = trace w ++ [Console (ProcessingFailed e)].
Proof.
  intros Hfind.
  unfold Scheduler.processScheduledPosts, try_catch, bind at 1, newDate.
  cbn beta iota. unfold bind at 1, Post_find_due, await_io. cbn beta iota.
  rewrite Hfind. cbn beta iota. unfold console_log, emit. cbn.
  eexists. by repeat split.
Qed.

Lemma tick_survives_query_failure_witness :
  exists w',
    Scheduler.processScheduledPosts Cases.env_query_fails Scenario.world0
    = (Returned tt, w')
    /\ posts w' = posts Scenario.world0 /\ users w' = users Scenario.world0
    /\ logs w' = logs Scenario.world0
    /\ trace w' = trace Scenario.world0
                  ++ [Console (ProcessingFailed (mkError "store unavailable" None))].
Proof.
  apply (tick_survives_query_failure Cases.env_query_fails Scenario.world0).
  reflexivity.
Defined.

Section TickFacts.

Variable env : Env.

(** The loop of the tick leaves the users alone, and every post whose
    id is not in the list. *)
Lemma tick_loop_frame l :
  forall w r w',
    forEach (fun _ '(post, user) => Scheduler.publishPost env post user ;; ret tt)
            l tt w = (r, w') ->
    users w' = users w
    /\ (now w <= now w')%Z
    /\ logs w `prefix_of` logs w'
    /\ forall k, k ∉ returned_ids l -> posts w' !! k = posts w !! k.
Proof.
  induction l as [|[post user] l IH]; intros w r w'.
  - intros [= <- <-]. repeat split; try done; lia.
  - cbn [forEach]. unfold bind at 1. unfold bind at 1.
    destruct (Scheduler.publishPost env post user w) as [[p|e] w1] eqn:Hrun;
      destruct (publishPost_frame env post user w _ w1 Hrun)
        as (Hu1 & Hn1 & Hl1 & _ & Hk1 & _).
    + unfold ret at 1. intros Hrest.
      destruct (IH w1 r w' Hrest) as (Hu2 & Hn2 & Hl2 & Hk2).
      split; [congruence|]. split; [lia|]. split; [by etrans|].
      intros k Hk. apply not_elem_of_cons in Hk as [Hne Hk].
      rewrite (Hk2 k Hk). by apply Hk1.
    + intros [= <- <-]. split; [exact Hu1|]. split; [exact Hn1|].
      split; [exact Hl1|].
      intros k Hk. apply not_elem_of_cons in Hk as [Hne Hk]. by apply Hk1.
Qed.

(** A post returned by a dispatch that began at or after [d] is not
    due at [d]: it is [posted], [failed], or rescheduled 15 minutes
    after an instant that is not before [d]. *)
Lemma dispatched_not_due post user w post' w' d :
  Scheduler.publishPost env post user w = (Returned post', w') ->
  (d <= now w)%Z -> due d post' = false.
Proof.
  intros Hrun Hd.
  destruct (publishPost_returned env post user w post' w' Hrun)
    as (new & t & evs & _ & -> & Ht & _).
  unfold final_post, due.
  destruct (0 <? successes new)%nat; cbn; [by rewrite andb_false_r|].
  destruct (Post.retryCount post + 1 <? 3)%Z; cbn; [|by rewrite andb_false_r].
  replace (t + 15 * 60 * 1000 <=? d)%Z with false; [reflexivity|].
  symmetry. apply Z.leb_gt. lia.
Qed.

(** With a store that accepts every save, after the loop each listed
    id holds a document that is not due at [d]. *)
Lemma tick_loop_clears l d :
  (forall p t, post_save_error env p t = None) ->
  NoDup (returned_ids l) ->
  forall w r w',
    (d <= now w)%Z ->
    forEach (fun _ '(post, user) => Scheduler.publishPost env post user ;; ret tt)
            l tt w = (r, w') ->
    forall k, k ∈ returned_ids l ->
      exists p', posts w' !! k = Some p' /\ Post._id p' = k /\ due d p' = false.
Proof.
  intros Hup. induction l as [|[post user] l IH]; intros Hnd w r w' Hd.
  - intros _ k Hk. by apply elem_of_nil in Hk.
  - cbn [forEach]. unfold bind at 1. unfold bind at 1.
    destruct (publishPost_total env post user w Hup) as (p & w1 & Hrun).
    rewrite Hrun. unfold ret at 1. intros Hrest k Hk.
    apply NoDup_cons in Hnd as [Hfresh Hnd].
    destruct (publishPost_frame env post user w _ w1 Hrun)
      as (_ & Hn1 & _ & _ & _ & Hstored).
    apply elem_of_cons in Hk as [->|Hk].
    + destruct (tick_loop_frame l w1 r w' Hrest) as (_ & _ & _ & Hframe).
      exists p. rewrite (Hframe _ Hfresh). split; [exact Hstored|]. split.
      * destruct (publishPost_returned env post user w p w1 Hrun)
          as (new & t & evs & _ & -> & _).
        by rewrite final_post_id.
      * by apply (dispatched_not_due post user w p w1).
    + apply (IH Hnd w1 r w'); [lia|exact Hrest|exact Hk].
Qed.

End TickFacts.

(** The store's own answer lists every due post of the store. *)
Lemma mongo_find_due_complete ps us d l k p :
  mongo_find_due ps us d = Returned l -> ps !! k = Some p -> due d p = true ->
  (p, us !! Post.userId p) ∈ l.
Proof.
  intros [= <-] Hk Hdue.
  apply list_elem_of_fmap. exists p. split; [reflexivity|].
  apply list_elem_of_filter. split; [exact Hdue|].
  apply list_elem_of_fmap. exists (k, p). split; [reflexivity|].
  by apply elem_of_map_to_list.
Qed.

(** X8: a tick leaves the users and every post that the query did not
    return as they were, and keeps what the attempt log held. *)
Theorem tick_touches_returned_posts_only env w l :
  find_due env (posts w) (users w) (now w) = Returned l ->
  users (snd (Scheduler.processScheduledPosts env w)) = users w
  /\ logs w `prefix_of` logs (snd (Scheduler.processScheduledPosts env w))
  /\ forall k, k ∉ returned_ids l ->
       posts (snd (Scheduler.processScheduledPosts env w)) !! k = posts w !! k.
Proof.
  intros Hfind. rewrite (processScheduledPosts_run env w l Hfind).
  match goal with
  | |- context [forEach ?f l tt ?w1] =>
      destruct (forEach f l tt w1) as [r w'] eqn:Hloop
  end.
  destruct (tick_loop_frame env l _ _ _ Hloop) as (Hu & _ & Hl & Hk).
  cbn [now posts users logs trace] in *.
  destruct r as [[]|e]; cbn [snd posts users logs]; by repeat split.
Qed.

Lemma tick_touches_returned_posts_only_witness :
  posts (snd (Scheduler.processScheduledPosts Scenario.env0 Scenario.world0))
    !! "p4" = Some Scenario.published.
Proof.
  destruct (tick_touches_returned_posts_only Scenario.env0 Scenario.world0
              [(Scenario.two_platforms, Some Scenario.alice)])
    as (_ & _ & Hk).
  - vm_compute. reflexivity.
  - rewrite Hk; [vm_compute; reflexivity|].
    intros Hin. apply elem_of_cons in Hin as [Hin|Hin]; [discriminate|].
    by apply elem_of_nil in Hin.
Defined.

(** X9: over a store that answers the due-post query itself, keeps
    every post under its id and accepts every save, a tick at the
    instant [d] leaves no post due at [d]: each due post has been
    dispatched and is now [posted], [failed] or rescheduled later. *)
Theorem tick_clears_due_posts env w :
  find_due env = mongo_find_due ->
  (forall p t, post_save_error env p t = None) ->
  keyed_by_id (posts w) ->
  forall k p,
    posts (snd (Scheduler.processScheduledPosts env w)) !! k = Some p ->
    due (now w) p = false.
Proof.
  intros Hfind Hup Hkey k p Hstored.
  destruct (mongo_find_due (posts w) (users w) (now w)) as [l|e] eqn:Hl;
    [|discriminate].
  pose proof (mongo_find_due_NoDup _ _ _ _ Hkey Hl) as Hnd.
  assert (Hl' : find_due env (posts w) (users w) (now w) = Returned l)
    by (by rewrite Hfind).
  rewrite (processScheduledPosts_run env w l Hl') in Hstored.
  match type of Hstored with
  | context [forEach ?f l tt ?w1] =>
      destruct (tick_loop_total env l Hup w1) as (w' & Hloop);
      pose proof (tick_loop_frame env l _ _ _ Hloop) as (_ & _ & _ & Hframe);
      pose proof (tick_loop_clears env l (now w) Hup Hnd w1 (Returned tt) w') as Hclear;
      rewrite Hloop in Hstored
  end.
  cbn [snd now posts] in *.
  destruct (decide (k ∈ returned_ids l)) as [Hin|Hout].
  - destruct (Hclear ltac:(lia) Hloop k Hin) as (p' & Hp' & _ & Hdue).
    rewrite Hp' in Hstored. by injection Hstored as <-.
  - rewrite (Hframe k Hout) in Hstored.
    destruct (due (now w) p) eqn:Hdue; [|reflexivity].
    exfalso. apply Hout.
    pose proof (mongo_find_due_complete _ _ _ _ _ _ Hl Hstored Hdue) as Hin.
    unfold returned_ids. apply list_elem_of_fmap.
    eexists. split; [|exact Hin]. simpl. symmetry. by apply Hkey.
Qed.

Lemma tick_clears_due_posts_witness :
  due 5000 Scenario.two_platforms = true
  /\ forall k p,
       posts (snd (Scheduler.processScheduledPosts Scenario.env0 Scenario.world0))
         !! k = Some p ->
       due (now Scenario.world0) p = false.
Proof.
  split; [reflexivity|].
  apply (tick_clears_due_posts Scenario.env0 Scenario.world0).
  - reflexivity.
  - reflexivity.
  - intros k p Hk. unfold Scenario.world0 in Hk. cbn [posts] in Hk.
    apply lookup_insert_Some in Hk as [[<- <-]|[_ Hk]]; [reflexivity|].
    apply lookup_insert_Some in Hk as [[<- <-]|[_ Hk]]; [reflexivity|].
    by rewrite lookup_empty in Hk.
Defined.

(** ** The manual trigger *)

(** [schedulePost] step by step: the three ways it refuses, and what it
    makes of the dispatch otherwise. *)
Lemma schedulePost_run env postId w :
  let w1 := mkWorld (now w + Z.of_N (elapsed env (now w))) (posts w) (users w)
              (logs w) (trace w) in
  Scheduler.schedulePost env postId w =
  match query_error env postId (now w) with
  | Some e => (Returned (ManualResult.mk false None (Some (message e))), w1)
  | None =>
      match posts w !! postId with
      | None => (Returned (ManualResult.mk false None (Some "Post not found")), w1)
      | Some p =>
          if Post.status p =? "scheduled" then
            match Scheduler.publishPost env p (users w !! Post.userId p) w1 with
            | (Returned _, w') =>
                (Returned (ManualResult.mk true
                             (Some "Post published successfully") None), w')
            | (Thrown e, w') =>
                (Returned (ManualResult.mk false None (Some (message e))), w')
            end
          else
            (Returned (ManualResult.mk false None
                         (Some "Post is not in scheduled status")), w1)
      end
  end.
Proof.
  intros w1. subst w1. unfold Scheduler.schedulePost, try_catch, bind at 1.
  unfold Scheduler.Post_findById_populated, bind at 1, await_io, throw.
  cbn beta iota.
  destruct (query_error env postId (now w)) as [e|]; [reflexivity|].
  cbn [posts users]. destruct (posts w !! postId) as [p|]; [|reflexivity].
  cbn [fmap option_fmap option_map].
  destruct (Post.status p =? "scheduled"); [|reflexivity].
  cbn [negb]. unfold bind.
  by destruct (Scheduler.publishPost env p (users w !! Post.userId p) _)
    as [[p'|e] w'].
Qed.

(** X10: the manual trigger never throws, and it dispatches nothing
    unless the post exists with status [scheduled]: for a missing post,
    or one that is [draft], [posting], [posted] or [failed], it answers
    [success: false] with an error, and posts, users, attempt log and
    events are as before. *)
Theorem manual_trigger_refuses_unscheduled env postId w :
  (forall p, posts w !! postId = Some p -> Post.status p <> "scheduled") ->
  exists res w',
    Scheduler.schedulePost env postId w = (Returned res, w')
    /\ ManualResult.success res = false
    /\ is_Some (ManualResult.error res)
    /\ posts w' = posts w /\ users w' = users w /\ logs w' = logs w
    /\ trace w' = trace w.
Proof.
  intros Hguard. rewrite schedulePost_run. cbv zeta.
  destruct (query_error env postId (now w)) as [e|].
  { eexists _, _. by repeat split. }
  destruct (posts w !! postId) as [p|] eqn:Hp.
  - specialize (Hguard p eq_refl). apply String.eqb_neq in Hguard.
    rewrite Hguard. eexists _, _. by repeat split.
  - eexists _, _. by repeat split.
Qed.

Lemma manual_trigger_refuses_unscheduled_witness :
  exists res w',
    Scheduler.schedulePost Scenario.env0 "p4" Scenario.world0 = (Returned res, w')
    /\ ManualResult.success res = false
    /\ is_Some (ManualResult.error res)
    /\ posts w' = posts Scenario.world0 /\ users w' = users Scenario.world0
    /\ logs w' = logs Scenario.world0
    /\ trace w' = trace Scenario.world0.
Proof.
  apply (manual_trigger_refuses_unscheduled Scenario.env0 "p4" Scenario.world0).
  intros p Hp. vm_compute in Hp. injection Hp as <-. discriminate.
Defined.

(** X11: for a stored post with status [scheduled], the manual trigger
    runs the dispatcher on it with its owner looked up, and answers by
    the completion of the dispatch alone: [success: true] whenever the
    dispatch returned, also when every platform failed and the post is
    back to [scheduled] or [failed]; [success: false] with the message
    of the error when a save was rejected.  It never throws. *)
Theorem manual_trigger_reports_completion env postId w p :
  posts w !! postId = Some p ->
  Post.status p = "scheduled" ->
  query_error env postId (now w) = None ->
  let w1 := mkWorld (now w + Z.of_N (elapsed env (now w))) (posts w) (users w)
              (logs w) (trace w) in
  exists res,
    Scheduler.schedulePost env postId w
    = (Returned res, snd (Scheduler.publishPost env p (users w !! Post.userId p) w1))
    /\ match fst (Scheduler.publishPost env p (users w !! Post.userId p) w1) with
       | Returned post' =>
           res = ManualResult.mk true (Some "Post published successfully") None
           /\ (Post.status post' = "posted"
               <-> (0 < successes (appended p post'))%nat)
       | Thrown e =>
           res = ManualResult.mk false None (Some (message e))
           /\ exists q t, post_save_error env q t = Some e
       end.
Proof.
  intros Hp Hst Hq w1. rewrite schedulePost_run. cbv zeta. fold w1.
  rewrite Hq, Hp, Hst. cbn [String.eqb Ascii.eqb Bool.eqb].
  replace ("scheduled" =? "scheduled") with true by reflexivity.
  destruct (Scheduler.publishPost env p (users w !! Post.userId p) w1)
    as [[post'|e] w'] eqn:Hrun; cbn [fst snd]; eexists; (split; [reflexivity|]).
  - split; [reflexivity|].
    destruct (publishPost_returned env p _ w1 post' w' Hrun)
      as (new & t & evs & _ & -> & _).
    rewrite appended_final. unfold final_post.
    destruct (0 <? successes new)%nat eqn:E.
    + apply Nat.ltb_lt in E. by split.
    + apply Nat.ltb_ge in E. cbn.
      destruct (Post.retryCount p + 1 <? 3)%Z; cbn;
        (split; [discriminate|lia]).
  - split; [reflexivity|]. by apply publishPost_thrown in Hrun.
Qed.

Lemma manual_trigger_reports_completion_witness :
  let w0 := mkWorld 5000 {[ "p2" := Scenario.last_chance ]}
              {[ "u1" := Scenario.alice ]} [] [] in
  let run := Scheduler.schedulePost Scenario.env0 "p2" w0 in
  fst run = Returned (ManualResult.mk true (Some "Post published successfully") None)
  /\ (Post.status <$> posts (snd run) !! "p2") = Some "failed".
Proof.
  intros w0 run.
  destruct (manual_trigger_reports_completion Scenario.env0 "p2" w0
              Scenario.last_chance) as (res & Hrun & _).
  - vm_compute. reflexivity.
  - reflexivity.
  - reflexivity.
  - split; vm_compute; reflexivity.
Defined.

(** ** The mock service under the dispatcher *)

Lemma mock_publishPost_known platform accountInfo content t :
  match SocialMedia.publishPost platform accountInfo content t with
  | Returned res =>
      known_platform platform = true /\ SocialMedia.platform res = platform
  | Thrown e =>
      known_platform platform = false
      /\ message e = "Unsupported platform: " +:+ platform
  end.
Proof.
  unfold SocialMedia.publishPost, known_platform.
  destruct (platform =? "twitter") eqn:E1;
    [apply String.eqb_eq in E1 as ->; by split|].
  destruct (platform =? "linkedin") eqn:E2;
    [apply String.eqb_eq in E2 as ->; by split|].
  destruct (platform =? "instagram") eqn:E3;
    [apply String.eqb_eq in E3 as ->; by split|].
  by split.
Qed.

Lemma successes_positive (P : string -> bool) pls new :
  Forall2 (fun platform r => PlatformResult.success r = P platform) pls new ->
  (0 < successes new)%nat <-> exists platform, platform ∈ pls /\ P platform = true.
Proof.
  induction 1 as [|pf r pls new Hr _ IH].
  - split; [unfold successes; simpl; lia|]. intros (pf & Hin & _).
    by apply elem_of_nil in Hin.
  - rewrite successes_cons, Hr. split.
    + destruct (P pf) eqn:E.
      * intros _. exists pf. split; [by left|exact E].
      * intros Hpos. destruct IH as [IH _].
        destruct (IH ltac:(lia)) as (q & Hq & HP). exists q. split; [by right|done].
    + intros (q & Hq & HP). apply elem_of_cons in Hq as [->|Hq].
      * rewrite HP. lia.
      * destruct IH as [_ IH]. specialize (IH (ex_intro _ q (conj Hq HP))).
        destruct (P pf); lia.
Qed.

(** X12: under the repository's mock service, an attempt succeeds
    exactly when the platform is twitter, linkedin or instagram and the
    owner has a connected account for it; so a dispatch that returns
    ends [posted] exactly when some target platform is such. *)
Theorem mock_service_outcomes env post user w post' w' :
  mock_publisher env ->
  Scheduler.publishPost env post user w = (Returned post', w') ->
  Forall2 (fun platform r =>
             PlatformResult.success r
             = known_platform platform && connected user platform)
          (Post.platforms post) (appended post post')
  /\ (Post.status post' = "posted"
      <-> exists platform,
            platform ∈ Post.platforms post
            /\ known_platform platform && connected user platform = true).
Proof.
  intros Hmock Hrun.
  destruct (publishPost_returned env post user w post' w' Hrun)
    as (new & t & evs & Hrec & -> & _).
  rewrite appended_final.
  assert (Hall : Forall2 (fun platform r =>
                            PlatformResult.success r
                            = known_platform platform && connected user platform)
                         (Post.platforms post) new).
  { eapply Forall2_impl; [exact Hrec|]. intros pf r (_ & _ & Hcase).
    unfold connected. destruct user as [u|]; [|by rewrite andb_false_r].
    destruct (User.connectedAccounts u !! pf) as [a|];
      [|destruct Hcase as [-> _]; by rewrite andb_false_r].
    destruct Hcase as (t0 & Hcase).
    destruct (Hmock pf a (content_of post) t0) as (t' & Heq). rewrite Heq in Hcase.
    pose proof (mock_publishPost_known pf a (content_of post) t') as Hk.
    destruct (SocialMedia.publishPost pf a (content_of post) t').
    - destruct Hk as [-> _]. by destruct Hcase as [-> _].
    - destruct Hk as [-> _]. by destruct Hcase as [-> _]. }
  split; [exact Hall|].
  rewrite <- (successes_positive _ _ _ Hall).
  unfold final_post. destruct (0 <? successes new)%nat eqn:E.
  - apply Nat.ltb_lt in E. by split.
  - apply Nat.ltb_ge in E. cbn.
    destruct (Post.retryCount post + 1 <? 3)%Z; cbn; (split; [discriminate|lia]).
Qed.

Lemma mock_service_outcomes_witness :
  let run := Scheduler.publishPost Scenario.env0 Scenario.two_platforms
               (Some Scenario.alice) Scenario.world0 in
  let post' := Scenario.returned_post Scenario.two_platforms run in
  Post.status post' = "posted".
Proof.
  intros run post'.
  destruct (mock_service_outcomes Scenario.env0 Scenario.two_platforms
              (Some Scenario.alice) Scenario.world0 post' (snd run))
    as (_ & _ & Hposted).
  - intros pf a c t. by eexists.
  - vm_compute. reflexivity.
  - apply Hposted. exists "twitter". split; [by left|reflexivity].
Defined.

(** ** Content validation on the known platforms *)

Lemma getPlatformLimits_cases platform :
  (known_platform platform = true
   /\ exists a b c, SocialMedia.getPlatformLimits platform
                    = SocialMedia.mkLimits (Some (S a)) (Some (S b)) (Some (S c)))
  \/ (known_platform platform = false
      /\ SocialMedia.getPlatformLimits platform = SocialMedia.mkLimits None None None).
Proof.
  unfold SocialMedia.getPlatformLimits, known_platform.
  destruct (platform =? "twitter"); [left; split; [done|by eexists _, _, _]|].
  destruct (platform =? "linkedin"); [left; split; [done|by eexists _, _, _]|].
  destruct (platform =? "instagram"); [left; split; [done|by eexists _, _, _]|].
  by right.
Qed.

(** A check against a positive limit, on a content object: it returns
    whether the length of the field exceeds the limit.  [truthy] must
    only call falsy what has length 0. *)
Lemma exceeds_positive {A} l c (field : SocialMedia.Content -> option A)
    truthy len :
  (forall o, truthy o = false -> from_option len 0%nat o = 0%nat) ->
  exists b,
    SocialMedia.exceeds (Some (S l)) (Some c) field truthy len = Returned b
    /\ (b = false <-> (from_option len 0%nat (field c) <= S l)%nat).
Proof.
  intros Hfalsy. unfold SocialMedia.exceeds. cbn [truthy_num].
  eexists. split; [reflexivity|].
  destruct (truthy (field c)) eqn:Ht.
  - destruct (field c) as [v|]; cbn [andb from_option].
    + rewrite Nat.ltb_ge. reflexivity.
    + split; [lia|reflexivity].
  - cbn [andb]. rewrite (Hfalsy _ Ht). split; [lia|reflexivity].
Qed.

Lemma exceeds_positive_oauth {A} l c (field : SocialMedia.Content -> option A) len :
  exists b,
    SocialMediaOAuth.exceeds (Some (S l)) (Some c) field len = Returned b
    /\ (b = false <-> (from_option len 0%nat (field c) <= S l)%nat).
Proof.
  unfold SocialMediaOAuth.exceeds. cbn [truthy_num].
  eexists. split; [reflexivity|].
  destruct (field c) as [v|]; cbn [from_option].
  - rewrite Nat.ltb_ge. reflexivity.
  - split; [lia|reflexivity].
Qed.

Lemma truthy_str_falsy o : truthy_str o = false -> from_option String.length 0%nat o = 0%nat.
Proof. by destruct o as [[|]|]. Qed.

Lemma truthy_arr_falsy {A} (o : option (list A)) :
  truthy_arr o = false -> from_option length 0%nat o = 0%nat.
Proof. by destruct o. Qed.

Lemma push_if_verdict b1 b2 b3 m1 m2 m3 :
  let errors := SocialMedia.push_if b3 m3
                  (SocialMedia.push_if b2 m2 (SocialMedia.push_if b1 m1 [])) in
  (Nat.eqb (length errors) 0 = true <-> b1 = false /\ b2 = false /\ b3 = false)
  /\ (Nat.eqb (length errors) 0 = true <-> errors = [])
  /\ (length errors <= 3)%nat
  /\ length errors
     = ((if b1 then 1 else 0) + (if b2 then 1 else 0) + (if b3 then 1 else 0))%nat.
Proof.
  destruct b1, b2, b3; cbn; repeat split; try done; try lia; by intros (? & ? & ?).
Qed.

(** On a content object [validateContent] returns, and its verdict is
    [isValid] exactly within the limits. *)
Lemma validateContent_on_object platform c :
  exists v,
    SocialMedia.validateContent platform (Some c) = Returned v
    /\ (SocialMedia.isValid v = true <-> within_limits platform c)
    /\ (SocialMedia.isValid v = true <-> SocialMedia.errors v = [])
    /\ (length (SocialMedia.errors v) <= 3)%nat.
Proof.
  unfold SocialMedia.validateContent, within_limits.
  destruct (getPlatformLimits_cases platform)
    as [(Hk & a & b & l & ->)|(Hk & ->)]; cbn [SocialMedia.textLimit
      SocialMedia.hashtagLimit SocialMedia.mediaLimit within].
  - destruct (exceeds_positive a c SocialMedia.text truthy_str String.length
                truthy_str_falsy) as (b1 & -> & H1).
    destruct (exceeds_positive l c SocialMedia.hashtags truthy_arr length
                truthy_arr_falsy) as (b2 & -> & H2).
    destruct (exceeds_positive b c SocialMedia.media truthy_arr length
                truthy_arr_falsy) as (b3 & -> & H3).
    eexists. split; [reflexivity|].
    cbn [SocialMedia.isValid SocialMedia.errors].
    match goal with
    | |- context [SocialMedia.push_if b3 ?m3
                    (SocialMedia.push_if b2 ?m2 (SocialMedia.push_if b1 ?m1 []))] =>
        destruct (push_if_verdict b1 b2 b3 m1 m2 m3) as (Hv & He & Hlen & _)
    end.
    cbv zeta in Hv, He, Hlen. split; [|by split].
    rewrite Hv, H1, H2, H3. reflexivity.
  - eexists. split; [reflexivity|].
    unfold SocialMedia.push_if. cbn. repeat split; try done; lia.
Qed.

(** X13: on a content object [validateContent] never throws; its
    verdict is [isValid] exactly when the text, the hashtags and the
    media are within the limits of the platform (an absent field counts
    as empty), exactly when it lists no error, and it lists at most
    three.  On a missing content ([null]) it throws exactly for the
    three known platforms. *)
Theorem validateContent_verdict platform c :
  (exists v,
     SocialMedia.validateContent platform (Some c) = Returned v
     /\ (SocialMedia.isValid v = true <-> within_limits platform c)
     /\ (SocialMedia.isValid v = true <-> SocialMedia.errors v = [])
     /\ (length (SocialMedia.errors v) <= 3)%nat)
  /\ match SocialMedia.validateContent platform None with
     | Returned _ => known_platform platform = false
     | Thrown _ => known_platform platform = true
     end.
Proof.
  split; [apply validateContent_on_object|].
  unfold SocialMedia.validateContent.
  destruct (getPlatformLimits_cases platform)
    as [(Hk & a & b & l & ->)|(Hk & ->)]; by rewrite Hk.
Qed.

(** X14: the two versions of the service judge alike.  For every
    platform and every content, missing or not, both throw or both
    return, with the same [isValid] and the same number of errors. *)
Theorem validateContent_versions_agree platform content :
  same_verdict (SocialMedia.validateContent platform content)
               (SocialMediaOAuth.validateContent platform content).
Proof.
  unfold SocialMedia.validateContent, SocialMediaOAuth.validateContent.
  change (SocialMediaOAuth.getPlatformLimits platform)
    with (SocialMedia.getPlatformLimits platform).
  destruct (getPlatformLimits_cases platform)
    as [(Hk & a & b & l & ->)|(Hk & ->)]; cbn [SocialMedia.textLimit
      SocialMedia.hashtagLimit SocialMedia.mediaLimit];
    [|by split].
  destruct content as [c|]; [|exact I].
  destruct (exceeds_positive a c SocialMedia.text truthy_str String.length
              truthy_str_falsy) as (b1 & -> & H1).
  destruct (exceeds_positive l c SocialMedia.hashtags truthy_arr length
              truthy_arr_falsy) as (b2 & -> & H2).
  destruct (exceeds_positive b c SocialMedia.media truthy_arr length
              truthy_arr_falsy) as (b3 & -> & H3).
  destruct (exceeds_positive_oauth a c SocialMedia.text String.length)
    as (b1' & -> & H1').
  destruct (exceeds_positive_oauth l c SocialMedia.hashtags length)
    as (b2' & -> & H2').
  destruct (exceeds_positive_oauth b c SocialMedia.media length)
    as (b3' & -> & H3').
  assert (Hsame : forall (x y : bool) (P : Prop),
            (x = false <-> P) -> (y = false <-> P) -> y = x).
  { intros [] [] P [Hx Hx'] [Hy Hy']; try reflexivity.
    - by rewrite (Hx' (Hy eq_refl)).
    - by rewrite (Hy' (Hx eq_refl)). }
  assert (E1 : b1' = b1) by (by eapply Hsame).
  assert (E2 : b2' = b2) by (by eapply Hsame).
  assert (E3 : b3' = b3) by (by eapply Hsame).
  subst. cbn [same_verdict SocialMedia.isValid SocialMedia.errors].
  repeat match goal with
  | |- context [SocialMedia.push_if b3 ?m3
                  (SocialMedia.push_if b2 ?m2 (SocialMedia.push_if b1 ?m1 []))] =>
      let H := fresh "Hlen" in
      destruct (push_if_verdict b1 b2 b3 m1 m2 m3) as (_ & _ & _ & H);
      cbv zeta in H; rewrite H; clear H
  end.
  by split.
Qed.

(** ** The post API: updates and deletions *)

Lemma within_text_only platform text :
  within_limits platform (SocialMedia.text_only text)
  <-> within (SocialMedia.textLimit (SocialMedia.getPlatformLimits platform))
             (String.length text).
Proof.
  unfold within_limits. cbn.
  destruct (getPlatformLimits_cases platform)
    as [(_ & a & b & l & ->)|(_ & ->)]; cbn; split; try tauto;
    intros H; repeat split; try exact H; lia.
Qed.

(** The loop over the platforms to validate: it never throws, and it
    lets the text through exactly when it is within the text limit of
    every platform; otherwise it answers with an error. *)
Lemma validate_all_spec text l w :
  exists r,
    Routes.validate_all text l w = (Returned r, w)
    /\ (r = None
        <-> Forall (fun platform =>
                      within (SocialMedia.textLimit
                                (SocialMedia.getPlatformLimits platform))
                             (String.length text)) l)
    /\ (forall resp, r = Some resp -> is_error resp).
Proof.
  induction l as [|pf l IH].
  - exists None. split; [reflexivity|]. split; [by split|discriminate].
  - cbn [Routes.validate_all].
    destruct (validateContent_on_object pf (SocialMedia.text_only text))
      as (v & -> & Hv & _).
    rewrite within_text_only in Hv.
    destruct (SocialMedia.isValid v) eqn:E; cbn [negb].
    + destruct IH as (r & -> & Hr & Herr). exists r.
      split; [reflexivity|]. split; [|exact Herr].
      rewrite Hr. split.
      * intros H. constructor; [by apply Hv|exact H].
      * intros H. by apply Forall_cons in H as [_ H].
    + eexists. split; [reflexivity|]. split.
      * split; [discriminate|]. intros H. apply Forall_cons in H as [H _].
        apply Hv in H. discriminate.
      * intros resp [= <-]. split; [simpl; lia|eauto].
Qed.

Section PostApi.

Variable env : Env.
Variable isISO8601 : string -> bool.
Variable parseDate : string -> Z.

(** Every PUT is answered, and it is all or nothing: an error and the
    Post collection as it was, or 200 and one post rewritten. *)
Lemma put_id_cases req w :
  exists resp w',
    Routes.put_id env isISO8601 parseDate req w = (Returned resp, w')
    /\ users w' = users w /\ logs w' = logs w
    /\ ((is_error resp /\ posts w' = posts w)
        \/ exists p u,
             Routes.statusCode resp = 200%nat
             /\ Routes.json resp
                = Routes.PostJson "Post updated successfully"
                                  (Routes.apply_updates u p)
             /\ Routes.validate_put isISO8601 (Routes.body req) = []
             /\ posts w !! Routes.id req = Some p
             /\ Post.userId p = Routes.userId req
             /\ Post.status p <> "posted"
             /\ posts w' = <[Routes.id req := Routes.apply_updates u p]> (posts w)
             /\ (forall s, Routes.u_status u = Some s ->
                           Routes.status (Routes.body req) = Some s)
             /\ (forall t, Routes.u_text u = Some t -> t <> EmptyString)
             /\ Routes.u_platforms u = Routes.platforms (Routes.body req)
             /\ ((Routes.u_text u = None /\ Routes.u_platforms u = None)
                 \/ text_fits (Routes.apply_updates u p))).
Proof.
  unfold Routes.put_id, try_catch.
  destruct (Routes.validate_put isISO8601 (Routes.body req)) as [|m ms] eqn:Hval.
  2: { cbn. eexists _, _. split; [reflexivity|]. repeat split.
       left. split; [|reflexivity]. split; [simpl; lia|eauto]. }
  cbn [length Nat.eqb negb].
  unfold bind at 1, Routes.Post_findOne, bind, await_io, throw. cbn beta iota.
  destruct (query_error env _ _) as [e|].
  { unfold console_log, emit, ret. cbn. eexists _, _. split; [reflexivity|].
    repeat split. left. split; [|reflexivity]. split; [simpl; lia|eauto]. }
  cbn [posts]. destruct (posts w !! Routes.id req) as [p|] eqn:Hp.
  2: { cbn. eexists _, _. split; [reflexivity|]. repeat split.
       left. split; [|reflexivity]. split; [simpl; lia|eauto]. }
  destruct (Post.userId p =? Routes.userId req) eqn:Howner.
  2: { cbn. eexists _, _. split; [reflexivity|]. repeat split.
       left. split; [|reflexivity]. split; [simpl; lia|eauto]. }
  destruct (Post.status p =? "posted") eqn:Hposted.
  { cbn. eexists _, _. split; [reflexivity|]. repeat split.
    left. split; [|reflexivity]. split; [simpl; lia|eauto]. }
  apply String.eqb_eq in Howner. apply String.eqb_neq in Hposted.
  set (u := Routes.mkUpdates _ _ _ _).
  match goal with
  | |- context [if ?c then Routes.validate_all ?t ?l else ret None] =>
      assert (Hcheck : exists r,
                (if c then Routes.validate_all t l else ret None)
                  (mkWorld (now w + Z.of_N (elapsed env (now w))) (posts w)
                     (users w) (logs w) (trace w))
                = (Returned r, mkWorld (now w + Z.of_N (elapsed env (now w)))
                                 (posts w) (users w) (logs w) (trace w))
                /\ (forall resp, r = Some resp -> is_error resp)
                /\ (r = None ->
                    (Routes.u_text u = None /\ Routes.u_platforms u = None)
                    \/ text_fits (Routes.apply_updates u p)))
  end.
  { destruct (truthy_str (Routes.u_text u) || truthy_arr (Routes.u_platforms u))
      eqn:Hany.
    - match goal with
      | |- context [Routes.validate_all ?t ?l] =>
          destruct (validate_all_spec t l
                      (mkWorld (now w + Z.of_N (elapsed env (now w))) (posts w)
                         (users w) (logs w) (trace w)))
            as (r & -> & Hr & Herr)
      end.
      exists r. split; [reflexivity|]. split; [exact Herr|].
      intros Hnone. right. apply Hr in Hnone. unfold text_fits.
      assert (Ht : Post.text (Routes.apply_updates u p)
                   = from_option (fun s => s) (Post.text p) (Routes.u_text u)).
      { unfold Routes.apply_updates.
        by destruct (Routes.u_text u), (Routes.u_platforms u),
          (Routes.u_scheduledAt u), (Routes.u_status u). }
      assert (Hl : Post.platforms (Routes.apply_updates u p)
                   = from_option (fun l => l) (Post.platforms p)
                       (Routes.u_platforms u)).
      { unfold Routes.apply_updates.
        by destruct (Routes.u_text u), (Routes.u_platforms u),
          (Routes.u_scheduledAt u), (Routes.u_status u). }
      by rewrite Ht, Hl.
    - exists None. split; [reflexivity|]. split; [discriminate|].
      intros _. left. apply orb_false_iff in Hany as [H1 H2].
      split.
      + subst u. cbn in *.
        destruct (truthy_str (Routes.content (Routes.body req))) eqn:E;
          [congruence|reflexivity].
      + by destruct (Routes.u_platforms u). }
  destruct Hcheck as (r & Hrun & Herr & Hfits).
  rewrite Hrun.
  destruct r as [resp|].
  { unfold ret. eexists _, _. split; [reflexivity|]. repeat split.
    left. split; [by apply Herr|reflexivity]. }
  unfold Routes.Post_findByIdAndUpdate, bind, await_io, throw.
  cbn beta iota. cbn [now posts users logs trace].
  destruct (query_error env _ _) as [e|].
  { unfold console_log, emit, ret. cbn. eexists _, _. split; [reflexivity|].
    repeat split. left. split; [|reflexivity]. split; [simpl; lia|eauto]. }
  cbn [now posts users logs trace].
  rewrite Hp. cbn [fmap option_fmap option_map]. unfold ret.
  eexists _, _. split; [reflexivity|]. cbn [users logs posts].
  repeat split. right. exists p, u. repeat split; try done.
  - cbn [posts]. apply map_eq. intros k. rewrite lookup_alter, lookup_insert.
    destruct (decide (Routes.id req = k)) as [<-|]; [by rewrite Hp|reflexivity].
  - subst u. cbn [Routes.u_status]. intros s.
    by destruct (truthy_str (Routes.status (Routes.body req))).
  - subst u. cbn [Routes.u_text]. intros t.
    destruct (Routes.content (Routes.body req)) as [[|c t']|]; cbn;
      intros [= <-]; discriminate.
  - by apply Hfits.
Qed.

(** Every DELETE is answered: an error and the collection as it was,
    or 200 and the post gone. *)
Lemma delete_id_cases req w :
  exists resp w',
    Routes.delete_id env req w = (Returned resp, w')
    /\ users w' = users w /\ logs w' = logs w
    /\ ((is_error resp /\ posts w' = posts w)
        \/ exists p,
             Routes.statusCode resp = 200%nat
             /\ posts w !! Routes.id req = Some p
             /\ Post.userId p = Routes.userId req
             /\ Post.status p <> "posted"
             /\ posts w' = delete (Routes.id req) (posts w)).
Proof.
  unfold Routes.delete_id, try_catch.
  unfold bind at 1, Routes.Post_findOne, bind, await_io, throw. cbn beta iota.
  destruct (query_error env _ _) as [e|].
  { unfold console_log, emit, ret. cbn. eexists _, _. split; [reflexivity|].
    repeat split. left. split; [|reflexivity]. split; [simpl; lia|eauto]. }
  cbn [posts]. destruct (posts w !! Routes.id req) as [p|] eqn:Hp.
  2: { cbn. eexists _, _. split; [reflexivity|]. repeat split.
       left. split; [|reflexivity]. split; [simpl; lia|eauto]. }
  destruct (Post.userId p =? Routes.userId req) eqn:Howner.
  2: { cbn. eexists _, _. split; [reflexivity|]. repeat split.
       left. split; [|reflexivity]. split; [simpl; lia|eauto]. }
  destruct (Post.status p =? "posted") eqn:Hposted.
  { cbn. eexists _, _. split; [reflexivity|]. repeat split.
    left. split; [|reflexivity]. split; [simpl; lia|eauto]. }
  apply String.eqb_eq in Howner. apply String.eqb_neq in Hposted.
  unfold Routes.Post_findByIdAndDelete, bind, await_io, throw.
  cbn beta iota. cbn [now posts users logs trace].
  destruct (query_error env _ _) as [e|].
  { unfold console_log, emit, ret. cbn. eexists _, _. split; [reflexivity|].
    repeat split. left. split; [|reflexivity]. split; [simpl; lia|eauto]. }
  cbn [now posts users logs trace].
  unfold ret. eexists _, _. split; [reflexivity|]. cbn [users logs posts].
  repeat split. right. exists p. by repeat split.
Qed.

End PostApi.

Lemma apply_updates_paths u p :
  scheduler_paths (Routes.apply_updates u p) = scheduler_paths p.
Proof.
  unfold Routes.apply_updates.
  by destruct (Routes.u_text u), (Routes.u_platforms u),
    (Routes.u_scheduledAt u), (Routes.u_status u).
Qed.

Lemma apply_updates_status u p :
  Post.status (Routes.apply_updates u p)
  = from_option (fun s => s) (Post.status p) (Routes.u_status u).
Proof.
  unfold Routes.apply_updates.
  by destruct (Routes.u_text u), (Routes.u_platforms u),
    (Routes.u_scheduledAt u), (Routes.u_status u).
Qed.

(** The status a request may ask for is one of the three that the
    validation chain lets through. *)
Lemma validate_put_status isISO8601 b s :
  Routes.validate_put isISO8601 b = [] ->
  Routes.status b = Some s ->
  s = "draft" \/ s = "scheduled" \/ s = "published".
Proof.
  unfold Routes.validate_put. intros Hval Hs. rewrite Hs in Hval.
  repeat (apply app_eq_nil in Hval as [_ Hval]).
  unfold Routes.is_in in Hval. cbn [existsb] in Hval.
  destruct (String.eqb_spec s "draft"); [by left|].
  destruct (String.eqb_spec s "scheduled"); [by right; left|].
  destruct (String.eqb_spec s "published"); [by right; right|].
  discriminate.
Qed.

(** X15: a PUT answered with 200 addressed a stored post of the
    requester that was not [posted]. It replaced this post and no
    other, the answer carries the post as it is now stored, and the
    stored post still has the id, the owner, the hashtags, mentions and
    media, the retry count, the last attempt and the results it had. *)
Theorem put_rewrites_one_owned_post env isISO8601 parseDate req w resp w' :
  Routes.put_id env isISO8601 parseDate req w = (Returned resp, w') ->
  Routes.statusCode resp = 200%nat ->
  exists p p',
    posts w !! Routes.id req = Some p
    /\ Post.userId p = Routes.userId req
    /\ Post.status p <> "posted"
    /\ Routes.json resp = Routes.PostJson "Post updated successfully" p'
    /\ posts w' = <[Routes.id req := p']> (posts w)
    /\ scheduler_paths p' = scheduler_paths p.
Proof.
  intros Hrun Hok.
  destruct (put_id_cases env isISO8601 parseDate req w)
    as (resp0 & w0 & Hrun0 & _ & _ & Hcases).
  rewrite Hrun in Hrun0. injection Hrun0 as <- <-.
  destruct Hcases as [[[Hge _] _]|(p & u & _ & Hjson & _ & Hp & Hown & Hst & Hw & _)].
  { rewrite Hok in Hge. lia. }
  exists p, (Routes.apply_updates u p).
  repeat split; try done. apply apply_updates_paths.
Qed.

(** X16: a PUT and a DELETE are always answered, whatever the store
    does: with 200, or with an error of status 400 or more that left
    the Post collection as it was. *)
Theorem rejected_request_changes_nothing env isISO8601 parseDate req w :
  (exists resp w',
     Routes.put_id env isISO8601 parseDate req w = (Returned resp, w')
     /\ (Routes.statusCode resp = 200%nat
         \/ (is_error resp /\ posts w' = posts w)))
  /\ (exists resp w',
        Routes.delete_id env req w = (Returned resp, w')
        /\ (Routes.statusCode resp = 200%nat
            \/ (is_error resp /\ posts w' = posts w))).
Proof.
  split.
  - destruct (put_id_cases env isISO8601 parseDate req w)
      as (resp & w' & Hrun & _ & _ & Hcases).
    exists resp, w'. split; [exact Hrun|].
    destruct Hcases as [H|(p & u & Hok & _)]; [by right|by left].
  - destruct (delete_id_cases env req w)
      as (resp & w' & Hrun & _ & _ & Hcases).
    exists resp, w'. split; [exact Hrun|].
    destruct Hcases as [H|(p & Hok & _)]; [by right|by left].
Qed.

(** A PUT or a DELETE of one user leaves every post of every other
    user in the collection, as it was; the users and the attempt log
    are not touched either. *)
Lemma put_delete_isolate_users env isISO8601 parseDate req w o w' k q :
  Routes.put_id env isISO8601 parseDate req w = (o, w')
  \/ Routes.delete_id env req w = (o, w') ->
  posts w !! k = Some q ->
  Post.userId q <> Routes.userId req ->
  posts w' !! k = Some q /\ users w' = users w /\ logs w' = logs w.
Proof.
  intros [Hrun|Hrun] Hq Hother.
  - destruct (put_id_cases env isISO8601 parseDate req w)
      as (resp0 & w0 & Hrun0 & Hu & Hl & Hcases).
    rewrite Hrun in Hrun0. injection Hrun0 as -> ->.
    split; [|by split].
    destruct Hcases as [[_ ->]|(p & u & _ & _ & _ & Hp & Hown & _ & -> & _)];
      [exact Hq|].
    rewrite lookup_insert_ne; [exact Hq|].
    intros <-. rewrite Hp in Hq. injection Hq as ->. by apply Hother.
  - destruct (delete_id_cases env req w)
      as (resp0 & w0 & Hrun0 & Hu & Hl & Hcases).
    rewrite Hrun in Hrun0. injection Hrun0 as -> ->.
    split; [|by split].
    destruct Hcases as [[_ ->]|(p & _ & Hp & Hown & _ & ->)]; [exact Hq|].
    rewrite lookup_delete_ne; [exact Hq|].
    intros <-. rewrite Hp in Hq. injection Hq as ->. by apply Hother.
Qed.

(** No PUT and no DELETE marks a post as published by the
    scheduler: a post that is [posted] after a PUT or a DELETE was
    stored under the same id, [posted] and equal, before it. *)
Lemma put_delete_never_mark_posted env isISO8601 parseDate req w o w' k q :
  Routes.put_id env isISO8601 parseDate req w = (o, w')
  \/ Routes.delete_id env req w = (o, w') ->
  posts w' !! k = Some q ->
  Post.status q = "posted" ->
  posts w !! k = Some q.
Proof.
  intros [Hrun|Hrun] Hq Hposted.
  - destruct (put_id_cases env isISO8601 parseDate req w)
      as (resp0 & w0 & Hrun0 & _ & _ & Hcases).
    rewrite Hrun in Hrun0. injection Hrun0 as -> ->.
    destruct Hcases
      as [[_ Hw]|(p & u & _ & _ & Hval & Hp & _ & Hst & Hw & Hus & _)];
      rewrite Hw in Hq; [exact Hq|].
    destruct (decide (Routes.id req = k)) as [<-|Hne].
    + rewrite lookup_insert_eq in Hq. injection Hq as <-.
      rewrite apply_updates_status in Hposted.
      destruct (Routes.u_status u) as [s|] eqn:Es; cbn in Hposted.
      * destruct (validate_put_status _ _ _ Hval (Hus s eq_refl))
          as [-> | [-> | ->]]; discriminate.
      * done.
    + by rewrite lookup_insert_ne in Hq.
  - destruct (delete_id_cases env req w)
      as (resp0 & w0 & Hrun0 & _ & _ & Hcases).
    rewrite Hrun in Hrun0. injection Hrun0 as -> ->.
    destruct Hcases as [[_ Hw]|(p & _ & Hp & _ & _ & Hw)];
      rewrite Hw in Hq; [exact Hq|].
    apply lookup_delete_Some in Hq as [_ Hq]. exact Hq.
Qed.

Lemma is_in_known platform :
  Routes.is_in ["twitter"; "linkedin"; "instagram"] platform
  = known_platform platform.
Proof.
  unfold Routes.is_in, known_platform. cbn [existsb].
  by destruct (platform =? "twitter"), (platform =? "linkedin"),
    (platform =? "instagram").
Qed.

Lemma all_known l :
  map (fun _ : string => "Invalid platform")
    (filter (fun p => Routes.is_in ["twitter"; "linkedin"; "instagram"] p = false) l)
  = [] ->
  Forall (fun platform => known_platform platform = true) l.
Proof.
  intros H. apply fmap_nil_inv in H.
  apply Forall_forall. intros pf Hin. rewrite <- is_in_known.
  destruct (Routes.is_in _ pf) eqn:E; [reflexivity|].
  assert (Hf : pf ∈ filter (fun p => Routes.is_in
                  ["twitter"; "linkedin"; "instagram"] p = false) l)
    by (by apply list_elem_of_filter).
  rewrite H in Hf. by apply elem_of_nil in Hf.
Qed.

(** The platforms that an update may give a post: at least one, all of
    the service. *)
Lemma validate_put_platforms isISO8601 b l :
  Routes.validate_put isISO8601 b = [] ->
  Routes.platforms b = Some l ->
  l <> [] /\ Forall (fun platform => known_platform platform = true) l.
Proof.
  unfold Routes.validate_put. intros Hval Hl. rewrite Hl in Hval.
  apply app_eq_nil in Hval as [_ Hval].
  apply app_eq_nil in Hval as [Hne Hval].
  apply app_eq_nil in Hval as [Hk _].
  split; [by destruct l|by apply all_known].
Qed.

Lemma validate_post_content isISO8601 b :
  Api.validate_post isISO8601 b = [] ->
  NewPost.content b <> ""
  /\ NewPost.platforms b <> []
  /\ Forall (fun platform => known_platform platform = true)
            (NewPost.platforms b).
Proof.
  unfold Api.validate_post. intros Hval.
  apply app_eq_nil in Hval as [Hc Hval].
  apply app_eq_nil in Hval as [Hne Hval].
  apply app_eq_nil in Hval as [Hk _].
  split; [by destruct (NewPost.content b)|].
  split; [by destruct (NewPost.platforms b)|by apply all_known].
Qed.

Lemma apply_updates_text u p :
  Post.text (Routes.apply_updates u p)
  = from_option (fun s => s) (Post.text p) (Routes.u_text u).
Proof.
  unfold Routes.apply_updates.
  by destruct (Routes.u_text u), (Routes.u_platforms u),
    (Routes.u_scheduledAt u), (Routes.u_status u).
Qed.

Lemma apply_updates_platforms u p :
  Post.platforms (Routes.apply_updates u p)
  = from_option (fun l => l) (Post.platforms p) (Routes.u_platforms u).
Proof.
  unfold Routes.apply_updates.
  by destruct (Routes.u_text u), (Routes.u_platforms u),
    (Routes.u_scheduledAt u), (Routes.u_status u).
Qed.

(** PUT and DELETE keep the stored posts well formed. *)
Lemma put_delete_preserve_well_formed env isISO8601 parseDate req w o w' :
  Routes.put_id env isISO8601 parseDate req w = (o, w')
  \/ Routes.delete_id env req w = (o, w') ->
  map_Forall (fun _ p => well_formed p) (posts w) ->
  map_Forall (fun _ p => well_formed p) (posts w').
Proof.
  intros [Hrun|Hrun] Hinv.
  - destruct (put_id_cases env isISO8601 parseDate req w)
      as (resp0 & w0 & Hrun0 & _ & _ & Hcases).
    rewrite Hrun in Hrun0. injection Hrun0 as -> ->.
    destruct Hcases
      as [[_ ->]|(p & u & _ & _ & Hval & Hp & _ & _ & -> & _ & Htext & Hpls & Hfits)];
      [exact Hinv|].
    apply map_Forall_insert_2; [|exact Hinv].
    destruct (Hinv _ _ Hp) as (Ht & Hne & Hk & Hf).
    unfold well_formed.
    rewrite apply_updates_text, apply_updates_platforms.
    assert (Hnew : forall l, Routes.u_platforms u = Some l ->
                     l <> [] /\ Forall (fun pf => known_platform pf = true) l).
    { intros l Hl. rewrite Hpls in Hl.
      exact (validate_put_platforms _ _ _ Hval Hl). }
    split; [|split; [|split]].
    + destruct (Routes.u_text u) as [t|]; [by apply Htext|exact Ht].
    + destruct (Routes.u_platforms u) as [l|]; [by apply Hnew|exact Hne].
    + destruct (Routes.u_platforms u) as [l|]; [by apply Hnew|exact Hk].
    + destruct Hfits as [[Et El]|Hfits'].
      * unfold text_fits. rewrite apply_updates_text, apply_updates_platforms.
        rewrite Et, El. exact Hf.
      * exact Hfits'.
  - destruct (delete_id_cases env req w)
      as (resp0 & w0 & Hrun0 & _ & _ & Hcases).
    rewrite Hrun in Hrun0. injection Hrun0 as -> ->.
    destruct Hcases as [[_ ->]|(p & _ & _ & _ & _ & ->)]; [exact Hinv|].
    by apply map_Forall_delete.
Qed.

(** X17: a DELETE answered with 200 addressed a stored post of the
    requester that was not [posted], and removed this post and no
    other. *)
Theorem delete_removes_one_owned_post env req w resp w' :
  Routes.delete_id env req w = (Returned resp, w') ->
  Routes.statusCode resp = 200%nat ->
  exists p,
    posts w !! Routes.id req = Some p
    /\ Post.userId p = Routes.userId req
    /\ Post.status p <> "posted"
    /\ posts w' = delete (Routes.id req) (posts w).
Proof.
  intros Hrun Hok.
  destruct (delete_id_cases env req w)
    as (resp0 & w0 & Hrun0 & _ & _ & Hcases).
  rewrite Hrun in Hrun0. injection Hrun0 as <- <-.
  destruct Hcases as [[[Hge _] _]|(p & _ & Hp & Hown & Hst & Hw)].
  { rewrite Hok in Hge. lia. }
  by exists p.
Qed.

Lemma put_rewrites_one_owned_post_witness :
  let run := Routes.put_id Scenario.env0 (fun _ => true) (fun _ => 0%Z)
               Cases.schedule_request Cases.world_draft in
  exists p p',
    posts Cases.world_draft !! Routes.id Cases.schedule_request = Some p
    /\ Post.userId p = Routes.userId Cases.schedule_request
    /\ Post.status p <> "posted"
    /\ Routes.json
         (Routes.mkResponse 200
            (Routes.PostJson "Post updated successfully" Cases.scheduled_draft))
       = Routes.PostJson "Post updated successfully" p'
    /\ posts (snd run) = <[Routes.id Cases.schedule_request := p']>
                           (posts Cases.world_draft)
    /\ scheduler_paths p' = scheduler_paths p.
Proof.
  intros run.
  apply (put_rewrites_one_owned_post Scenario.env0 (fun _ => true)
           (fun _ => 0%Z) Cases.schedule_request Cases.world_draft).
  - vm_compute. reflexivity.
  - reflexivity.
Defined.

Lemma delete_removes_one_owned_post_witness :
  let run := Routes.delete_id Scenario.env0 Cases.schedule_request
               Cases.world_draft in
  exists p,
    posts Cases.world_draft !! Routes.id Cases.schedule_request = Some p
    /\ Post.userId p = Routes.userId Cases.schedule_request
    /\ Post.status p <> "posted"
    /\ posts (snd run)
       = delete (Routes.id Cases.schedule_request) (posts Cases.world_draft).
Proof.
  intros run.
  apply (delete_removes_one_owned_post Scenario.env0 Cases.schedule_request
           Cases.world_draft
           (Routes.mkResponse 200
              (Routes.MessageJson "Post deleted successfully"))).
  - vm_compute. reflexivity.
  - reflexivity.
Defined.

(** ** The post API: creation *)

Lemma validate_post_status isISO8601 b :
  Api.validate_post isISO8601 b = [] ->
  api_status (from_option (fun s => s) "draft" (NewPost.status b)).
Proof.
  unfold Api.validate_post. intros Hval.
  repeat (apply app_eq_nil in Hval as [_ Hval]).
  destruct (NewPost.status b) as [s|]; [|by left].
  unfold Routes.is_in in Hval. cbn [existsb] in Hval. cbn [from_option].
  destruct (String.eqb_spec s "draft"); [by left|].
  destruct (String.eqb_spec s "scheduled"); [by right; left|].
  destruct (String.eqb_spec s "published"); [by right; right|].
  discriminate.
Qed.

(** Every create is answered: with an error that left the stores as
    they were, or with 201 and the new post, stored under an id that
    was free. *)
Lemma post_root_cases env isISO8601 parseDate blank duplicate_key uid b s :
  exists resp s',
    Api.post_root env isISO8601 parseDate blank duplicate_key uid b s = (resp, s')
    /\ users (Api.world s') = users (Api.world s)
    /\ logs (Api.world s') = logs (Api.world s)
    /\ (Api.stderr s' = Api.stderr s
        \/ (Routes.statusCode resp = 500%nat
            /\ exists e, Api.stderr s'
                         = Api.stderr s ++ [("Create post error:", e)]))
    /\ ((is_error resp /\ posts (Api.world s') = posts (Api.world s))
        \/ exists p,
             Routes.statusCode resp = 201%nat
             /\ Routes.json resp = Routes.PostJson "Post created successfully" p
             /\ Api.validate_post isISO8601 b = []
             /\ posts (Api.world s) !! Post._id blank = None
             /\ posts (Api.world s')
                = <[Post._id blank := p]> (posts (Api.world s))
             /\ schema_paths p = schema_paths blank
             /\ (Post.userId p, Post.text p, Post.platforms p)
                = (uid, NewPost.content b, NewPost.platforms b)
             /\ Post.hashtags p = [] /\ Post.mentions p = []
             /\ Post.status p
                = from_option (fun s => s) "draft" (NewPost.status b)
             /\ (NewPost.scheduledAt b = None ->
                 Post.scheduledAt p = now (Api.world s))
             /\ text_fits p
             /\ Api.stderr s' = Api.stderr s).
Proof.
  unfold Api.post_root, Api.guarded.
  destruct (Api.validate_post isISO8601 b) as [|m ms] eqn:Hval.
  2: { cbn. eexists _, _. split; [reflexivity|]. cbn. repeat split; [by left|].
       left. split; [|reflexivity]. split; [simpl; lia|eauto]. }
  cbn [length Nat.eqb negb].
  destruct (validate_all_spec (NewPost.content b) (NewPost.platforms b)
              (Api.world s)) as (r & Hrun & Hr & Herr).
  unfold bind at 1. rewrite Hrun.
  destruct r as [resp|].
  { unfold ret. eexists _, _. split; [reflexivity|]. cbn.
    repeat split; [by left|]. left. split; [by apply Herr|reflexivity]. }
  assert (Hfits : Forall (fun platform =>
                            within (SocialMedia.textLimit
                                      (SocialMedia.getPlatformLimits platform))
                                   (String.length (NewPost.content b)))
                         (NewPost.platforms b)) by (by apply Hr).
  assert (Hd : exists d,
             match NewPost.scheduledAt b with
             | Some (String _ _ as scheduledAt) => ret (parseDate scheduledAt)
             | _ => newDate
             end (Api.world s) = (Returned d, Api.world s)
             /\ (NewPost.scheduledAt b = None -> d = now (Api.world s))).
  { destruct (NewPost.scheduledAt b) as [[|c d]|]; eexists;
      (split; [reflexivity|]); try done. }
  destruct Hd as (d & Hdrun & Hdnow).
  unfold bind at 1. rewrite Hdrun.
  unfold bind, Api.Post_insert, bind, await_io, throw. cbn beta iota.
  destruct (post_save_error env _ _) as [e|].
  { cbn. eexists _, _. split; [reflexivity|]. cbn. repeat split.
    - right. split; [reflexivity|by eexists].
    - left. split; [|reflexivity]. split; [simpl; lia|eauto]. }
  cbn [now posts users logs trace Post._id].
  destruct (posts (Api.world s) !! Post._id blank) eqn:Hfree.
  { cbn. eexists _, _. split; [reflexivity|]. cbn. repeat split.
    - right. split; [reflexivity|by eexists].
    - left. split; [|reflexivity]. split; [simpl; lia|eauto]. }
  unfold ret. eexists _, _. split; [reflexivity|]. cbn.
  repeat split; [by left|]. right. eexists. repeat split; try done.
Qed.

(** ** The stores under the whole server *)

Lemma final_post_identity p sc t : identity (final_post p sc t) = identity p.
Proof.
  unfold final_post. destruct (0 <? sc)%nat; [reflexivity|].
  cbn [Post.retryCount Post.set_retryCount Post.set_status].
  by destruct (_ <? 3)%Z.
Qed.


Section Writes.

Variable env : Env.




End Writes.







(** What one request to the post API does to the stores. *)
Lemma api_write_effects env isISO8601 parseDate duplicate_key uid w w' :
  api_write env isISO8601 parseDate duplicate_key uid w w' ->
  users w' = users w /\ logs w' = logs w
  /\ (forall k q, posts w !! k = Some q -> Post.userId q <> uid ->
                  posts w' !! k = Some q)
  /\ (forall k q, posts w' !! k = Some q -> Post.status q = "posted" ->
                  posts w !! k = Some q)
  /\ (forall k q, posts w !! k = Some q -> Post.status q = "posted" ->
                  posts w' !! k = Some q)
  /\ (map_Forall (fun _ p => well_formed p) (posts w) ->
      map_Forall (fun _ p => well_formed p) (posts w'))
  /\ (keyed_by_id (posts w) -> keyed_by_id (posts w')).
Proof.
  intros [req w0 o w0' <- Hrun|req w0 o w0' <- Hrun|blank b s r s' Hrun].
  - split; [|split; [|split; [|split; [|split; [|split]]]]].
    + destruct (put_id_cases env isISO8601 parseDate req w0)
        as (? & ? & Hrun0 & Hu & _). rewrite Hrun in Hrun0. by injection Hrun0 as -> ->.
    + destruct (put_id_cases env isISO8601 parseDate req w0)
        as (? & ? & Hrun0 & _ & Hl & _). rewrite Hrun in Hrun0.
      by injection Hrun0 as -> ->.
    + intros k q Hq Hne.
      eapply put_delete_isolate_users; [left; exact Hrun|exact Hq|exact Hne].
    + intros k q Hq Hposted.
      eapply put_delete_never_mark_posted; [left; exact Hrun|exact Hq|exact Hposted].
    + intros k q Hq Hposted.
      destruct (put_id_cases env isISO8601 parseDate req w0)
        as (? & ? & Hrun0 & _ & _ & Hcases).
      rewrite Hrun in Hrun0. injection Hrun0 as -> ->.
      destruct Hcases as [[_ ->]|(p & u & _ & _ & _ & Hp & _ & Hst & -> & _)];
        [exact Hq|].
      rewrite lookup_insert_ne; [exact Hq|].
      intros <-. rewrite Hp in Hq. injection Hq as ->. by apply Hst.
    + eapply put_delete_preserve_well_formed. left. exact Hrun.
    + intros Hkey.
      destruct (put_id_cases env isISO8601 parseDate req w0)
        as (? & ? & Hrun0 & _ & _ & Hcases).
      rewrite Hrun in Hrun0. injection Hrun0 as -> ->.
      destruct Hcases as [[_ ->]|(p & u & _ & _ & _ & Hp & _ & _ & -> & _)];
        [exact Hkey|].
      intros k q. destruct (decide (Routes.id req = k)) as [<-|Hne].
      * rewrite lookup_insert_eq. intros [= <-].
        pose proof (apply_updates_paths u p) as Hpaths.
        injection Hpaths as -> _. by apply Hkey.
      * rewrite lookup_insert_ne by done. apply Hkey.
  - destruct (delete_id_cases env req w0)
      as (? & ? & Hrun0 & Hu & Hl & Hcases).
    rewrite Hrun in Hrun0. injection Hrun0 as -> ->.
    split; [exact Hu|]. split; [exact Hl|].
    destruct Hcases as [[_ ->]|(p & _ & Hp & Hown & Hst & ->)];
      [repeat (split; [by auto|]); by auto|].
    split; [|split; [|split; [|split]]].
    + intros k q Hq Hne. rewrite lookup_delete_ne; [exact Hq|].
      intros <-. rewrite Hp in Hq. injection Hq as ->. by apply Hne.
    + intros k q Hq _. by apply lookup_delete_Some in Hq as [_ Hq].
    + intros k q Hq Hposted. rewrite lookup_delete_ne; [exact Hq|].
      intros <-. rewrite Hp in Hq. injection Hq as ->. by apply Hst.
    + by apply map_Forall_delete.
    + intros Hkey k q Hq. apply lookup_delete_Some in Hq as [_ Hq].
      by apply Hkey.
  - destruct (post_root_cases env isISO8601 parseDate blank duplicate_key uid b s)
      as (? & ? & Hrun0 & Hu & Hl & _ & Hcases).
    rewrite Hrun in Hrun0. injection Hrun0 as -> ->.
    split; [exact Hu|]. split; [exact Hl|].
    destruct Hcases
      as [[_ ->]|(p & _ & _ & Hval & Hfree & -> & Hschema & Hreq & _ & _
                    & Hst & _ & Hfits & _)];
      [repeat (split; [by auto|]); by auto|].
    assert (Hfresh : forall k q, posts (Api.world s) !! k = Some q ->
                       Post._id blank <> k).
    { intros k q Hq <-. by rewrite Hfree in Hq. }
    split; [|split; [|split; [|split]]].
    + intros k q Hq _. rewrite lookup_insert_ne; [exact Hq|]. by eapply Hfresh.
    + intros k q Hq Hposted.
      destruct (decide (Post._id blank = k)) as [<-|Hne].
      * rewrite lookup_insert_eq in Hq. injection Hq as <-.
        rewrite Hst in Hposted.
        destruct (validate_post_status _ _ Hval) as [H|[H|H]];
          rewrite H in Hposted; discriminate.
      * by rewrite lookup_insert_ne in Hq.
    + intros k q Hq _. rewrite lookup_insert_ne; [exact Hq|]. by eapply Hfresh.
    + intros Hinv. apply map_Forall_insert_2; [|exact Hinv].
      destruct (validate_post_content _ _ Hval) as (Hc & Hne & Hk).
      injection Hreq as _ Et El. unfold well_formed. by rewrite Et, El.
    + intros Hkey k q. destruct (decide (Post._id blank = k)) as [<-|Hne].
      * rewrite lookup_insert_eq. intros [= <-]. by injection Hschema.
      * rewrite lookup_insert_ne by done. apply Hkey.
Qed.

(** Every disconnection is answered, and touches neither the posts nor
    the attempt log: an answer other than 200 leaves the users as they
    were, and 200 takes the account for the platform, and only it, from
    the stored user. *)
Lemma delete_platform_cases env user_query_error user_save_error uid platform s :
  exists r s',
    Api.delete_platform env user_query_error user_save_error uid platform s
    = (r, s')
    /\ posts (Api.world s') = posts (Api.world s)
    /\ logs (Api.world s') = logs (Api.world s)
    /\ (((400 <= Api.statusCode r)%nat
         /\ (exists e, Api.json r = Api.Failure e)
         /\ users (Api.world s') = users (Api.world s))
        \/ exists u a,
             Api.statusCode r = 200%nat
             /\ known_platform platform = true
             /\ users (Api.world s) !! uid = Some u
             /\ User.connectedAccounts u !! platform = Some a
             /\ users (Api.world s')
                = <[User._id u :=
                      User.mk (User._id u)
                              (delete platform (User.connectedAccounts u))]>
                    (users (Api.world s))).
Proof.
  unfold Api.delete_platform, Api.guarded.
  rewrite is_in_known.
  destruct (known_platform platform) eqn:Hknown; cbn [negb].
  2: { cbn. eexists _, _. split; [reflexivity|]. cbn. repeat split.
       left. split; [lia|]. split; [by eexists|reflexivity]. }
  unfold bind at 1, Api.User_findById, bind, await_io, throw. cbn beta iota.
  destruct (user_query_error uid (now (Api.world s))) as [e|].
  { cbn. eexists _, _. split; [reflexivity|]. cbn. repeat split.
    left. split; [lia|]. split; [by eexists|reflexivity]. }
  cbn [users]. destruct (users (Api.world s) !! uid) as [u|] eqn:Hu.
  2: { cbn. eexists _, _. split; [reflexivity|]. cbn. repeat split.
       left. split; [lia|]. split; [by eexists|reflexivity]. }
  destruct (User.connectedAccounts u !! platform) as [a|] eqn:Ha.
  2: { cbn. eexists _, _. split; [reflexivity|]. cbn. repeat split.
       left. split; [lia|]. split; [by eexists|reflexivity]. }
  unfold Api.User_save, bind, await_io, throw. cbn beta iota.
  destruct (user_save_error _ _) as [e|].
  { cbn. eexists _, _. split; [reflexivity|]. cbn. repeat split.
    left. split; [lia|]. split; [by eexists|reflexivity]. }
  cbn. eexists _, _. split; [reflexivity|]. cbn. repeat split.
  right. by exists u, a.
Qed.




(** X20: whatever the requests that other users send to the post API,
    and in whatever number, a stored post stays in the collection as it
    is; such requests touch neither the users nor the attempt log. *)
Theorem session_isolates_users env isISO8601 parseDate duplicate_key uids w w' k q :
  api_session env isISO8601 parseDate duplicate_key uids w w' ->
  posts w !! k = Some q ->
  Post.userId q ∉ uids ->
  posts w' !! k = Some q /\ users w' = users w /\ logs w' = logs w.
Proof.
  intros Hrun. induction Hrun as [w|uid uids w w1 w2 Hw _ IH];
    intros Hq Hother; [by repeat split|].
  destruct (api_write_effects _ _ _ _ _ _ _ Hw) as (Hu & Hl & Hiso & _).
  apply not_elem_of_cons in Hother as [Hne Hother].
  destruct IH as (Hq2 & Hu2 & Hl2); [by apply Hiso|exact Hother|].
  split; [exact Hq2|]. split; congruence.
Qed.

(** X21: no sequence of requests to the post API marks a post as
    published: a post that is [posted] after the requests was stored
    under the same id, [posted] and equal, before them.  Only the
    scheduler gives this status. *)
Theorem session_never_marks_posted env isISO8601 parseDate duplicate_key
    uids w w' k q :
  api_session env isISO8601 parseDate duplicate_key uids w w' ->
  posts w' !! k = Some q ->
  Post.status q = "posted" ->
  posts w !! k = Some q.
Proof.
  intros Hrun. induction Hrun as [w|uid uids w w1 w2 Hw _ IH];
    intros Hq Hposted; [exact Hq|].
  destruct (api_write_effects _ _ _ _ _ _ _ Hw) as (_ & _ & _ & Hnew & _).
  apply Hnew; [|exact Hposted]. by apply IH.
Qed.

(** X18: a create answered with 201 stored one new post, under an id
    that was free, and changed no other: the post of the requester,
    with the text and the platforms sent, well formed, no hashtags and
    no mentions, the status sent ([draft] when none was: never
    [posted]), due from the instant of the request when no date was
    sent, and the rest as the schema gives it. *)
Theorem create_stores_a_valid_post env isISO8601 parseDate blank duplicate_key
    uid b s resp s' :
  Api.post_root env isISO8601 parseDate blank duplicate_key uid b s = (resp, s') ->
  Routes.statusCode resp = 201%nat ->
  exists p,
    Routes.json resp = Routes.PostJson "Post created successfully" p
    /\ posts (Api.world s) !! Post._id blank = None
    /\ posts (Api.world s') = <[Post._id blank := p]> (posts (Api.world s))
    /\ schema_paths p = schema_paths blank
    /\ (Post.userId p, Post.text p, Post.platforms p, Post.hashtags p,
        Post.mentions p)
       = (uid, NewPost.content b, NewPost.platforms b, [], [])
    /\ well_formed p
    /\ Post.status p = from_option (fun s => s) "draft" (NewPost.status b)
    /\ api_status (Post.status p)
    /\ (NewPost.scheduledAt b = None -> Post.scheduledAt p = now (Api.world s)).
Proof.
  intros Hrun Hok.
  destruct (post_root_cases env isISO8601 parseDate blank duplicate_key uid b s)
    as (? & ? & Hrun0 & _ & _ & _ & Hcases).
  rewrite Hrun in Hrun0. injection Hrun0 as <- <-.
  destruct Hcases
    as [[[Hge _] _]|(p & _ & Hjson & Hval & Hfree & Hposts & Hschema & Hreq
                       & Hh & Hm & Hst & Hd & Hfits & _)].
  { rewrite Hok in Hge. lia. }
  exists p. destruct (validate_post_content _ _ Hval) as (Hc & Hne & Hk).
  injection Hreq as Eu Et El.
  repeat split; try done.
  - by rewrite Eu, Et, El, Hh, Hm.
  - by rewrite Et.
  - by rewrite El.
  - by rewrite El.
  - rewrite Hst. by apply (validate_post_status isISO8601).
Qed.

Lemma create_stores_a_valid_post_witness :
  exists p,
    Routes.json (Routes.mkResponse 201
                   (Routes.PostJson "Post created successfully" Cases.created))
    = Routes.PostJson "Post created successfully" p
    /\ posts (Api.world Cases.server_draft) !! Post._id Cases.blank = None
    /\ posts Cases.world_created
       = <[Post._id Cases.blank := p]> (posts (Api.world Cases.server_draft))
    /\ schema_paths p = schema_paths Cases.blank
    /\ (Post.userId p, Post.text p, Post.platforms p, Post.hashtags p,
        Post.mentions p)
       = ("u1", NewPost.content Cases.new_post, NewPost.platforms Cases.new_post,
          [], [])
    /\ well_formed p
    /\ Post.status p
       = from_option (fun s => s) "draft" (NewPost.status Cases.new_post)
    /\ api_status (Post.status p)
    /\ (NewPost.scheduledAt Cases.new_post = None ->
        Post.scheduledAt p = now (Api.world Cases.server_draft)).
Proof.
  apply (create_stores_a_valid_post Scenario.env0 (fun _ => true) (fun _ => 0%Z)
           Cases.blank Cases.duplicate_key "u1" Cases.new_post
           Cases.server_draft).
  - vm_compute. reflexivity.
  - reflexivity.
Defined.

(** X19: every create is answered, whatever the store does: with 201,
    or with an error of status 400 or more that left the Post
    collection as it was.  No create touches the users or the attempt
    log, and the server writes an error on its console exactly when it
    answers 500. *)
Theorem create_is_answered env isISO8601 parseDate blank duplicate_key uid b s :
  exists resp s',
    Api.post_root env isISO8601 parseDate blank duplicate_key uid b s = (resp, s')
    /\ (Routes.statusCode resp = 201%nat
        \/ (is_error resp /\ posts (Api.world s') = posts (Api.world s)))
    /\ users (Api.world s') = users (Api.world s)
    /\ logs (Api.world s') = logs (Api.world s)
    /\ (if Nat.eqb (Routes.statusCode resp) 500
        then exists e, Api.stderr s' = Api.stderr s ++ [("Create post error:", e)]
        else Api.stderr s' = Api.stderr s).
Proof.
  unfold Api.post_root, Api.guarded.
  destruct (Api.validate_post isISO8601 b) as [|m ms] eqn:Hval.
  2: { cbn. eexists _, _. split; [reflexivity|]. cbn. repeat split.
       right. split; [|reflexivity]. split; [simpl; lia|eauto]. }
  cbn [length Nat.eqb negb].
  assert (Hloop : forall l w, exists r,
            Routes.validate_all (NewPost.content b) l w = (Returned r, w)
            /\ forall resp, r = Some resp ->
                 Routes.statusCode resp = 400%nat
                 /\ exists e d, Routes.json resp = Routes.ErrorJson e d).
  { induction l as [|pf l IH]; intros w.
    - exists None. split; [reflexivity|discriminate].
    - cbn [Routes.validate_all].
      destruct (validateContent_on_object pf
                  (SocialMedia.text_only (NewPost.content b))) as (v & -> & _).
      destruct (SocialMedia.isValid v); cbn [negb]; [apply IH|].
      eexists. split; [reflexivity|]. intros resp [= <-]. by eauto. }
  destruct (Hloop (NewPost.platforms b) (Api.world s)) as (r & Hrun & Herr).
  unfold bind at 1. rewrite Hrun.
  destruct r as [resp|].
  { destruct (Herr resp eq_refl) as (Hcode & e & d & Hjson).
    unfold ret. eexists _, _. split; [reflexivity|]. cbn. rewrite Hcode.
    repeat split. right. split; [|reflexivity].
    split; [rewrite Hcode; lia|eauto]. }
  assert (Hd : exists d,
             match NewPost.scheduledAt b with
             | Some (String _ _ as scheduledAt) => ret (parseDate scheduledAt)
             | _ => newDate
             end (Api.world s) = (Returned d, Api.world s)).
  { destruct (NewPost.scheduledAt b) as [[|c d]|]; eexists; reflexivity. }
  destruct Hd as (d & Hdrun).
  unfold bind at 1. rewrite Hdrun.
  unfold bind, Api.Post_insert, bind, await_io, throw. cbn beta iota.
  destruct (post_save_error env _ _) as [e|].
  { cbn. eexists _, _. split; [reflexivity|]. cbn. repeat split.
    - right. split; [|reflexivity]. split; [simpl; lia|eauto].
    - by eexists. }
  cbn [now posts users logs trace Post._id].
  destruct (posts (Api.world s) !! Post._id blank) eqn:Hfree.
  { cbn. eexists _, _. split; [reflexivity|]. cbn. repeat split.
    - right. split; [|reflexivity]. split; [simpl; lia|eauto].
    - by eexists. }
  unfold ret. eexists _, _. split; [reflexivity|]. cbn.
  repeat split. by left.
Qed.

(** ** From the request to the platforms *)

Lemma final_post_status p sc t :
  Post.status (final_post p sc t) = "posted" <-> (0 < sc)%nat.
Proof.
  unfold final_post. destruct (0 <? sc)%nat eqn:E.
  - apply Nat.ltb_lt in E. by split.
  - apply Nat.ltb_ge in E. cbn.
    destruct (Post.retryCount p + 1 <? 3)%Z; cbn; (split; [discriminate|lia]).
Qed.

(** The answers of the mock service, as the dispatcher records them. *)
Lemma mock_recorded_success env content user pls new :
  mock_publisher env ->
  Forall2 (recorded env content user) pls new ->
  Forall2 (fun platform r =>
             PlatformResult.success r
             = known_platform platform && connected user platform) pls new.
Proof.
  intros Hmock Hrec.
  eapply Forall2_impl; [exact Hrec|]. intros pf r (_ & _ & Hcase).
  unfold connected. destruct user as [u|]; [|by rewrite andb_false_r].
  destruct (User.connectedAccounts u !! pf) as [a|];
    [|destruct Hcase as [-> _]; by rewrite andb_false_r].
  destruct Hcase as (t0 & Hcase).
  destruct (Hmock pf a content t0) as (t' & Heq). rewrite Heq in Hcase.
  pose proof (mock_publishPost_known pf a content t') as Hk.
  destruct (SocialMedia.publishPost pf a content t').
  - destruct Hk as [-> _]. by destruct Hcase as [-> _].
  - destruct Hk as [-> _]. by destruct Hcase as [-> _].
Qed.

Section Ticks.

Variable env : Env.
Hypothesis saves : forall p t, post_save_error env p t = None.

(** With a store that accepts the saves, the loop of a tick dispatches
    each post of a list without duplicates, and what this dispatch
    returned is what the store holds at the end. *)
Lemma tick_loop_each l :
  NoDup (returned_ids l) ->
  forall w r w',
    forEach (fun _ '(post, user) => Scheduler.publishPost env post user ;; ret tt)
            l tt w = (r, w') ->
    forall post user, (post, user) ∈ l ->
      exists wa post' wb,
        (now w <= now wa)%Z
        /\ Scheduler.publishPost env post user wa = (Returned post', wb)
        /\ posts w' !! Post._id post = Some post'.
Proof.
  induction l as [|[p u] l IH]; intros Hnd w r w' Hrun post user Hin.
  - by apply elem_of_nil in Hin.
  - cbn in Hnd. apply NoDup_cons in Hnd as [Hfresh Hnd].
    cbn [forEach] in Hrun. unfold bind at 1 in Hrun.
    unfold bind at 1 in Hrun.
    destruct (publishPost_total env p u w saves) as (p' & w1 & Hp).
    rewrite Hp in Hrun. cbn in Hrun.
    pose proof (publishPost_frame env p u w _ w1 Hp)
      as (_ & Hclock & _ & _ & _ & Hstored).
    apply elem_of_cons in Hin as [[= -> ->]|Hin].
    + exists w, p', w1. split; [lia|]. split; [exact Hp|].
      destruct (tick_loop_frame env l _ _ _ Hrun) as (_ & _ & _ & Hframe).
      by rewrite Hframe.
    + destruct (IH Hnd _ _ _ Hrun post user Hin) as (wa & post' & wb & Hle & Hd & Hs).
      exists wa, post', wb. split; [lia|]. by split.
Qed.

(** So a tick over a store that answers the due-post query itself
    dispatches each stored post that is due. *)
Lemma tick_dispatches_each w k p :
  find_due env = mongo_find_due ->
  keyed_by_id (posts w) ->
  posts w !! k = Some p ->
  due (now w) p = true ->
  exists wa post' wb,
    (now w <= now wa)%Z
    /\ Scheduler.publishPost env p (users w !! Post.userId p) wa
       = (Returned post', wb)
    /\ posts (snd (Scheduler.processScheduledPosts env w)) !! k = Some post'.
Proof.
  intros Hfind Hkey Hp Hdue.
  destruct (mongo_find_due (posts w) (users w) (now w)) as [l|e] eqn:Hl;
    [|discriminate].
  pose proof (mongo_find_due_NoDup _ _ _ _ Hkey Hl) as Hnd.
  pose proof (mongo_find_due_complete _ _ _ _ _ _ Hl Hp Hdue) as Hin.
  assert (Hl' : find_due env (posts w) (users w) (now w) = Returned l)
    by (by rewrite Hfind).
  rewrite (processScheduledPosts_run env w l Hl').
  match goal with
  | |- context [forEach ?f l tt ?w1] =>
      destruct (tick_loop_total env l saves w1) as (w' & Hloop);
      destruct (tick_loop_each l Hnd _ _ _ Hloop _ _ Hin)
        as (wa & post' & wb & Hle & Hd & Hs);
      rewrite Hloop
  end.
  cbn [snd now] in *. exists wa, post', wb.
  split; [pose proof (N2Z.is_nonneg (elapsed env (now w))); lia|].
  split; [exact Hd|]. by rewrite <- (Hkey _ _ Hp).
Qed.

End Ticks.

(** The clock does not go back during a create. *)
Lemma post_root_clock env isISO8601 parseDate blank duplicate_key uid b s :
  (now (Api.world s)
   <= now (Api.world (snd (Api.post_root env isISO8601 parseDate blank
                             duplicate_key uid b s))))%Z.
Proof.
  unfold Api.post_root, Api.guarded.
  destruct (negb _); [cbn; lia|].
  destruct (validate_all_spec (NewPost.content b) (NewPost.platforms b)
              (Api.world s)) as (r & Hrun & _).
  unfold bind at 1. rewrite Hrun. destruct r as [resp|]; [cbn; lia|].
  assert (Hd : exists d,
             match NewPost.scheduledAt b with
             | Some (String _ _ as scheduledAt) => ret (parseDate scheduledAt)
             | _ => newDate
             end (Api.world s) = (Returned d, Api.world s)).
  { destruct (NewPost.scheduledAt b) as [[|c d]|]; eexists; reflexivity. }
  destruct Hd as (d & Hdrun).
  unfold bind at 1. rewrite Hdrun.
  unfold bind, Api.Post_insert, bind, await_io, throw. cbn beta iota.
  pose proof (N2Z.is_nonneg (elapsed env (now (Api.world s)))).
  destruct (post_save_error env _ _); [cbn; lia|].
  cbn [now posts users logs trace Post._id].
  destruct (posts (Api.world s) !! Post._id blank); cbn; lia.
Qed.

(** X24: from the request to the platforms.  A post created as
    [scheduled] without a date is due at once: over a store that
    answers the due-post query itself, keeps every post under its id
    and accepts the saves, the next tick of the scheduler, whenever it
    comes, dispatches it.  After the tick the stored post has the owner,
    the text and the platforms of the request and one more result for
    each platform, and it is not due any more; under the repository's
    mock service it is [posted] exactly when its owner has a connected
    account for one of its platforms. *)
Theorem created_post_goes_out_at_next_tick env isISO8601 parseDate blank
    duplicate_key uid b s resp s' d :
  Api.post_root env isISO8601 parseDate blank duplicate_key uid b s = (resp, s') ->
  Routes.statusCode resp = 201%nat ->
  NewPost.status b = Some "scheduled" ->
  NewPost.scheduledAt b = None ->
  (Post.retryCount blank < 3)%Z ->
  find_due env = mongo_find_due ->
  (forall p t, post_save_error env p t = None) ->
  keyed_by_id (posts (Api.world s)) ->
  mock_publisher env ->
  (0 <= d)%Z ->
  let w1 := mkWorld (now (Api.world s') + d) (posts (Api.world s'))
              (users (Api.world s')) (logs (Api.world s'))
              (trace (Api.world s')) in
  exists p',
    posts (snd (Scheduler.processScheduledPosts env w1)) !! Post._id blank
    = Some p'
    /\ (Post.userId p', Post.text p', Post.platforms p')
       = (uid, NewPost.content b, NewPost.platforms b)
    /\ length (Post.results p')
       = (length (Post.results blank) + length (NewPost.platforms b))%nat
    /\ due (now w1) p' = false
    /\ (Post.status p' = "posted"
        <-> exists platform,
              platform ∈ NewPost.platforms b
              /\ connected (users (Api.world s) !! uid) platform = true).
Proof.
  intros Hrun Hok Hstatus Hdate Hretry Hfind Hsaves Hkey Hmock Hd w1.
  pose proof (post_root_clock env isISO8601 parseDate blank duplicate_key uid b s)
    as Hclock. rewrite Hrun in Hclock. cbn [snd] in Hclock.
  destruct (post_root_cases env isISO8601 parseDate blank duplicate_key uid b s)
    as (? & ? & Hrun0 & Hu & _ & _ & Hcases).
  rewrite Hrun in Hrun0. injection Hrun0 as <- <-.
  destruct Hcases
    as [[[Hge _] _]|(p & _ & _ & Hval & Hfree & Hposts & Hschema & Hreq
                       & _ & _ & Hst & Hnow & _ & _)].
  { rewrite Hok in Hge. lia. }
  injection Hschema as Hid _ Hrc _ Hres. injection Hreq as Eu Et El.
  rewrite Hstatus in Hst. cbn in Hst. specialize (Hnow Hdate).
  destruct (validate_post_content _ _ Hval) as (_ & _ & Hknown).
  assert (Hkey1 : keyed_by_id (posts w1)).
  { subst w1. cbn [posts]. rewrite Hposts. intros k q.
    destruct (decide (Post._id blank = k)) as [<-|Hne].
    - rewrite lookup_insert_eq. by intros [= <-].
    - rewrite lookup_insert_ne by done. apply Hkey. }
  assert (Hp : posts w1 !! Post._id blank = Some p).
  { subst w1. cbn [posts]. by rewrite Hposts, lookup_insert_eq. }
  assert (Hdue : due (now w1) p = true).
  { unfold due. rewrite Hst, Hrc, Hnow. subst w1. cbn [now].
    apply andb_true_iff. split; [apply andb_true_iff; split|].
    - apply Z.leb_le. lia.
    - reflexivity.
    - by apply Z.ltb_lt. }
  destruct (tick_dispatches_each env Hsaves w1 _ p Hfind Hkey1 Hp Hdue)
    as (wa & post' & wb & Hle & Hdisp & Hstored).
  exists post'. split; [exact Hstored|].
  pose proof (dispatched_not_due env p _ wa post' wb (now w1) Hdisp Hle) as Hnot.
  destruct (publishPost_returned env p _ wa post' wb Hdisp)
    as (new & t & evs & Hrec & -> & _).
  pose proof (final_post_identity
                (with_results (Post.results p ++ new) (posting (now wa) p))
                (successes new) t) as Hident.
  injection Hident as _ Eu' Et' _ _ _ El'.
  cbn in Eu', Et', El'.
  split; [by rewrite Eu', Et', El', Eu, Et, El|].
  split.
  { rewrite final_post_results. cbn. rewrite length_app, Hres.
    by rewrite <- (Forall2_length _ _ _ Hrec), El. }
  split; [exact Hnot|].
  rewrite final_post_status.
  pose proof (mock_recorded_success _ _ _ _ _ Hmock Hrec) as Hall.
  rewrite (successes_positive _ _ _ Hall), El.
  subst w1. cbn [users]. rewrite Hu, Eu.
  split; intros (pf & Hin & Hc); exists pf; (split; [exact Hin|]).
  - by apply andb_true_iff in Hc as [_ Hc].
  - rewrite Hc, andb_true_r.
    by apply (proj1 (Forall_forall _ _) Hknown).
Qed.

Lemma created_post_goes_out_at_next_tick_witness :
  exists p',
    posts Cases.world_ticked !! Post._id Cases.blank = Some p'
    /\ (Post.userId p', Post.text p', Post.platforms p')
       = ("u1", NewPost.content Cases.new_post, NewPost.platforms Cases.new_post)
    /\ length (Post.results p')
       = (length (Post.results Cases.blank)
          + length (NewPost.platforms Cases.new_post))%nat
    /\ due (now Cases.world_created + 0) p' = false
    /\ (Post.status p' = "posted"
        <-> exists platform,
              platform ∈ NewPost.platforms Cases.new_post
              /\ connected (users (Api.world Cases.server_draft) !! "u1") platform
                 = true).
Proof.
  apply (created_post_goes_out_at_next_tick Scenario.env0 (fun _ => true)
           (fun _ => 0%Z) Cases.blank Cases.duplicate_key "u1" Cases.new_post
           Cases.server_draft
           (Routes.mkResponse 201
              (Routes.PostJson "Post created successfully" Cases.created))
           (snd (Api.post_root Scenario.env0 (fun _ => true) (fun _ => 0%Z)
                   Cases.blank Cases.duplicate_key "u1" Cases.new_post
                   Cases.server_draft)) 0).
  - vm_compute. reflexivity.
  - reflexivity.
  - reflexivity.
  - reflexivity.
  - reflexivity.
  - reflexivity.
  - reflexivity.
  - intros k p Hk. unfold Cases.server_draft, Cases.world_draft in Hk.
    cbn [posts Api.world] in Hk.
    apply lookup_insert_Some in Hk as [[<- <-]|[_ Hk]]; [reflexivity|].
    apply lookup_insert_Some in Hk as [[<- <-]|[_ Hk]]; [reflexivity|].
    by rewrite lookup_empty in Hk.
  - intros pf a c t. by eexists.
  - lia.
Defined.






Lemma session_isolates_users_witness :
  let run := Routes.put_id Scenario.env0 (fun _ => true) (fun _ => 0%Z)
               Cases.stranger_request Cases.world_draft in
  posts (snd run) !! "p6" = Some Cases.draft
  /\ users (snd run) = users Cases.world_draft
  /\ logs (snd run) = logs Cases.world_draft.
Proof.
  intros run.
  apply (session_isolates_users Scenario.env0 (fun _ => true) (fun _ => 0%Z)
           Cases.duplicate_key ["u2"] Cases.world_draft).
  - eapply session_cons; [|apply session_nil].
    eapply write_put with (req := Cases.stranger_request);
      [reflexivity|apply surjective_pairing].
  - vm_compute. reflexivity.
  - intros H. apply elem_of_cons in H as [H|H]; [discriminate|].
    by apply elem_of_nil in H.
Defined.

Lemma session_never_marks_posted_witness :
  posts Cases.world_draft !! "p4" = Some Scenario.published.
Proof.
  set (run := Routes.put_id Scenario.env0 (fun _ => true) (fun _ => 0%Z)
                Cases.schedule_request Cases.world_draft).
  apply (session_never_marks_posted Scenario.env0 (fun _ => true)
           (fun _ => 0%Z) Cases.duplicate_key ["u1"] Cases.world_draft (snd run)).
  - eapply session_cons; [|apply session_nil].
    eapply write_put with (req := Cases.schedule_request);
      [reflexivity|apply surjective_pairing].
  - vm_compute. reflexivity.
  - reflexivity.
Defined.

(** ** The analytics of a post *)

Lemma counts_add_up (l : list PlatformResult.t) :
  (length (filter (fun r => PlatformResult.success r = true) l)
   + length (filter (fun r => negb (PlatformResult.success r) = true) l))%nat
  = length l.
Proof.
  induction l as [|r l IH]; [reflexivity|].
  destruct (PlatformResult.success r) eqn:E.
  - rewrite filter_cons_True by exact E.
    rewrite filter_cons_False by (rewrite E; cbn; discriminate).
    cbn [length]. lia.
  - rewrite filter_cons_False by (rewrite E; discriminate).
    rewrite filter_cons_True by (by rewrite E).
    cbn [length]. lia.
Qed.

(** X25: the analytics of a post that a dispatch has just returned,
    asked by its owner from a store that answers: the answer is 200 and
    changes nothing; its two counts add up to the results that the post
    had before plus one for each of its platforms, so after a retry
    they exceed [totalPlatforms]; a [posted] post counts a success;
    and for a post dispatched for the first time the counts add up to
    [totalPlatforms], and the post is [posted] exactly when the count
    of successes is not zero. *)
Theorem analytics_after_dispatch env post user w post' w' req s :
  Scheduler.publishPost env post user w = (Returned post', w') ->
  posts (Api.world s) !! Routes.id req = Some post' ->
  Post.userId post = Routes.userId req ->
  query_error env (Routes.id req) (now (Api.world s)) = None ->
  exists a s1,
    Api.get_analytics env req s = (Api.mkReply 200 (Api.Data a), s1)
    /\ posts (Api.world s1) = posts (Api.world s)
    /\ Api.stderr s1 = Api.stderr s
    /\ Analytics.totalPlatforms a = length (Post.platforms post)
    /\ (Analytics.successfulPosts a + Analytics.failedPosts a)%nat
       = (length (Post.results post) + Analytics.totalPlatforms a)%nat
    /\ (Analytics.status a = "posted" -> (0 < Analytics.successfulPosts a)%nat)
    /\ (Post.results post = [] ->
        (Analytics.successfulPosts a + Analytics.failedPosts a)%nat
        = Analytics.totalPlatforms a
        /\ (Analytics.status a = "posted"
            <-> (0 < Analytics.successfulPosts a)%nat)).
Proof.
  intros Hrun Hstored Howner Hquery.
  destruct (publishPost_returned env post user w post' w' Hrun)
    as (new & t & evs & Hrec & Hpost' & _).
  pose proof (Forall2_length _ _ _ Hrec) as Hlen.
  assert (Hid : identity post' = identity post)
    by (by rewrite Hpost', final_post_identity).
  injection Hid as _ Eu _ _ _ _ El.
  assert (Hres : Post.results post' = Post.results post ++ new)
    by (by rewrite Hpost', final_post_results).
  assert (Hst : Post.status post' = "posted" <-> (0 < successes new)%nat)
    by (rewrite Hpost'; apply final_post_status).
  unfold Api.get_analytics, Api.guarded, bind, Routes.Post_findOne, bind,
    await_io, throw.
  cbn beta iota. rewrite Hquery. cbn [posts]. rewrite Hstored.
  rewrite Eu, Howner, String.eqb_refl. unfold ret.
  eexists _, _. split; [reflexivity|]. cbn.
  split; [reflexivity|]. split; [reflexivity|].
  rewrite counts_add_up, Hres, El, length_app.
  fold (successes (Post.results post ++ new)). rewrite successes_app.
  split; [reflexivity|]. split; [lia|].
  split; [intros Hp; apply Hst in Hp; lia|].
  intros Hfirst. rewrite Hfirst. cbn. split; [lia|exact Hst].
Qed.

Lemma analytics_after_dispatch_witness :
  let run := Scheduler.publishPost Scenario.env0 Scenario.two_platforms
               (Some Scenario.alice) Scenario.world0 in
  let req := Routes.mkRequest "p1" "u1" (Routes.mkBody None None None None) in
  exists a s1,
    Api.get_analytics Scenario.env0 req (Api.mkServer (snd run) [])
    = (Api.mkReply 200 (Api.Data a), s1)
    /\ posts (Api.world s1) = posts (Api.world (Api.mkServer (snd run) []))
    /\ Api.stderr s1 = Api.stderr (Api.mkServer (snd run) [])
    /\ Analytics.totalPlatforms a = length (Post.platforms Scenario.two_platforms)
    /\ (Analytics.successfulPosts a + Analytics.failedPosts a)%nat
       = (length (Post.results Scenario.two_platforms)
          + Analytics.totalPlatforms a)%nat
    /\ (Analytics.status a = "posted" -> (0 < Analytics.successfulPosts a)%nat)
    /\ (Post.results Scenario.two_platforms = [] ->
        (Analytics.successfulPosts a + Analytics.failedPosts a)%nat
        = Analytics.totalPlatforms a
        /\ (Analytics.status a = "posted"
            <-> (0 < Analytics.successfulPosts a)%nat)).
Proof.
  intros run req.
  apply (analytics_after_dispatch Scenario.env0 Scenario.two_platforms
           (Some Scenario.alice) Scenario.world0
           (Scenario.returned_post Scenario.two_platforms run) (snd run) req
           (Api.mkServer (snd run) [])).
  - vm_compute. reflexivity.
  - vm_compute. reflexivity.
  - reflexivity.
  - reflexivity.
Defined.

(** ** The manual trigger over HTTP *)

(** X27: the endpoint of the manual trigger answers 200 whatever
    happens, its 500 is never sent: the answer says [success: true]
    exactly when the store answered, the post was found [scheduled] and
    its dispatch returned, and carries an error message otherwise. *)
Theorem publish_now_always_200 env postId w :
  exists res w',
    Api.publish_now env postId w = (Returned (200%nat, res), w')
    /\ (ManualResult.success res = true
        <-> query_error env postId (now w) = None
            /\ exists p post',
                 posts w !! postId = Some p
                 /\ Post.status p = "scheduled"
                 /\ fst (Scheduler.publishPost env p (users w !! Post.userId p)
                           (mkWorld (now w + Z.of_N (elapsed env (now w)))
                                    (posts w) (users w) (logs w) (trace w)))
                    = Returned post')
    /\ (ManualResult.success res = false -> is_Some (ManualResult.error res)).
Proof.
  unfold Api.publish_now, try_catch, bind. rewrite schedulePost_run. cbn zeta.
  destruct (query_error env postId (now w)) as [e|].
  { eexists _, _. split; [reflexivity|]. cbn. split; [|by eauto].
    split; [discriminate|]. by intros [? _]. }
  destruct (posts w !! postId) as [p|] eqn:Hp.
  2: { eexists _, _. split; [reflexivity|]. cbn. split; [|by eauto].
       split; [discriminate|]. by intros (_ & ? & ? & ? & _). }
  destruct (Post.status p =? "scheduled") eqn:Hst.
  2: { eexists _, _. split; [reflexivity|]. cbn. split; [|by eauto].
       split; [discriminate|]. intros (_ & p0 & ? & [= <-] & Hs & _).
       exfalso. apply String.eqb_neq in Hst. by apply Hst. }
  apply String.eqb_eq in Hst.
  destruct (Scheduler.publishPost env p _ _) as [[post'|e] w1] eqn:Hpub.
  - eexists _, _. split; [reflexivity|].
    cbn [ManualResult.success ManualResult.error]. split; [|discriminate].
    split; [|reflexivity]. intros _. split; [reflexivity|].
    exists p, post'. rewrite Hpub. by repeat split.
  - eexists _, _. split; [reflexivity|].
    cbn [ManualResult.success ManualResult.error]. split; [|by eauto].
    split; [discriminate|]. intros (_ & p0 & post' & [= <-] & _ & Hr).
    rewrite Hpub in Hr. discriminate.
Qed.

(** ** Disconnecting an account *)

(** X26: a disconnection answered with 200 takes the account for the
    platform, and only it, from the requester, and touches no other
    user and no post.  From then on a dispatch of a post of this user
    records, for each occurrence of the platform among its targets, a
    failure that says the account is not connected, and never calls
    the publisher for this platform. *)
Theorem disconnect_stops_publishing env user_query_error user_save_error
    uid platform s r s' :
  Api.delete_platform env user_query_error user_save_error uid platform s
  = (r, s') ->
  Api.statusCode r = 200%nat ->
  users_keyed_by_id (users (Api.world s)) ->
  exists u u',
    users (Api.world s) !! uid = Some u
    /\ users (Api.world s') !! uid = Some u'
    /\ User._id u' = uid
    /\ User.connectedAccounts u' = delete platform (User.connectedAccounts u)
    /\ (forall k, k <> uid -> users (Api.world s') !! k = users (Api.world s) !! k)
    /\ posts (Api.world s') = posts (Api.world s)
    /\ forall post w post' w',
         Scheduler.publishPost env post (Some u') w = (Returned post', w') ->
         (forall i, Post.platforms post !! i = Some platform ->
            exists res,
              appended post post' !! i = Some res
              /\ PlatformResult.success res = false
              /\ PlatformResult.error res
                 = Some (platform +:+ " account not connected for user"))
         /\ exists evs,
              trace w' = trace w ++ evs
              /\ forall id, (platform, id) ∉ publish_calls evs.
Proof.
  intros Hrun Hok Hkey.
  destruct (delete_platform_cases env user_query_error user_save_error uid
              platform s) as (? & ? & Hrun0 & Hposts & _ & Hcases).
  rewrite Hrun in Hrun0. injection Hrun0 as <- <-.
  destruct Hcases as [(Hge & _)|(u & a & _ & _ & Hu & Ha & Husers)].
  { rewrite Hok in Hge. lia. }
  pose proof (Hkey _ _ Hu) as Hid. rewrite Hid in Husers.
  exists u, (User.mk uid (delete platform (User.connectedAccounts u))).
  split; [exact Hu|]. split; [by rewrite Husers, lookup_insert_eq|].
  split; [reflexivity|]. split; [reflexivity|].
  split; [intros k Hne; by rewrite Husers, lookup_insert_ne|].
  split; [exact Hposts|].
  intros post w post' w' Hdisp.
  set (u' := User.mk uid (delete platform (User.connectedAccounts u))) in *.
  assert (Hgone : User.connectedAccounts u' !! platform = None)
    by apply lookup_delete_eq.
  split.
  - destruct (publishPost_returned env post (Some u') w post' w' Hdisp)
      as (new & t & evs & Hrec & -> & _).
    rewrite appended_final. intros i Hi.
    destruct (Forall2_lookup_l _ _ _ _ _ Hrec Hi) as (res & Hres & _ & _ & Hcase).
    rewrite Hgone in Hcase. destruct Hcase as [Hs He].
    by exists res.
  - destruct (publishPost_effects env post (Some u') w post' w' Hdisp)
      as (new_logs & evs & _ & _ & _ & _ & _ & Htr & Hcalls).
    eexists. split; [exact Htr|]. intros id.
    rewrite !publish_calls_app. cbn [publish_calls omap]. rewrite Hcalls.
    rewrite app_nil_r. cbn. unfold owed_calls. intros Hin.
    apply list_elem_of_fmap in Hin as (pf & [= <- _] & Hin).
    apply list_elem_of_filter in Hin as [Hc _].
    unfold connected in Hc. by rewrite Hgone in Hc.
Qed.

Lemma disconnect_stops_publishing_witness :
  let run := Api.delete_platform Scenario.env0 Cases.users_answer
               Cases.users_accept "u1" "twitter" Cases.server_draft in
  exists u u',
    users (Api.world Cases.server_draft) !! "u1" = Some u
    /\ users (Api.world (snd run)) !! "u1" = Some u'
    /\ User._id u' = "u1"
    /\ User.connectedAccounts u' = delete "twitter" (User.connectedAccounts u)
    /\ (forall k, k <> "u1" ->
          users (Api.world (snd run)) !! k
          = users (Api.world Cases.server_draft) !! k)
    /\ posts (Api.world (snd run)) = posts (Api.world Cases.server_draft)
    /\ forall post w post' w',
         Scheduler.publishPost Scenario.env0 post (Some u') w
         = (Returned post', w') ->
         (forall i, Post.platforms post !! i = Some "twitter" ->
            exists res,
              appended post post' !! i = Some res
              /\ PlatformResult.success res = false
              /\ PlatformResult.error res
                 = Some ("twitter" +:+ " account not connected for user"))
         /\ exists evs,
              trace w' = trace w ++ evs
              /\ forall id, ("twitter", id) ∉ publish_calls evs.
Proof.
  intros run.
  apply (disconnect_stops_publishing Scenario.env0 Cases.users_answer
           Cases.users_accept "u1" "twitter" Cases.server_draft
           (Api.mkReply 200
              (Api.Data (Disconnected.mk
                           "twitter account disconnected successfully"
                           "twitter")))).
  - vm_compute. reflexivity.
  - reflexivity.
  - intros k u Hk. unfold Cases.server_draft, Cases.world_draft in Hk.
    cbn [users Api.world] in Hk.
    apply lookup_singleton_Some in Hk as [<- <-]. reflexivity.
Defined.

(** ** The editor and the server *)

(** X28: the check of the editor implies the checks of the server on
    the text: when the editor finds no error in a form, the content is
    not empty, a platform is selected, the content validation of the
    service passes for every selected platform, and the validation
    chain of [POST /] passes too when the platforms are those of the
    service, the status is [draft] or [scheduled] and the date, if any,
    is in ISO 8601. *)
Theorem editor_check_implies_server_check isSpace isISO8601 content platforms :
  PostEditor.validateContent isSpace content platforms = [] ->
  content <> ""
  /\ platforms <> []
  /\ Forall (fun platform =>
               exists v,
                 SocialMedia.validateContent platform
                   (Some (SocialMedia.text_only content)) = Returned v
                 /\ SocialMedia.isValid v = true
                 /\ SocialMedia.errors v = []) platforms
  /\ (forall w, Routes.validate_all content platforms w = (Returned None, w))
  /\ (Forall (fun platform => known_platform platform = true) platforms ->
      forall date status,
        from_option isISO8601 true date = true ->
        status = "draft" \/ status = "scheduled" ->
        Api.validate_post isISO8601
          (NewPost.mk content platforms date (Some status)) = []).
Proof.
  unfold PostEditor.validateContent. intros Hcheck.
  apply app_eq_nil in Hcheck as [Hc Hcheck].
  apply app_eq_nil in Hcheck as [Hp Hlimits].
  assert (Hcontent : content <> "").
  { intros ->. discriminate. }
  assert (Hplatforms : platforms <> []).
  { intros ->. discriminate. }
  assert (Hwithin : Forall (fun platform =>
                              within (SocialMedia.textLimit
                                        (SocialMedia.getPlatformLimits platform))
                                     (String.length content)) platforms).
  { clear Hc Hp Hplatforms. induction platforms as [|pf l IH]; [constructor|].
    cbn [flat_map] in Hlimits. apply app_eq_nil in Hlimits as [Hpf Hl].
    constructor; [|by apply IH].
    apply app_eq_nil in Hpf as [Ht Hpf]. apply app_eq_nil in Hpf as [Hl' Hi].
    unfold SocialMedia.getPlatformLimits.
    destruct (pf =? "twitter").
    { cbn [andb] in Ht. cbn [SocialMedia.textLimit within].
      destruct (280 <? String.length content)%nat eqn:E;
        [discriminate|]. by apply Nat.ltb_ge in E. }
    destruct (pf =? "linkedin").
    { cbn [andb] in Hl'. cbn [SocialMedia.textLimit within].
      destruct (3000 <? String.length content)%nat eqn:E;
        [discriminate|]. by apply Nat.ltb_ge in E. }
    destruct (pf =? "instagram"); [|exact I].
    cbn [andb] in Hi. cbn [SocialMedia.textLimit within].
    destruct (2200 <? String.length content)%nat eqn:E;
      [discriminate|]. by apply Nat.ltb_ge in E. }
  split; [exact Hcontent|]. split; [exact Hplatforms|].
  split; [|split].
  - eapply Forall_impl; [exact Hwithin|]. intros pf Hpf.
    destruct (validateContent_on_object pf (SocialMedia.text_only content))
      as (v & Hv & Hvalid & Herrors & _).
    rewrite within_text_only in Hvalid.
    exists v. split; [exact Hv|].
    assert (Hok : SocialMedia.isValid v = true) by (by apply Hvalid).
    split; [exact Hok|by apply Herrors].
  - intros w. destruct (validate_all_spec content platforms w)
      as (r & Hrun & Hr & _).
    rewrite Hrun. by rewrite (proj2 Hr Hwithin).
  - intros Hknown date status Hdate Hstatus. unfold Api.validate_post.
    cbn [NewPost.content NewPost.platforms NewPost.scheduledAt NewPost.status].
    assert (Hno : filter (fun p => Routes.is_in
                            ["twitter"; "linkedin"; "instagram"] p = false)
                         platforms = []).
    { clear -Hknown. induction Hknown as [|pf l Hpf _ IH]; [reflexivity|].
      rewrite filter_cons_False; [exact IH|]. by rewrite is_in_known, Hpf. }
    rewrite Hno. destruct content; [done|]. destruct platforms; [done|].
    cbn [app map].
    assert (Hd : match date with
                 | Some s => if isISO8601 s then []
                             else ["Valid scheduled date required"]
                 | None => []
                 end = []).
    { destruct date as [d|]; [|reflexivity]. cbn in Hdate. by rewrite Hdate. }
    rewrite Hd. by destruct Hstatus as [-> | ->].
Qed.

Lemma editor_check_implies_server_check_witness :
  "hello world" <> ""
  /\ ["twitter"; "instagram"] <> []
  /\ Forall (fun platform =>
               exists v,
                 SocialMedia.validateContent platform
                   (Some (SocialMedia.text_only "hello world")) = Returned v
                 /\ SocialMedia.isValid v = true
                 /\ SocialMedia.errors v = []) ["twitter"; "instagram"]
  /\ (forall w, Routes.validate_all "hello world" ["twitter"; "instagram"] w
                = (Returned None, w))
  /\ (Forall (fun platform => known_platform platform = true)
             ["twitter"; "instagram"] ->
      forall date status,
        from_option (fun _ => true) true date = true ->
        status = "draft" \/ status = "scheduled" ->
        Api.validate_post (fun _ => true)
          (NewPost.mk "hello world" ["twitter"; "instagram"] date (Some status))
        = []).
Proof.
  apply (editor_check_implies_server_check
           (fun c => Ascii.eqb c (Ascii.ascii_of_nat 32)) (fun _ => true)
           "hello world" ["twitter"; "instagram"]).
  vm_compute. reflexivity.
Defined.
